(** * automated-email-esi: the e-mail triage pipeline, embedded and verified

    A shallow embedding of the Python services
    [gemini_service], [ebay_service], [gmail_service], [telegram_service]
    and of the dispatcher [processing_service.process_pubsub_message].

    - A Python [str] is its sequence of code points ([list N]).
    - A value produced by [json.loads] or by a JSON API is a [json]; Python's
      [None] is [JNull].  Non-integer numbers are not represented.
    - Every external call (Gemini, eBay, Gmail, Telegram, [time.sleep]) is
      answered by an oracle of the environment that sees the whole history of
      earlier calls, and is appended, with its answer, to the trace.
    - A Python exception is the [Raise] case of [result]; side effects made
      before the exception stay in the state. *)

From Stdlib Require Import ZArith NArith Ascii String Lia.
From stdpp Require Import gmap strings list fin_maps.

Set Warnings "-register-all".
#[local] Open Scope Z_scope.

(** ** Python strings *)

Abbreviation str := (list N).

(** An ASCII literal of the source, as code points. *)
Definition py (s : string) : str :=
  map (fun a => N_of_ascii a) (list_ascii_of_string s).

Definition str_eqb (a b : str) : bool := bool_decide (a = b).

(** The code points for which [str.isspace] holds. *)
Definition whitespace : list N :=
  [9; 10; 11; 12; 13; 28; 29; 30; 31; 32; 133; 160; 5760;
   8192; 8193; 8194; 8195; 8196; 8197; 8198; 8199; 8200; 8201; 8202;
   8232; 8233; 8239; 8287; 12288]%N.

Definition is_space (c : N) : bool := existsb (N.eqb c) whitespace.

Fixpoint lstrip_with (f : N -> bool) (s : str) : str :=
  match s with
  | [] => []
  | c :: s' => if f c then lstrip_with f s' else s
  end.

Definition rstrip_with (f : N -> bool) (s : str) : str :=
  rev (lstrip_with f (rev s)).

(** [s.strip()] *)
Definition strip (s : str) : str := rstrip_with is_space (lstrip_with is_space s).

(** [s.strip(c)] for a single character [c] *)
Definition strip_char (c : N) (s : str) : str :=
  rstrip_with (N.eqb c) (lstrip_with (N.eqb c) s).

(** [s.startswith(p)] *)
Fixpoint startswith (p s : str) : bool :=
  match p, s with
  | [], _ => true
  | a :: p', b :: s' => N.eqb a b && startswith p' s'
  | _ :: _, [] => false
  end.

(** [s.endswith(p)] *)
Definition endswith (p s : str) : bool := startswith (rev p) (rev s).

(** [p in s] for two strings *)
Fixpoint is_substring (p s : str) : bool :=
  startswith p s ||
  match s with
  | [] => false
  | _ :: s' => is_substring p s'
  end.

(** [s.find(c)] for a character that occurs in [s] *)
Fixpoint find_char (c : N) (s : str) : nat :=
  match s with
  | [] => 0%nat
  | a :: s' => if N.eqb a c then 0%nat else S (find_char c s')
  end.

(** [s.split(c)[-1]]: what follows the last occurrence of [c] *)
Fixpoint after_last (c : N) (s : str) : str :=
  match s with
  | [] => []
  | a :: s' =>
      if existsb (N.eqb c) s' then after_last c s'
      else if N.eqb a c then s' else s
  end.

(** [s[i:j]] for [0 <= i] and [0 <= j] *)
Definition slice (i j : nat) (s : str) : str := take (j - i) (drop i s).

(** ** Exceptions and results *)

Inductive exn : Type :=
| RequestException      (* requests.exceptions.RequestException and subclasses *)
| HttpError             (* googleapiclient.errors.HttpError *)
| TelegramError         (* telegram.error.TelegramError *)
| RuntimeError
| JSONDecodeError       (* json.JSONDecodeError *)
| TypeError
| AttributeError
| KeyError
| ValueError
| OtherException.

Definition is_RequestException (e : exn) : bool :=
  match e with RequestException => true | _ => false end.
Definition is_HttpError (e : exn) : bool :=
  match e with HttpError => true | _ => false end.
Definition is_RuntimeError (e : exn) : bool :=
  match e with RuntimeError => true | _ => false end.

Inductive result (A : Type) : Type :=
| Ok (a : A)
| Raise (e : exn).
Arguments Ok {A} a.
Arguments Raise {A} e.

Definition rbind {A B} (r : result A) (k : A -> result B) : result B :=
  match r with
  | Ok a => k a
  | Raise e => Raise e
  end.

Declare Scope py_scope.
Delimit Scope py_scope with py_scope.
#[local] Open Scope py_scope.

Notation "x <~ c1 ;; c2" := (rbind c1 (fun x => c2))
  (at level 100, c1 at next level, right associativity) : py_scope.

(** ** JSON values, as Python objects *)

Inductive json : Type :=
| JNull
| JBool (b : bool)
| JNum (z : Z)
| JStr (s : str)
| JArr (l : list json)
| JObj (d : gmap str json).

(** Python truthiness *)
Definition truthy (v : json) : bool :=
  match v with
  | JNull => false
  | JBool b => b
  | JNum z => negb (z =? 0)
  | JStr s => negb (Nat.eqb (length s) 0)
  | JArr l => negb (Nat.eqb (length l) 0)
  | JObj d => negb (Nat.eqb (size d) 0)
  end.

Definition is_str (k : str) (v : json) : bool :=
  match v with
  | JStr s => str_eqb s k
  | _ => false
  end.

(** [k in v] for a string [k] *)
Definition py_in (k : str) (v : json) : result bool :=
  match v with
  | JObj d => Ok (bool_decide (is_Some (d !! k)))
  | JArr l => Ok (existsb (is_str k) l)
  | JStr s => Ok (is_substring k s)
  | _ => Raise TypeError
  end.

(** [v.get(k, dflt)]: only a dict has [get] *)
Definition py_get (v : json) (k : str) (dflt : json) : result json :=
  match v with
  | JObj d => Ok (default dflt (d !! k))
  | _ => Raise AttributeError
  end.

(** [v[k] = x] for a string [k] *)
Definition py_setitem (v : json) (k : str) (x : json) : result json :=
  match v with
  | JObj d => Ok (JObj (<[k := x]> d))
  | _ => Raise TypeError
  end.

(** [v[k]] for a string [k] *)
Definition py_getitem (v : json) (k : str) : result json :=
  match v with
  | JObj d => match d !! k with Some x => Ok x | None => Raise KeyError end
  | _ => Raise TypeError
  end.

(** [v[0]] *)
Definition py_first (v : json) : result json :=
  match v with
  | JArr (x :: _) => Ok x
  | JArr [] => Raise OtherException (* IndexError *)
  | JStr (c :: _) => Ok (JStr [c])
  | JStr [] => Raise OtherException (* IndexError *)
  | JObj _ => Raise KeyError
  | _ => Raise TypeError
  end.

(** [len(v)] is defined for strings, lists and dicts only *)
Definition py_has_len (v : json) : bool :=
  match v with
  | JStr _ | JArr _ | JObj _ => true
  | _ => false
  end.

(** [for x in v]: the elements the loop visits *)
Definition py_iter (v : json) : result (list json) :=
  match v with
  | JArr l => Ok l
  | JStr s => Ok (map (fun c => JStr [c]) s)
  | JObj d => Ok (map (fun kv => JStr kv.1) (map_to_list d))
  | _ => Raise TypeError
  end.

(** [t + v] for a number [t]: [bool] is a subclass of [int] *)
Definition py_add_num (t : Z) (v : json) : result Z :=
  match v with
  | JNum z => Ok (t + z)
  | JBool b => Ok (t + (if b then 1 else 0))
  | _ => Raise TypeError
  end.

(** An optional string of an e-mail record, as the Python object it is. *)
Definition opt_json (o : option str) : json :=
  match o with
  | Some s => JStr s
  | None => JNull
  end.

Definition opt_truthy (o : option str) : bool :=
  match o with
  | Some (_ :: _) => true
  | _ => false
  end.

(** ** Data of the services *)

(** The dict built by [get_email_details]: all six keys are always present,
    a header that was not found is [None]. *)
Record email_data : Type := {
  message_id : json;
  thread_id : option str;
  sender : option str;
  subject : option str;
  body : str;
  message_id_header : option str
}.

(** The dict built by [search_ebay_items] for one item summary. *)
Record item : Type := {
  title : json;
  itemId : json;
  itemWebUrl : json;
  price : json;
  currency : json;
  condition : json
}.

(** What the code reads of a Gemini response: [response.parts] and
    [response.text], two accessors that can raise -- [response.parts] raises
    [ValueError] when the response carries no candidate, which is how the
    library answers a prompt that was blocked -- and
    [response.prompt_feedback.block_reason] ([None] when there is no
    feedback; the reason is an enum whose zero is falsy). *)
Record response : Type := {
  response_parts : result (list str);
  text : result str;
  prompt_feedback : option Z
}.

(** The parts of a response whose parts can be read; none otherwise. *)
Definition parts (r : response) : list str :=
  match response_parts r with
  | Ok ps => ps
  | Raise _ => []
  end.

(** The prompts of [gemini_service].  The fixed text of each f-string
    template is the constructor; the arguments are the values spliced into
    it, already sliced as the template slices them. *)
Inductive prompt : Type :=
| ClassifyPrompt (email_subject : option str) (email_body_2000 : str)
| EvaluatePrompt (original_body_1500 : str) (relevant_knowledge : list item)
| ResponsePrompt (original_subject : option str) (original_body_1500 : str)
    (relevant_knowledge : list item)
| SearchParamsPrompt (email_body_2000 : str).

(** The text sent by [forward_to_support], by the values spliced into it. *)
Record telegram_text : Type := {
  tg_sender : str;
  tg_subject : json;
  tg_message_id : json;
  tg_body_preview : str;
  tg_sender_email : str;
  tg_thread_id : json
}.

(** What [requests.get] or [requests.post] does: raise, or answer with a
    status code and a body ([None] when the body is not JSON). *)
Inductive http_reply : Type :=
| HttpFails (e : exn)
| HttpReply (status : Z) (payload : option json).

(** ** External calls and the environment *)

Inductive event : Type :=
| EvGenerate (model : str) (p : prompt) (r : result response)
| EvSleep (seconds : Z)
| EvTokenPost (url client_id client_secret : str) (r : http_reply)
| EvSearchGet (url : str) (token params : json) (r : http_reply)
| EvGmailList (q : str) (r : result json)
| EvGmailGet (id : json) (r : result json)
| EvGmailSend (raw : str) (threadId : json) (r : result json)
| EvGmailModify (id : json) (r : result unit)
| EvTelegramSend (chat_id : str) (t : telegram_text) (r : result unit).

(** The calls that leave the process; [time.sleep] does not. *)
Definition is_network_call (ev : event) : bool :=
  match ev with
  | EvSleep _ => false
  | _ => true
  end.

(** The outside world: each oracle sees the history of earlier calls. *)
Record World : Type := {
  generate_content : list event -> str -> prompt -> result response;
  time_time : list event -> Z;
  requests_post : list event -> str -> str -> str -> http_reply;
  requests_get : list event -> str -> json -> json -> http_reply;
  messages_list : list event -> str -> result json;
  messages_get : list event -> json -> result json;
  messages_send : list event -> str -> json -> result json;
  messages_modify : list event -> json -> result unit;
  bot_send_message : list event -> str -> telegram_text -> result unit;
  get_event_loop : list event -> result unit;
  asyncio_run : list event -> result unit
}.

(** [config.py], and the two module-level models of [gemini_service]
    ([None] when their initialisation failed). *)
Record Config : Type := {
  GMAIL_USER_ID : str;
  GMAIL_WATCH_LABEL_ID : option str;
  TELEGRAM_BOT_TOKEN : option str;
  TELEGRAM_CHAT_ID : option str;
  EBAY_OAUTH_CLIENT_ID : option str;
  EBAY_OAUTH_CLIENT_SECRET : option str;
  EBAY_ENVIRONMENT : str;
  classification_model : option str;
  generation_model : option str
}.

(** Functions of the interpreter and of third-party libraries, whose code
    is not in the repository; and [extract_email_data], the one part of the
    repository that is left abstract: it is the walk of [get_email_details]
    over the headers and MIME parts of the fetched message (base64 decoding
    included), which ends in the [email_data] record or in an exception. *)
Record PyLib : Type := {
  (* str.upper(), one code point at a time *)
  upper_char : N -> str;
  (* json.loads *)
  json_loads : str -> result json;
  (* EmailMessage(): set_content, the four headers, as_bytes, base64url *)
  encode_reply : str -> str -> str -> str -> result str;
  (* get_email_details, from the fetched message to the record *)
  extract_email_data : json -> json -> result email_data;
  (* telegram.Bot(token=...) *)
  telegram_Bot : str -> result unit
}.

Record Env : Type := {
  cfg : Config;
  lib : PyLib;
  world : World
}.

(** [s.upper()] *)
Definition upper (L : PyLib) (s : str) : str := flat_map (upper_char L) s.

(** ** Program state and the monad of the services *)

(** The trace, the two globals of [ebay_service], and the heap of the dict
    objects that are passed by reference. *)
Record state : Type := {
  trace : list event;
  oauth_token : json;
  token_expiry_time : Z;
  heap : gmap nat json
}.

(** The state when the modules have just been imported. *)
Definition initial_state : state :=
  {| trace := []; oauth_token := JNull; token_expiry_time := 0; heap := ∅ |}.

Definition M (A : Type) : Type := state -> result A * state.

Definition ret {A} (a : A) : M A := fun s => (Ok a, s).
Definition raise {A} (e : exn) : M A := fun s => (Raise e, s).
Definition lift {A} (r : result A) : M A := fun s => (r, s).

Definition bind {A B} (m : M A) (k : A -> M B) : M B :=
  fun s =>
    match m s with
    | (Ok a, s') => k a s'
    | (Raise e, s') => (Raise e, s')
    end.

(** [try: m], handing the outcome to the [except] clauses *)
Definition try_ {A} (m : M A) : M (result A) :=
  fun s => let (r, s') := m s in (Ok r, s').

Notation "x <- c1 ;; c2" := (bind c1 (fun x => c2))
  (at level 100, c1 at next level, right associativity) : py_scope.
Notation "c1 ;; c2" := (bind c1 (fun _ => c2))
  (at level 100, right associativity) : py_scope.

Definition history : M (list event) := fun s => (Ok (trace s), s).

Definition emit (ev : event) : M unit :=
  fun s =>
    (Ok tt, {| trace := trace s ++ [ev]; oauth_token := oauth_token s;
               token_expiry_time := token_expiry_time s; heap := heap s |}).

Definition set_oauth_token (v : json) : M unit :=
  fun s =>
    (Ok tt, {| trace := trace s; oauth_token := v;
               token_expiry_time := token_expiry_time s; heap := heap s |}).

Definition set_token_expiry_time (t : Z) : M unit :=
  fun s =>
    (Ok tt, {| trace := trace s; oauth_token := oauth_token s;
               token_expiry_time := t; heap := heap s |}).

Definition heap_store (p : nat) (v : json) : M unit :=
  fun s =>
    (Ok tt, {| trace := trace s; oauth_token := oauth_token s;
               token_expiry_time := token_expiry_time s;
               heap := <[p := v]> (heap s) |}).

(** A new object on the heap; its reference is returned. *)
Definition heap_alloc (v : json) : M nat :=
  fun s =>
    let p := fresh (dom (heap s)) in
    (Ok p, {| trace := trace s; oauth_token := oauth_token s;
              token_expiry_time := token_expiry_time s;
              heap := <[p := v]> (heap s) |}).

Section Services.

Variable E : Env.

(** *** gemini_service *)

(** [model.generate_content(prompt)] *)
Definition model_generate_content (model : str) (p : prompt) : M response :=
  h <- history ;;
  let r := generate_content (world E) h model p in
  emit (EvGenerate model p r) ;;
  lift r.

(** [time.sleep(delay)], for a delay that is not negative: the callers pass
    the default 5, which the loop only doubles.  (A negative delay raises
    [ValueError].) *)
Definition time_sleep (delay : Z) : M unit := emit (EvSleep delay).

(** The body of the [try] in the loop of [_call_gemini_api]: the call, and
    the look at the response, whose [response.parts] can raise. *)
Definition gemini_attempt (model : str) (p : prompt) : M (option response) :=
  response <- model_generate_content model p ;;
  the_parts <- lift (response_parts response) ;;
  if negb (Nat.eqb (length the_parts) 0) then ret (Some response)
  else
    match prompt_feedback response with
    | Some block_reason =>
        if negb (block_reason =? 0) then ret None (* blocked *)
        else ret (Some response)
    | None => ret (Some response)
    end.

(** The [while retries < max_retries] loop of [_call_gemini_api].  Every
    iteration returns or increments [retries], so [max_retries] iterations
    are enough fuel; see [gemini_loop_fuel]. *)
Fixpoint gemini_loop (fuel : nat) (model : str) (p : prompt)
    (max_retries retries delay : Z) : M (option response) :=
  match fuel with
  | O => ret None
  | S fuel' =>
      if retries <? max_retries then
        r <- try_ (gemini_attempt model p) ;;
        match r with
        | Ok answer => ret answer
        | Raise _ =>
            let retries := retries + 1 in
            if max_retries <=? retries then ret None
            else
              time_sleep delay ;;
              gemini_loop fuel' model p max_retries retries (delay * 2)
        end
      else ret None
  end.

Definition _call_gemini_api (model : option str) (p : prompt)
    (max_retries delay : Z) : M (option response) :=
  match model with
  | None => ret None
  | Some m => gemini_loop (Z.to_nat max_retries) m p max_retries 0 delay
  end.

(** The defaults [max_retries=3, delay=5], which every caller uses. *)
Definition call_gemini_default (model : option str) (p : prompt) : M (option response) :=
  _call_gemini_api model p 3 5.

(** [response and response.parts], which is outside the [try] of its
    callers *)
Definition has_parts (r : option response) : result (option response) :=
  match r with
  | Some response =>
      the_parts <~ response_parts response ;;
      if negb (Nat.eqb (length the_parts) 0) then Ok (Some response) else Ok None
  | None => Ok None
  end.

(** The [except Exception as e] handlers of [classify_email],
    [evaluate_knowledge_relevance] and [generate_response] format
    [response.text] into the log message before they return. *)
Definition log_response_text (response : response) : M unit :=
  _ <- lift (text response) ;; ret tt.

Definition classify_email (email_subject : option str) (email_body : str)
  : M (option str) :=
  r <- call_gemini_default (classification_model (cfg E))
         (ClassifyPrompt email_subject (take 2000 email_body)) ;;
  with_parts <- lift (has_parts r) ;;
  match with_parts with
  | Some response =>
      match text response with
      | Ok t =>
          let classification := upper (lib E) (strip t) in
          if str_eqb classification (py "SPAM") || str_eqb classification (py "PROCESS")
          then ret (Some classification)
          else ret (Some (py "PROCESS"))
      | Raise _ => log_response_text response ;; ret None
      end
  | None => ret None
  end.

(** The affirmative token of [evaluate_knowledge_relevance]: C, O acute. *)
Definition affirmative : str := [67; 211]%N.

Definition evaluate_knowledge_relevance (original_body : str)
    (relevant_knowledge : list item) : M bool :=
  match relevant_knowledge with
  | [] => ret false
  | _ :: _ =>
      r <- call_gemini_default (generation_model (cfg E))
             (EvaluatePrompt (take 1500 original_body) relevant_knowledge) ;;
      with_parts <- lift (has_parts r) ;;
      match with_parts with
      | Some response =>
          match text response with
          | Ok t =>
              let evaluation := upper (lib E) (strip t) in
              if startswith affirmative evaluation then ret true else ret false
          | Raise _ => log_response_text response ;; ret false
          end
      | None => ret false
      end
  end.

(** The canned reply of [generate_response] for an empty item list, a
    Vietnamese text, by its code points. *)
Definition no_information_reply : str :=
  [67; 7843; 109; 32; 417; 110; 32; 98; 7841; 110; 32; 273; 227; 32; 108; 105; 234;
   110; 32; 104; 7879; 46; 32; 72; 105; 7879; 110; 32; 116; 7841; 105; 32; 99; 104;
   250; 110; 103; 32; 116; 244; 105; 32; 99; 104; 432; 97; 32; 116; 236; 109; 32;
   116; 104; 7845; 121; 32; 116; 104; 244; 110; 103; 32; 116; 105; 110; 32; 99; 7909;
   32; 116; 104; 7875; 32; 118; 7873; 32; 121; 234; 117; 32; 99; 7847; 117; 32; 99;
   7911; 97; 32; 98; 7841; 110; 46; 32; 272; 7897; 105; 32; 110; 103; 361; 32; 104;
   7895; 32; 116; 114; 7907; 32; 99; 7911; 97; 32; 99; 104; 250; 110; 103; 32; 116;
   244; 105; 32; 115; 7869; 32; 120; 101; 109; 32; 120; 233; 116; 32; 118; 224; 32;
   112; 104; 7843; 110; 32; 104; 7891; 105; 32; 115; 97; 117; 46]%N.

Definition generate_response (original_subject : option str) (original_body : str)
    (relevant_knowledge : list item) : M (option str) :=
  match relevant_knowledge with
  | [] => ret (Some no_information_reply)
  | _ :: _ =>
      r <- call_gemini_default (generation_model (cfg E))
             (ResponsePrompt original_subject (take 1500 original_body)
                relevant_knowledge) ;;
      with_parts <- lift (has_parts r) ;;
      match with_parts with
      | Some response =>
          match text response with
          | Ok t => ret (Some (strip t))
          | Raise _ => log_response_text response ;; ret None
          end
      | None => ret None
      end
  end.

(** The parameter names, other than [q], that the validation of
    [generate_ebay_search_params] looks for. *)
Definition other_params : list str :=
  map py ["gtin"; "charity_ids"; "fieldgroups"; "compatibility_filter";
          "auto_correct"; "category_ids"; "filter"; "sort"; "limit"; "offset";
          "aspect_filter"; "epid"]%string.

(** [any(key in params for key in keys)] *)
Fixpoint any_key_in (keys : list str) (params : json) : result bool :=
  match keys with
  | [] => Ok false
  | key :: keys' =>
      b <~ py_in key params ;;
      if b then Ok true else any_key_in keys' params
  end.

(** The two fence removals before [json.loads]. *)
Definition remove_fences (json_string : str) : str :=
  let json_string :=
    if startswith (py "```json") json_string
    then strip (drop (length (py "```json")) json_string)
    else json_string in
  if endswith (py "```") json_string
  then strip (take (length json_string - length (py "```")) json_string)
  else json_string.

(** The validation after [json.loads]: [None] when [q] is missing although
    one of [other_params] is present, [params] otherwise. *)
Definition validate_params (params : json) : result json :=
  if truthy params then
    has_q <~ py_in (py "q") params ;;
    if negb has_q then
      others <~ any_key_in other_params params ;;
      if others then Ok JNull else Ok params
    else Ok params
  else Ok params.

(** Returns the parsed parameters, or [None] ([JNull]). *)
Definition generate_ebay_search_params (email_body : str) : M json :=
  match email_body with
  | [] => ret JNull
  | _ :: _ =>
      r <- call_gemini_default (generation_model (cfg E))
             (SearchParamsPrompt (take 2000 email_body)) ;;
      with_parts <- lift (has_parts r) ;;
      match with_parts with
      | Some response =>
          match (t <~ text response ;;
                 params <~ json_loads (lib E) (remove_fences (strip t)) ;;
                 validate_params params) with
          | Ok v => ret v
          | Raise _ => ret JNull (* both handlers return None *)
          end
      | None => ret JNull
      end
  end.

(** *** ebay_service *)

Definition EBAY_BROWSE_API_BASE_URL (environment : str) : option str :=
  if str_eqb environment (py "sandbox")
  then Some (py "https://api.sandbox.ebay.com/buy/browse/v1")
  else if str_eqb environment (py "production")
  then Some (py "https://api.ebay.com/buy/browse/v1")
  else None.

Definition EBAY_OAUTH_TOKEN_URL (environment : str) : option str :=
  if str_eqb environment (py "sandbox")
  then Some (py "https://api.sandbox.ebay.com/identity/v1/oauth2/token")
  else if str_eqb environment (py "production")
  then Some (py "https://api.ebay.com/identity/v1/oauth2/token")
  else None.

Definition get_state : M state := fun s => (Ok s, s).

(** [time.time()] *)
Definition time_now : M Z := fun s => (Ok (time_time (world E) (trace s)), s).

(** [response.raise_for_status()] *)
Definition raise_for_status (status : Z) : result unit :=
  if (400 <=? status) && (status <? 600) then Raise RequestException else Ok tt.

(** The request itself, [raise_for_status()] and [response.json()]; the
    decode error of [requests] is a [RequestException]. *)
Definition http_json (r : http_reply) : result json :=
  match r with
  | HttpFails e => Raise e
  | HttpReply status payload =>
      _ <~ raise_for_status status ;;
      match payload with
      | Some v => Ok v
      | None => Raise RequestException
      end
  end.

Definition post_token (token_url client_id client_secret : str) : M http_reply :=
  h <- history ;;
  let r := requests_post (world E) h token_url client_id client_secret in
  emit (EvTokenPost token_url client_id client_secret r) ;;
  ret r.

Definition get_oauth_token : M json :=
  s <- get_state ;;
  now <- time_now ;;
  if truthy (oauth_token s) && (now <? token_expiry_time s) then ret (oauth_token s)
  else if negb (opt_truthy (EBAY_OAUTH_CLIENT_ID (cfg E)))
          || negb (opt_truthy (EBAY_OAUTH_CLIENT_SECRET (cfg E))) then ret JNull
  else
    match EBAY_OAUTH_TOKEN_URL (EBAY_ENVIRONMENT (cfg E)) with
    | None => ret JNull
    | Some token_url =>
        r <- try_ (
          reply <- post_token token_url
                     (default [] (EBAY_OAUTH_CLIENT_ID (cfg E)))
                     (default [] (EBAY_OAUTH_CLIENT_SECRET (cfg E))) ;;
          token_data <- lift (http_json reply) ;;
          token <- lift (py_get token_data (py "access_token") JNull) ;;
          set_oauth_token token ;;
          expires_in <- lift (py_get token_data (py "expires_in") (JNum 3600)) ;;
          now <- time_now ;;
          expiry <- lift (py_add_num now expires_in) ;;
          set_token_expiry_time (expiry - 60) ;;
          if truthy token then ret token else ret JNull) ;;
        match r with
        | Ok token => ret token
        | Raise e =>
            (* except requests.exceptions.RequestException *)
            if is_RequestException e then ret JNull else raise e
        end
    end.

Definition NA : json := JStr (py "N/A").

(** The dict built for one element of [itemSummaries]. *)
Definition item_details (it : json) : result item :=
  title <~ py_get it (py "title") NA ;;
  itemId <~ py_get it (py "itemId") NA ;;
  itemWebUrl <~ py_get it (py "itemWebUrl") NA ;;
  price_obj <~ py_get it (py "price") (JObj ∅) ;;
  price <~ py_get price_obj (py "value") NA ;;
  currency <~ py_get price_obj (py "currency") NA ;;
  condition <~ py_get it (py "condition") NA ;;
  Ok {| title := title; itemId := itemId; itemWebUrl := itemWebUrl;
        price := price; currency := currency; condition := condition |}.

Fixpoint map_result {A B} (f : A -> result B) (l : list A) : result (list B) :=
  match l with
  | [] => Ok []
  | a :: l' => b <~ f a ;; bs <~ map_result f l' ;; Ok (b :: bs)
  end.

Definition item_summaries (search_results : json) : result (list item) :=
  summaries <~ py_get search_results (py "itemSummaries") JNull ;;
  if truthy summaries then
    l <~ py_iter summaries ;;
    map_result item_details l
  else Ok [].

Definition get_search (search_url : str) (token params : json) : M http_reply :=
  h <- history ;;
  let r := requests_get (world E) h search_url token params in
  emit (EvSearchGet search_url token params r) ;;
  ret r.

(** The object a reference points to. *)
Definition deref (p : nat) : M json :=
  s <- get_state ;;
  match heap s !! p with
  | Some v => ret v
  | None => raise OtherException
  end.

(** [query] is the reference the caller passed; [params = query] is an
    alias of it, so the default limit is written into the caller's object. *)
Definition search_ebay_items (query : nat) : M (list item) :=
  token <- get_oauth_token ;;
  if negb (truthy token) then ret []
  else
    match EBAY_BROWSE_API_BASE_URL (EBAY_ENVIRONMENT (cfg E)) with
    | None => ret []
    | Some base_url =>
        let search_url := base_url ++ py "/item_summary/search" in
        params <- deref query ;;
        has_q <- lift (py_in (py "q") params) ;;
        if negb has_q then ret []
        else
          has_limit <- lift (py_in (py "limit") params) ;;
          (if negb has_limit then
             params' <- lift (py_setitem params (py "limit") (JNum 50)) ;;
             heap_store query params'
           else ret tt) ;;
          r <- try_ (
            params <- deref query ;;
            reply <- get_search search_url token params ;;
            search_results <- lift (http_json reply) ;;
            lift (item_summaries search_results)) ;;
          match r with
          | Ok items => ret items
          | Raise _ => ret [] (* both handlers return [] *)
          end
    end.

(** *** gmail_service *)

Definition list_unread_emails : M json :=
  let query :=
    py "is:unread" ++
    match GMAIL_WATCH_LABEL_ID (cfg E) with
    | Some (c :: l) => py " label:" ++ (c :: l) ++ py " in:inbox"
    | _ => py " in:inbox"
    end in
  r <- try_ (
    h <- history ;;
    let r := messages_list (world E) h query in
    emit (EvGmailList query r) ;;
    response <- lift r ;;
    messages <- lift (py_get response (py "messages") (JArr [])) ;;
    (* len(messages) in the log line *)
    if py_has_len messages then ret messages else raise TypeError) ;;
  match r with
  | Ok messages => ret messages
  | Raise _ => ret (JArr [])
  end.

(** The second [except] clause names [base64.BinasciiError], which the
    [base64] module does not define: once the exception is not an
    [HttpError], evaluating that clause raises [AttributeError]. *)
Definition get_email_details (message_id : json) : M (option email_data) :=
  r <- try_ (
    h <- history ;;
    let r := messages_get (world E) h message_id in
    emit (EvGmailGet message_id r) ;;
    message <- lift r ;;
    lift (extract_email_data (lib E) message_id message)) ;;
  match r with
  | Ok email_data => ret (Some email_data)
  | Raise e => if is_HttpError e then ret None else raise AttributeError
  end.

Definition lt_sign : N := 60%N.
Definition gt_sign : N := 62%N.

(** [str(x)] inside an f-string, for an optional string *)
Definition format_opt (o : option str) : str :=
  match o with
  | Some s => s
  | None => py "None"
  end.

(** The address for the [To] header: what is between [<] and [>] when the
    sender has both. *)
Definition reply_recipient (sender_email : str) : str :=
  if existsb (N.eqb lt_sign) sender_email && existsb (N.eqb gt_sign) sender_email
  then slice (find_char lt_sign sender_email + 1)
             (find_char gt_sign sender_email) sender_email
  else sender_email.

(** The MIME message of the reply, encoded; [None] stands for a header
    that is absent. *)
Definition reply_message (original_email_data : email_data) (reply_body : str)
  : result str :=
  encode_reply (lib E)
    (reply_recipient (default [] (sender original_email_data)))
    (py "Re: " ++ format_opt (subject original_email_data))
    (default [] (message_id_header original_email_data))
    reply_body.

Definition send_reply (original_email_data : email_data) (reply_body : str) : M bool :=
  if negb (opt_truthy (sender original_email_data)) then ret false
  else if negb (opt_truthy (message_id_header original_email_data)) then ret false
  else
    (* a falsy thread_id is only logged *)
    r <- try_ (
      raw <- lift (reply_message original_email_data reply_body) ;;
      h <- history ;;
      let threadId := opt_json (thread_id original_email_data) in
      let r := messages_send (world E) h raw threadId in
      emit (EvGmailSend raw threadId r) ;;
      sent_message <- lift r ;;
      (* sent_message['id'] in the log line *)
      _ <- lift (py_getitem sent_message (py "id")) ;;
      ret true) ;;
    match r with
    | Ok b => ret b
    | Raise _ => ret false
    end.

Definition mark_as_read (message_id : json) : M bool :=
  r <- try_ (
    h <- history ;;
    let r := messages_modify (world E) h message_id in
    emit (EvGmailModify message_id r) ;;
    lift r) ;;
  match r with
  | Ok _ => ret true
  | Raise _ => ret false
  end.

(** *** telegram_service *)

Definition forward_to_support (email : email_data) : M bool :=
  if negb (opt_truthy (TELEGRAM_BOT_TOKEN (cfg E)))
     || negb (opt_truthy (TELEGRAM_CHAT_ID (cfg E))) then ret false
  else
    lift (telegram_Bot (lib E) (default [] (TELEGRAM_BOT_TOKEN (cfg E)))) ;;
    match sender email with
    | None => raise TypeError (* '<' in None *)
    | Some sender =>
        let sender_email :=
          if existsb (N.eqb lt_sign) sender
          then strip_char gt_sign (after_last lt_sign sender)
          else sender in
        let t := {| tg_sender := sender;
                    tg_subject := opt_json (subject email);
                    tg_message_id := message_id email;
                    tg_body_preview := take 1000 (body email);
                    tg_sender_email := sender_email;
                    tg_thread_id := opt_json (thread_id email) |} in
        let chat_id := default [] (TELEGRAM_CHAT_ID (cfg E)) in
        r <- try_ (
          h <- history ;;
          let r := bot_send_message (world E) h chat_id t in
          emit (EvTelegramSend chat_id t r) ;;
          lift r) ;;
        match r with
        | Ok _ => ret true
        | Raise _ => ret false
        end
    end.

Definition run_async_forward (email : email_data) : M bool :=
  r <- try_ (
    h <- history ;;
    lift (get_event_loop (world E) h) ;;
    forward_to_support email) ;;
  match r with
  | Ok result => ret result
  | Raise e =>
      if is_RuntimeError e then
        r' <- try_ (
          h <- history ;;
          lift (asyncio_run (world E) h) ;;
          forward_to_support email) ;;
        match r' with
        | Ok result => ret result
        | Raise _ => ret false
        end
      else ret false
  end.

End Services.

(** ** processing_service *)

(** The service functions [process_pubsub_message] calls.  The dispatcher is
    written against this interface, so that what it does can be read off
    the calls it makes and the values they return. *)
Inductive svc : Type -> Type :=
| Svc_list_unread_emails : svc json
| Svc_get_email_details (message_id : json) : svc (option email_data)
| Svc_mark_as_read (message_id : json) : svc bool
| Svc_classify_email (subject : option str) (body : str) : svc (option str)
| Svc_generate_ebay_search_params (body : str) : svc json
| Svc_search_ebay_items (search_params : json) : svc (list item)
| Svc_evaluate_knowledge_relevance (original_body : str)
    (relevant_knowledge : list item) : svc bool
| Svc_generate_response (original_subject : option str) (original_body : str)
    (relevant_knowledge : list item) : svc (option str)
| Svc_send_reply (email_details : email_data) (response_text : str) : svc bool
| Svc_run_async_forward (email_details : email_data) : svc bool.

(** One call of the dispatcher, with what it returned or raised. *)
Inductive call_record : Type :=
| Called_list_unread_emails (r : result json)
| Called_get_email_details (message_id : json) (r : result (option email_data))
| Called_mark_as_read (message_id : json) (r : result bool)
| Called_classify_email (subject : option str) (body : str) (r : result (option str))
| Called_generate_ebay_search_params (body : str) (r : result json)
| Called_search_ebay_items (search_params : json) (r : result (list item))
| Called_evaluate_knowledge_relevance (original_body : str)
    (relevant_knowledge : list item) (r : result bool)
| Called_generate_response (original_subject : option str) (original_body : str)
    (relevant_knowledge : list item) (r : result (option str))
| Called_send_reply (email_details : email_data) (response_text : str) (r : result bool)
| Called_run_async_forward (email_details : email_data) (r : result bool).

Definition record_call {T} (op : svc T) : result T -> call_record :=
  match op in svc T return result T -> call_record with
  | Svc_list_unread_emails => Called_list_unread_emails
  | Svc_get_email_details id => Called_get_email_details id
  | Svc_mark_as_read id => Called_mark_as_read id
  | Svc_classify_email s b => Called_classify_email s b
  | Svc_generate_ebay_search_params b => Called_generate_ebay_search_params b
  | Svc_search_ebay_items p => Called_search_ebay_items p
  | Svc_evaluate_knowledge_relevance b k => Called_evaluate_knowledge_relevance b k
  | Svc_generate_response s b k => Called_generate_response s b k
  | Svc_send_reply d t => Called_send_reply d t
  | Svc_run_async_forward d => Called_run_async_forward d
  end.

(** Programs over the service interface. *)
Inductive prog (A : Type) : Type :=
| Ret (a : A)
| Throw (e : exn)
| Call {T : Type} (op : svc T) (k : result T -> prog A).
Arguments Ret {A} a.
Arguments Throw {A} e.
Arguments Call {A T} op k.

Fixpoint pbind {A B} (p : prog A) (f : A -> prog B) : prog B :=
  match p with
  | Ret a => f a
  | Throw e => Throw e
  | Call op k => Call op (fun r => pbind (k r) f)
  end.

(** [try: p  except Exception: h] *)
Fixpoint catch {A} (p : prog A) (h : exn -> prog A) : prog A :=
  match p with
  | Ret a => Ret a
  | Throw e => h e
  | Call op k => Call op (fun r => catch (k r) h)
  end.

Definition call {T} (op : svc T) : prog T :=
  Call op (fun r => match r with Ok v => Ret v | Raise e => Throw e end).

Definition plift {A} (r : result A) : prog A :=
  match r with
  | Ok a => Ret a
  | Raise e => Throw e
  end.

Notation "x <-- c1 ;; c2" := (pbind c1 (fun x => c2))
  (at level 100, c1 at next level, right associativity) : py_scope.

(** [forwarded = run_async_forward(email_details)] and, if it is true,
    [mark_as_read]: the four escalation sites of the dispatcher. *)
Definition forward_and_mark (email_details : email_data) (message_id : json) : prog unit :=
  forwarded <-- call (Svc_run_async_forward email_details) ;;
  if forwarded : bool then
    _ <-- call (Svc_mark_as_read message_id) ;; Ret tt
  else Ret tt.

Definition process_pubsub_message (L : PyLib) (pubsub_message_data : str) : prog unit :=
  catch (
    message_content <-- plift (json_loads L pubsub_message_data) ;;
    email_address <-- plift (py_get message_content (py "emailAddress") JNull) ;;
    history_id <-- plift (py_get message_content (py "historyId") JNull) ;;
    unread_messages <-- call Svc_list_unread_emails ;;
    if negb (truthy unread_messages) then Ret tt
    else
      message_summary <-- plift (py_first unread_messages) ;;
      message_id <-- plift (py_get message_summary (py "id") JNull) ;;
      if negb (truthy message_id) then Ret tt
      else
        email_details <-- call (Svc_get_email_details message_id) ;;
        match email_details with
        | None => Ret tt
        | Some email_details =>
            let subject := subject email_details in
            let body := body email_details in
            match body with
            | [] => _ <-- call (Svc_mark_as_read message_id) ;; Ret tt
            | _ :: _ =>
                classification <-- call (Svc_classify_email subject body) ;;
                if bool_decide (classification = Some (py "SPAM")) then
                  _ <-- call (Svc_mark_as_read message_id) ;; Ret tt
                else if bool_decide (classification = Some (py "PROCESS")) then
                  search_params <-- call (Svc_generate_ebay_search_params body) ;;
                  unusable <-- (if negb (truthy search_params) then Ret true
                                else has_q <-- plift (py_in (py "q") search_params) ;;
                                     Ret (negb has_q)) ;;
                  if unusable : bool then forward_and_mark email_details message_id
                  else
                    relevant_items <-- call (Svc_search_ebay_items search_params) ;;
                    match relevant_items with
                    | _ :: _ =>
                        sufficient <--
                          call (Svc_evaluate_knowledge_relevance body relevant_items) ;;
                        if sufficient : bool then
                          response_text <--
                            call (Svc_generate_response subject body relevant_items) ;;
                          match response_text with
                          | Some (c :: t) =>
                              success <-- call (Svc_send_reply email_details (c :: t)) ;;
                              if success : bool then
                                _ <-- call (Svc_mark_as_read message_id) ;; Ret tt
                              else Ret tt
                          | _ => Ret tt
                          end
                        else forward_and_mark email_details message_id
                    | [] =>
                        (* search_params.get('q', 'N/A') in the log line *)
                        _ <-- plift (py_get search_params (py "q") NA) ;;
                        forward_and_mark email_details message_id
                    end
                else forward_and_mark email_details message_id
            end
        end)
    (fun _ => Ret tt).

(** An implementation of the services over some state. *)
Definition handler (S : Type) : Type := forall T, svc T -> S -> result T * S.

(** Running a program: every call is answered by the handler and recorded. *)
Fixpoint run {S A} (h : handler S) (p : prog A) (s : S) (log : list call_record)
  : result A * S * list call_record :=
  match p with
  | Ret a => (Ok a, s, log)
  | Throw e => (Raise e, s, log)
  | Call op k =>
      let (r, s') := h _ op s in
      run h (k r) s' (log ++ [record_call op r])
  end.

(** The services of this repository.  The parameters the synthesizer
    returned are one object, which [search_ebay_items] receives by
    reference. *)
Definition services (E : Env) : handler state :=
  fun T op =>
    match op in svc T return M T with
    | Svc_list_unread_emails => list_unread_emails E
    | Svc_get_email_details id => get_email_details E id
    | Svc_mark_as_read id => mark_as_read E id
    | Svc_classify_email s b => classify_email E s b
    | Svc_generate_ebay_search_params b => generate_ebay_search_params E b
    | Svc_search_ebay_items params => (query <- heap_alloc params ;; search_ebay_items E query)
    | Svc_evaluate_knowledge_relevance b k => evaluate_knowledge_relevance E b k
    | Svc_generate_response s b k => generate_response E s b k
    | Svc_send_reply d t => send_reply E d t
    | Svc_run_async_forward d => run_async_forward E d
    end.

(** *** The outcome of a dispatch cycle, read off its calls *)

Inductive DispatchOutcome : Type :=
| REPLIED
| ESCALATED (delivered : bool)
| MARKED_SPAM
| SKIPPED_EMPTY
| FAILED.

(** The message the cycle fetched: the identifier it asked for and the
    details it got. *)
Fixpoint fetched (log : list call_record) : option (json * email_data) :=
  match log with
  | [] => None
  | Called_get_email_details id (Ok (Some d)) :: _ => Some (id, d)
  | _ :: log' => fetched log'
  end.

Definition classified_spam (c : call_record) : bool :=
  match c with
  | Called_classify_email _ _ (Ok (Some l)) => str_eqb l (py "SPAM")
  | _ => false
  end.

Definition reply_sent (c : call_record) : bool :=
  match c with
  | Called_send_reply _ _ (Ok true) => true
  | _ => false
  end.

(** What the escalation call returned, when there was one. *)
Fixpoint escalation (log : list call_record) : option bool :=
  match log with
  | [] => None
  | Called_run_async_forward _ (Ok b) :: _ => Some b
  | Called_run_async_forward _ (Raise _) :: _ => Some false
  | _ :: log' => escalation log'
  end.

(** The [DispatchOutcome] of the spec's data model, in terms of the calls of
    a cycle; the code computes no such tag.  A cycle that fetched no
    message has no outcome. *)
Definition outcome_of (log : list call_record) : option DispatchOutcome :=
  match fetched log with
  | None => None
  | Some (_, d) =>
      Some (match body d with
            | [] => SKIPPED_EMPTY
            | _ :: _ =>
                if existsb classified_spam log then MARKED_SPAM
                else if existsb reply_sent log then REPLIED
                else match escalation log with
                     | Some delivered => ESCALATED delivered
                     | None => FAILED
                     end
            end)
  end.

(** The outcomes after which the spec has the message marked as read. *)
Definition marks_read (o : DispatchOutcome) : bool :=
  match o with
  | REPLIED | MARKED_SPAM | SKIPPED_EMPTY | ESCALATED true => true
  | ESCALATED false | FAILED => false
  end.

Definition mark_as_read_invoked (message_id : json) (log : list call_record) : Prop :=
  exists r, In (Called_mark_as_read message_id r) log.

Definition reply_generation_failed (c : call_record) : bool :=
  match c with
  | Called_generate_response _ _ _ (Ok (Some (_ :: _))) => false
  | Called_generate_response _ _ _ _ => true
  | _ => false
  end.

Definition reply_send_failed (c : call_record) : bool :=
  match c with
  | Called_send_reply _ _ (Ok true) => false
  | Called_send_reply _ _ _ => true
  | _ => false
  end.

Definition escalation_failed (c : call_record) : bool :=
  match c with
  | Called_run_async_forward _ (Ok true) => false
  | Called_run_async_forward _ _ => true
  | _ => false
  end.

(** ** The retry schedule of [_call_gemini_api] *)

(** What one attempt makes of the answer [g] of the model: the exception
    that sends the loop into its handler, or what the loop returns. *)
Definition attempt_outcome (g : result response) : result (option response) :=
  response <~ g ;;
  the_parts <~ response_parts response ;;
  if negb (Nat.eqb (length the_parts) 0) then Ok (Some response)
  else
    match prompt_feedback response with
    | Some block_reason => if negb (block_reason =? 0) then Ok None else Ok (Some response)
    | None => Ok (Some response)
    end.

Inductive step_kind : Type :=
| Attempt            (* one [generate_content] call *)
| Backoff (d : Z)    (* one [time.sleep(d)] *)
| OtherStep.

Definition step_of (ev : event) : step_kind :=
  match ev with
  | EvGenerate _ _ _ => Attempt
  | EvSleep d => Backoff d
  | _ => OtherStep
  end.

(** [n] attempts, with a sleep between consecutive ones that starts at
    [delay] and doubles. *)
Fixpoint backoff_schedule (n : nat) (delay : Z) : list step_kind :=
  match n with
  | O => []
  | S n' =>
      Attempt ::
      match n' with
      | O => []
      | S _ => Backoff delay :: backoff_schedule n' (delay * 2)
      end
  end.

Definition is_attempt (ev : event) : bool :=
  match ev with
  | EvGenerate _ _ _ => true
  | _ => false
  end.

Definition is_sleep (ev : event) : bool :=
  match ev with
  | EvSleep _ => true
  | _ => false
  end.

(** A response whose parts can be read and are none, and that carries a
    block reason: the shape the early return of the loop tests for. *)
Definition blocked (r : response) : Prop :=
  response_parts r = Ok []
  /\ exists reason, prompt_feedback r = Some reason /\ reason <> 0.

(** A response as the library gives it for a prompt that was withheld: a
    block reason and no candidate, so that [response.parts] raises. *)
Definition withheld (r : response) : Prop :=
  (exists e, response_parts r = Raise e)
  /\ exists reason, prompt_feedback r = Some reason /\ reason <> 0.

(** The delays of the sleeps in a trace, in order. *)
Definition sleeps (tr : list event) : list Z :=
  omap (fun ev => match ev with EvSleep d => Some d | _ => None end) tr.

(** [k] delays, starting at [delay] and doubling. *)
Fixpoint doubling (k : nat) (delay : Z) : list Z :=
  match k with
  | O => []
  | S k' => delay :: doubling k' (delay * 2)
  end.

(** The state after the events [new] and nothing else. *)
Definition extend (s : state) (new : list event) : state :=
  {| trace := trace s ++ new; oauth_token := oauth_token s;
     token_expiry_time := token_expiry_time s; heap := heap s |}.

(** ** Sample environments, for the executable examples *)

Definition ascii_upper (c : N) : str :=
  if ((97 <=? c) && (c <=? 122))%N then [(c - 32)%N] else [c].

(** A JSON string literal: the text between two double quotes. *)
Definition quoted (s : string) : str := [34%N] ++ py s ++ [34%N].

(** An answer of the model with an unlisted key, one with a listed key, and
    a Pub/Sub notification. *)
Definition keywords_text : str :=
  py "{" ++ quoted "keywords" ++ py ": " ++ quoted "thinkpad" ++ py "}".
Definition filter_text : str :=
  py "{" ++ quoted "filter" ++ py ": " ++ quoted "price:[..50]" ++ py "}".
Definition notification_text : str :=
  py "{" ++ quoted "emailAddress" ++ py ": " ++ quoted "shop@example.com"
  ++ py ", " ++ quoted "historyId" ++ py ": 7}".
Definition query_text : str :=
  py "{" ++ quoted "q" ++ py ": " ++ quoted "thinkpad t470" ++ py "}".

(** The values of [json.loads] on the texts used in the examples. *)
Definition sample_json_loads (s : str) : result json :=
  if str_eqb s keywords_text
  then Ok (JObj {[ py "keywords" := JStr (py "thinkpad") ]})
  else if str_eqb s filter_text
  then Ok (JObj {[ py "filter" := JStr (py "price:[..50]") ]})
  else if str_eqb s notification_text
  then Ok (JObj (<[ py "emailAddress" := JStr (py "shop@example.com") ]>
                   {[ py "historyId" := JNum 7 ]}))
  else if str_eqb s query_text
  then Ok (JObj {[ py "q" := JStr (py "thinkpad t470") ]})
  else Raise JSONDecodeError.

Definition sample_lib : PyLib :=
  {| upper_char := ascii_upper;
     json_loads := sample_json_loads;
     encode_reply := fun to subject header reply_body =>
                       Ok (to ++ subject ++ header ++ reply_body);
     extract_email_data := fun _ _ => Raise ValueError;
     telegram_Bot := fun _ => Ok tt |}.

Definition sample_cfg (environment : str) : Config :=
  {| GMAIL_USER_ID := py "me";
     GMAIL_WATCH_LABEL_ID := None;
     TELEGRAM_BOT_TOKEN := Some (py "bot-token");
     TELEGRAM_CHAT_ID := Some (py "42");
     EBAY_OAUTH_CLIENT_ID := Some (py "client-id");
     EBAY_OAUTH_CLIENT_SECRET := Some (py "client-secret");
     EBAY_ENVIRONMENT := environment;
     classification_model := Some (py "gemini-2.0-flash");
     generation_model := Some (py "gemini-2.0-flash") |}.

(** A world in which Gemini answers [gen] and the token endpoint [post];
    every other service is unreachable. *)
Definition sample_world (gen : result response) (post : http_reply) : World :=
  {| generate_content := fun _ _ _ => gen;
     time_time := fun _ => 1000;
     requests_post := fun _ _ _ _ => post;
     requests_get := fun _ _ _ _ => HttpFails RequestException;
     messages_list := fun _ _ => Raise HttpError;
     messages_get := fun _ _ => Raise HttpError;
     messages_send := fun _ _ _ => Ok (JObj {[ py "id" := JStr (py "sent-1") ]});
     messages_modify := fun _ _ => Ok tt;
     bot_send_message := fun _ _ _ => Raise TelegramError;
     get_event_loop := fun _ => Raise RuntimeError;
     asyncio_run := fun _ => Ok tt |}.

Definition sample_env (gen : result response) (post : http_reply) : Env :=
  {| cfg := sample_cfg (py "sandbox"); lib := sample_lib;
     world := sample_world gen post |}.

Definition text_response (t : str) : response :=
  {| response_parts := Ok [t]; text := Ok t; prompt_feedback := None |}.

(** A candidate without parts, and a block reason. *)
Definition blocked_response : response :=
  {| response_parts := Ok []; text := Raise ValueError; prompt_feedback := Some 1 |}.

(** The answer to a blocked prompt: a block reason and no candidate, so
    that both accessors raise. *)
Definition withheld_response : response :=
  {| response_parts := Raise ValueError; text := Raise ValueError;
     prompt_feedback := Some 1 |}.

(** A response with a part whose [text] accessor raises. *)
Definition unreadable_response : response :=
  {| response_parts := Ok [py "?"]; text := Raise ValueError; prompt_feedback := None |}.

Definition sample_item : item :=
  {| title := JStr (py "ThinkPad T470"); itemId := JStr (py "v1|1|0");
     itemWebUrl := JStr (py "https://www.ebay.com/itm/1");
     price := JStr (py "199.00"); currency := JStr (py "USD");
     condition := JStr (py "Used") |}.

Definition gemini : str := py "gemini-2.0-flash".

(** The token cache holds a usable token only if the configured
    environment is one of the two the module knows: the cache starts empty
    and [get_oauth_token] fills it only after it found the token URL. *)
Definition token_cache_inv (E : Env) (s : state) : Prop :=
  truthy (oauth_token s) = true ->
  is_Some (EBAY_BROWSE_API_BASE_URL (EBAY_ENVIRONMENT (cfg E))).

(** What one call of [get_oauth_token] can do to the state. *)
Definition token_step (E : Env) (s : state) (r : result json) (s' : state) : Prop :=
  heap s' = heap s
  /\ (exists new,
        trace s' = trace s ++ new
        /\ (new = [] \/ exists url id secret reply, new = [EvTokenPost url id secret reply]))
  /\ (token_cache_inv E s -> token_cache_inv E s')
  /\ (forall token, r = Ok token -> token = JNull \/ truthy token = true)
  /\ (forall token,
        r = Ok token -> truthy token = true -> token_cache_inv E s ->
        is_Some (EBAY_BROWSE_API_BASE_URL (EBAY_ENVIRONMENT (cfg E))))
  /\ (truthy (oauth_token s) = true ->
      time_time (world E) (trace s) < token_expiry_time s ->
      s' = s /\ r = Ok (oauth_token s)).

(** A token answer as eBay sends it, and one whose [expires_in] is a
    string. *)
Definition token_reply : http_reply :=
  HttpReply 200
    (Some (JObj (<[ py "access_token" := JStr (py "v^1.1#token") ]>
                   {[ py "expires_in" := JNum 7200 ]}))).

Definition token_reply_text_expiry : http_reply :=
  HttpReply 200
    (Some (JObj (<[ py "access_token" := JStr (py "v^1.1#token") ]>
                   {[ py "expires_in" := JStr (py "7200") ]}))).

(** The state just after import, with one object on the heap. *)
Definition state_with (v : json) : state :=
  {| trace := []; oauth_token := JNull; token_expiry_time := 0;
     heap := {[ 0%nat := v ]} |}.

Definition sandbox_token_url : str :=
  py "https://api.sandbox.ebay.com/identity/v1/oauth2/token".

Definition sample_details : email_data :=
  {| message_id := JStr (py "m1");
     thread_id := Some (py "t1");
     sender := Some (py "Ann <ann@example.com>");
     subject := Some (py "ThinkPad");
     body := py "Do you have a ThinkPad T470?";
     message_id_header := Some (py "<abc@mail.example.com>") |}.

(** Services that answer as in the reply scenario of the spec: one unread
    message, classified PROCESS, one item found and judged sufficient, a
    reply generated and sent. *)
Definition scripted_services : handler unit :=
  fun T op s =>
    (match op in svc T return result T with
     | Svc_list_unread_emails => Ok (JArr [JObj {[ py "id" := JStr (py "m1") ]}])
     | Svc_get_email_details _ => Ok (Some sample_details)
     | Svc_mark_as_read _ => Ok true
     | Svc_classify_email _ _ => Ok (Some (py "PROCESS"))
     | Svc_generate_ebay_search_params _ =>
         Ok (JObj {[ py "q" := JStr (py "thinkpad t470") ]})
     | Svc_search_ebay_items _ => Ok [sample_item]
     | Svc_evaluate_knowledge_relevance _ _ => Ok true
     | Svc_generate_response _ _ _ => Ok (Some (py "We have one in stock."))
     | Svc_send_reply _ _ => Ok true
     | Svc_run_async_forward _ => Ok false
     end, s).

(** The same record without a sender, and without a thread id. *)
Definition details_without_sender : email_data :=
  {| message_id := JStr (py "m1"); thread_id := Some (py "t1"); sender := None;
     subject := Some (py "ThinkPad"); body := py "Do you have a ThinkPad T470?";
     message_id_header := Some (py "<abc@mail.example.com>") |}.

Definition details_without_thread : email_data :=
  {| message_id := JStr (py "m1"); thread_id := None;
     sender := Some (py "Ann <ann@example.com>");
     subject := Some (py "ThinkPad"); body := py "Do you have a ThinkPad T470?";
     message_id_header := Some (py "<abc@mail.example.com>") |}.

(** An environment for the empty-body scenario: one unread message whose
    extracted body is empty. *)
Definition details_empty_body : email_data :=
  {| message_id := JStr (py "m1"); thread_id := Some (py "t1");
     sender := Some (py "Ann <ann@example.com>"); subject := Some (py "ThinkPad");
     body := []; message_id_header := Some (py "<abc@mail.example.com>") |}.

Definition empty_body_env : Env :=
  {| cfg := sample_cfg (py "sandbox");
     lib := {| upper_char := ascii_upper;
               json_loads := sample_json_loads;
               encode_reply := fun to subject header reply_body =>
                                 Ok (to ++ subject ++ header ++ reply_body);
               extract_email_data := fun _ _ => Ok details_empty_body;
               telegram_Bot := fun _ => Ok tt |};
     world := {| generate_content := fun _ _ _ => Raise RequestException;
                 time_time := fun _ => 1000;
                 requests_post := fun _ _ _ _ => HttpFails RequestException;
                 requests_get := fun _ _ _ _ => HttpFails RequestException;
                 messages_list := fun _ _ =>
                   Ok (JObj {[ py "messages" :=
                                 JArr [JObj {[ py "id" := JStr (py "m1") ]}] ]});
                 messages_get := fun _ _ => Ok (JObj ∅);
                 messages_send := fun _ _ _ => Raise HttpError;
                 messages_modify := fun _ _ => Ok tt;
                 bot_send_message := fun _ _ _ => Raise TelegramError;
                 get_event_loop := fun _ => Raise RuntimeError;
                 asyncio_run := fun _ => Ok tt |} |}.

(** An environment for the reply scenario: every service answers, and the
    model wraps its parameters in a code fence. *)
Definition reply_gemini (p : prompt) : result response :=
  match p with
  | ClassifyPrompt _ _ => Ok (text_response (py " process "))
  | SearchParamsPrompt _ =>
      Ok (text_response (py "```json" ++ [10%N] ++ query_text ++ [10%N] ++ py "```"))
  | EvaluatePrompt _ _ => Ok (text_response (affirmative ++ py ", the item matches."))
  | ResponsePrompt _ _ _ => Ok (text_response (py "We have one in stock."))
  end.

Definition search_reply : http_reply :=
  HttpReply 200
    (Some (JObj {[ py "itemSummaries" :=
                     JArr [JObj (<[ py "title" := JStr (py "ThinkPad T470") ]>
                                   {[ py "price" :=
                                        JObj (<[ py "value" := JStr (py "199.00") ]>
                                                {[ py "currency" := JStr (py "USD") ]}) ]})] ]})).

Definition reply_env : Env :=
  {| cfg := sample_cfg (py "sandbox");
     lib := {| upper_char := ascii_upper;
               json_loads := sample_json_loads;
               encode_reply := fun to subject header reply_body =>
                                 Ok (to ++ subject ++ header ++ reply_body);
               extract_email_data := fun _ _ => Ok sample_details;
               telegram_Bot := fun _ => Ok tt |};
     world := {| generate_content := fun _ _ p => reply_gemini p;
                 time_time := fun _ => 1000;
                 requests_post := fun _ _ _ _ => token_reply;
                 requests_get := fun _ _ _ _ => search_reply;
                 messages_list := fun _ _ =>
                   Ok (JObj {[ py "messages" :=
                                 JArr [JObj {[ py "id" := JStr (py "m1") ]}] ]});
                 messages_get := fun _ _ => Ok (JObj ∅);
                 messages_send := fun _ _ _ =>
                   Ok (JObj {[ py "id" := JStr (py "sent-1") ]});
                 messages_modify := fun _ _ => Ok tt;
                 bot_send_message := fun _ _ _ => Raise TelegramError;
                 get_event_loop := fun _ => Raise RuntimeError;
                 asyncio_run := fun _ => Ok tt |} |}.

(** The service an event went to. *)
Definition event_label (ev : event) : str :=
  match ev with
  | EvGenerate _ _ _ => py "generate_content"
  | EvSleep _ => py "sleep"
  | EvTokenPost _ _ _ _ => py "oauth2/token"
  | EvSearchGet _ _ _ _ => py "item_summary/search"
  | EvGmailList _ _ => py "messages.list"
  | EvGmailGet _ _ => py "messages.get"
  | EvGmailSend _ _ _ => py "messages.send"
  | EvGmailModify _ _ => py "messages.modify"
  | EvTelegramSend _ _ _ => py "send_message"
  end.

(** ** More sample environments *)

(** The number of [generate_content] calls in a history. *)
Definition attempts (tr : list event) : nat := length (filter is_attempt tr).

(** A world whose model fails twice and then answers. *)
Definition flaky_env (answer : response) : Env :=
  {| cfg := sample_cfg (py "sandbox"); lib := sample_lib;
     world := {| generate_content := fun h _ _ =>
                   if (attempts h <? 2)%nat then Raise RequestException else Ok answer;
                 time_time := fun _ => 1000;
                 requests_post := fun _ _ _ _ => HttpFails RequestException;
                 requests_get := fun _ _ _ _ => HttpFails RequestException;
                 messages_list := fun _ _ => Raise HttpError;
                 messages_get := fun _ _ => Raise HttpError;
                 messages_send := fun _ _ _ => Raise HttpError;
                 messages_modify := fun _ _ => Raise HttpError;
                 bot_send_message := fun _ _ _ => Raise TelegramError;
                 get_event_loop := fun _ => Raise RuntimeError;
                 asyncio_run := fun _ => Ok tt |} |}.

(** No usable token in the cache: none, or one that has expired. *)
Definition cache_stale (E : Env) (s : state) : Prop :=
  truthy (oauth_token s) && (time_time (world E) (trace s) <? token_expiry_time s) = false.

(** The credentials and the environment are configured. *)
Definition ebay_configured (E : Env) (token_url : str) : Prop :=
  opt_truthy (EBAY_OAUTH_CLIENT_ID (cfg E)) = true
  /\ opt_truthy (EBAY_OAUTH_CLIENT_SECRET (cfg E)) = true
  /\ EBAY_OAUTH_TOKEN_URL (EBAY_ENVIRONMENT (cfg E)) = Some token_url.

(** The token request [get_oauth_token] makes in state [s], with its
    answer. *)
Definition token_post (E : Env) (token_url : str) (s : state) : event :=
  EvTokenPost token_url
    (default [] (EBAY_OAUTH_CLIENT_ID (cfg E)))
    (default [] (EBAY_OAUTH_CLIENT_SECRET (cfg E)))
    (requests_post (world E) (trace s) token_url
       (default [] (EBAY_OAUTH_CLIENT_ID (cfg E)))
       (default [] (EBAY_OAUTH_CLIENT_SECRET (cfg E)))).

Definition token_answer (E : Env) (token_url : str) (s : state) : http_reply :=
  requests_post (world E) (trace s) token_url
    (default [] (EBAY_OAUTH_CLIENT_ID (cfg E)))
    (default [] (EBAY_OAUTH_CLIENT_SECRET (cfg E))).

(** An answer that is a transport error, an error status or not JSON. *)
Definition request_failed (r : http_reply) : Prop :=
  match r with
  | HttpFails e => is_RequestException e = true
  | HttpReply status payload => 400 <= status < 600 \/ payload = None
  end.

(** A world whose clock is [now], which answers the token request with
    [post] and the search request with [get]. *)
Definition ebay_env (now : Z) (post get : http_reply) : Env :=
  {| cfg := sample_cfg (py "sandbox"); lib := sample_lib;
     world := {| generate_content := fun _ _ _ => Raise RequestException;
                 time_time := fun _ => now;
                 requests_post := fun _ _ _ _ => post;
                 requests_get := fun _ _ _ _ => get;
                 messages_list := fun _ _ => Raise HttpError;
                 messages_get := fun _ _ => Raise HttpError;
                 messages_send := fun _ _ _ => Raise HttpError;
                 messages_modify := fun _ _ => Raise HttpError;
                 bot_send_message := fun _ _ _ => Raise TelegramError;
                 get_event_loop := fun _ => Raise RuntimeError;
                 asyncio_run := fun _ => Ok tt |} |}.

Definition sample_token : json := JStr (py "v^1.1#token").

Definition sample_token_data : gmap str json :=
  <[ py "access_token" := sample_token ]> {[ py "expires_in" := JNum 7200 ]}.

Definition query_dict : gmap str json := {[ py "q" := JStr (py "thinkpad t470") ]}.

(** A sender of the form [name <address>]. *)
Definition angle_sender (name address : str) : str :=
  name ++ [lt_sign] ++ address ++ [gt_sign].

(** A text without angle brackets. *)
Definition no_angle (s : str) : Prop := ~ In lt_sign s /\ ~ In gt_sign s.

(** A world whose mailbox and chat answer as given. *)
Definition mail_env (listing : result json) (sent : result json)
    (delivered : result unit) (loop : result unit) : Env :=
  {| cfg := sample_cfg (py "sandbox"); lib := sample_lib;
     world := {| generate_content := fun _ _ _ => Raise RequestException;
                 time_time := fun _ => 1000;
                 requests_post := fun _ _ _ _ => HttpFails RequestException;
                 requests_get := fun _ _ _ _ => HttpFails RequestException;
                 messages_list := fun _ _ => listing;
                 messages_get := fun _ _ => Raise HttpError;
                 messages_send := fun _ _ _ => sent;
                 messages_modify := fun _ _ => Ok tt;
                 bot_send_message := fun _ _ _ => delivered;
                 get_event_loop := fun _ => loop;
                 asyncio_run := fun _ => Ok tt |} |}.

(** ** The calls of a cycle, by name *)

Inductive service_name : Type :=
| Name_list_unread_emails
| Name_get_email_details
| Name_mark_as_read
| Name_classify_email
| Name_generate_ebay_search_params
| Name_search_ebay_items
| Name_evaluate_knowledge_relevance
| Name_generate_response
| Name_send_reply
| Name_run_async_forward.

Definition call_name (c : call_record) : service_name :=
  match c with
  | Called_list_unread_emails _ => Name_list_unread_emails
  | Called_get_email_details _ _ => Name_get_email_details
  | Called_mark_as_read _ _ => Name_mark_as_read
  | Called_classify_email _ _ _ => Name_classify_email
  | Called_generate_ebay_search_params _ _ => Name_generate_ebay_search_params
  | Called_search_ebay_items _ _ => Name_search_ebay_items
  | Called_evaluate_knowledge_relevance _ _ _ => Name_evaluate_knowledge_relevance
  | Called_generate_response _ _ _ _ => Name_generate_response
  | Called_send_reply _ _ _ => Name_send_reply
  | Called_run_async_forward _ _ => Name_run_async_forward
  end.

(** ** main: the Pub/Sub callback *)

(** What the callback does to the notification: [message.ack()], with its
    outcome, or [message.nack()]. *)
Inductive pubsub_action : Type :=
| Ack (r : result unit)
| Nack.

(** [process_message_callback] of [main_pubsub_listener].  [data] is the
    outcome of [message.data.decode("utf-8")] and [ack] the outcome of
    [message.ack()]; both are inside the [try], whose handler nacks. *)
Definition process_message_callback {S : Type} (h : handler S) (L : PyLib)
    (data : result str) (ack : result unit) (s : S)
  : list pubsub_action * S * list call_record :=
  match data with
  | Raise _ => ([Nack], s, [])
  | Ok data_str =>
      let '(r, s', log) := run h (process_pubsub_message L data_str) s [] in
      match r with
      | Ok _ =>
          match ack with
          | Ok _ => ([Ack ack], s', log)
          | Raise _ => ([Ack ack; Nack], s', log)
          end
      | Raise _ => ([Nack], s', log)
      end
  end.

(** Services that list one message, fetch [details] for it and classify it
    as [label]; every later step succeeds. *)
Definition scripted (details : email_data) (label : option str) : handler unit :=
  fun T op s =>
    (match op in svc T return result T with
     | Svc_list_unread_emails => Ok (JArr [JObj {[ py "id" := JStr (py "m1") ]}])
     | Svc_get_email_details _ => Ok (Some details)
     | Svc_mark_as_read _ => Ok true
     | Svc_classify_email _ _ => Ok label
     | Svc_generate_ebay_search_params _ =>
         Ok (JObj {[ py "q" := JStr (py "thinkpad t470") ]})
     | Svc_search_ebay_items _ => Ok [sample_item]
     | Svc_evaluate_knowledge_relevance _ _ => Ok true
     | Svc_generate_response _ _ _ => Ok (Some (py "We have one in stock."))
     | Svc_send_reply _ _ => Ok true
     | Svc_run_async_forward _ => Ok true
     end, s).

(** ** What a cycle asks of the outside *)

Definition svc_name {T} (op : svc T) : service_name :=
  match op with
  | Svc_list_unread_emails => Name_list_unread_emails
  | Svc_get_email_details _ => Name_get_email_details
  | Svc_mark_as_read _ => Name_mark_as_read
  | Svc_classify_email _ _ => Name_classify_email
  | Svc_generate_ebay_search_params _ => Name_generate_ebay_search_params
  | Svc_search_ebay_items _ => Name_search_ebay_items
  | Svc_evaluate_knowledge_relevance _ _ => Name_evaluate_knowledge_relevance
  | Svc_generate_response _ _ _ => Name_generate_response
  | Svc_send_reply _ _ => Name_send_reply
  | Svc_run_async_forward _ => Name_run_async_forward
  end.

(** The sum of the weights of the events of a trace. *)
Definition weigh (m : event -> Z) (tr : list event) : Z :=
  foldr (fun ev total => m ev + total) 0 tr.

(** Weight 1 for the events of one kind: [weigh (requests p)] counts them. *)
Definition requests (p : event -> bool) (ev : event) : Z := if p ev then 1 else 0.

(** The seconds of a [time.sleep]. *)
Definition sleep_seconds (ev : event) : Z :=
  match ev with
  | EvSleep d => d
  | _ => 0
  end.

Definition is_token_post (ev : event) : bool :=
  match ev with EvTokenPost _ _ _ _ => true | _ => false end.

Definition is_search_get (ev : event) : bool :=
  match ev with EvSearchGet _ _ _ _ => true | _ => false end.

Definition is_gmail_list (ev : event) : bool :=
  match ev with EvGmailList _ _ => true | _ => false end.

Definition is_gmail_get (ev : event) : bool :=
  match ev with EvGmailGet _ _ => true | _ => false end.

Definition is_gmail_send (ev : event) : bool :=
  match ev with EvGmailSend _ _ _ => true | _ => false end.

Definition is_gmail_modify (ev : event) : bool :=
  match ev with EvGmailModify _ _ => true | _ => false end.

Definition is_telegram_send (ev : event) : bool :=
  match ev with EvTelegramSend _ _ _ => true | _ => false end.

(** A message that leaves the mailbox owner's hands: a reply to the sender
    or a message to the support chat. *)
Definition is_outgoing (ev : event) : bool := is_gmail_send ev || is_telegram_send ev.

(** The events one call of a service function can add to the trace. *)
Definition footprint (n : service_name) (new : list event) : Prop :=
  match n with
  | Name_list_unread_emails => exists q r, new = [EvGmailList q r]
  | Name_get_email_details => exists id r, new = [EvGmailGet id r]
  | Name_mark_as_read => exists id r, new = [EvGmailModify id r]
  | Name_classify_email
  | Name_generate_ebay_search_params
  | Name_evaluate_knowledge_relevance
  | Name_generate_response =>
      exists k, (k <= 3)%nat /\ map step_of new = backoff_schedule k 5
  | Name_search_ebay_items =>
      exists asked searched,
        new = asked ++ searched
        /\ (asked = [] \/ exists url id secret r, asked = [EvTokenPost url id secret r])
        /\ (searched = [] \/ exists url token params r,
              searched = [EvSearchGet url token params r])
  | Name_send_reply => new = [] \/ exists raw thread r, new = [EvGmailSend raw thread r]
  | Name_run_async_forward =>
      new = [] \/ exists chat t r, new = [EvTelegramSend chat t r]
  end.

(** The most a cycle can add up, when one call of the service [n] adds at
    most [b n]: the dispatcher calls each service at most once, and either
    generates and sends a reply or escalates. *)
Definition cycle_budget (b : service_name -> Z) : Z :=
  b Name_list_unread_emails + b Name_get_email_details + b Name_classify_email
  + b Name_generate_ebay_search_params + b Name_search_ebay_items
  + b Name_evaluate_knowledge_relevance
  + Z.max (b Name_generate_response + b Name_send_reply) (b Name_run_async_forward)
  + b Name_mark_as_read.

(** Whether a service function asks the model. *)
Definition asks_model (n : service_name) : bool :=
  match n with
  | Name_classify_email | Name_generate_ebay_search_params
  | Name_evaluate_knowledge_relevance | Name_generate_response => true
  | _ => false
  end.

(** The reply scenario with a model that answers every third request
    only. *)
Definition slow_env : Env :=
  {| cfg := cfg reply_env; lib := lib reply_env;
     world := {| generate_content := fun h _ p =>
                   if (attempts h `mod` 3 <? 2)%nat then Raise RequestException
                   else reply_gemini p;
                 time_time := time_time (world reply_env);
                 requests_post := requests_post (world reply_env);
                 requests_get := requests_get (world reply_env);
                 messages_list := messages_list (world reply_env);
                 messages_get := messages_get (world reply_env);
                 messages_send := messages_send (world reply_env);
                 messages_modify := messages_modify (world reply_env);
                 bot_send_message := bot_send_message (world reply_env);
                 get_event_loop := get_event_loop (world reply_env);
                 asyncio_run := asyncio_run (world reply_env) |} |}.

(** An environment whose one unread message cannot be read: the walk over
    its parts raises. *)
Definition unreadable_env : Env :=
  {| cfg := cfg empty_body_env;
     lib := {| upper_char := ascii_upper;
               json_loads := sample_json_loads;
               encode_reply := encode_reply (lib empty_body_env);
               extract_email_data := fun _ _ => Raise ValueError;
               telegram_Bot := fun _ => Ok tt |};
     world := world empty_body_env |}.

(** ** gmail_service: reading the fetched message *)

(** The dict [get_email_details] returns, with the values as the message
    has them: a header value is whatever the [value] of the header is. *)
Record raw_email_data : Type := {
  raw_message_id : json;
  raw_thread_id : json;
  raw_sender : json;
  raw_subject : json;
  raw_body : str;
  raw_message_id_header : json
}.

(** The three headers the walk looks for; [None] until one is found. *)
Record headers_found : Type := {
  found_sender : json;
  found_subject : json;
  found_message_id_header : json
}.

Definition no_headers : headers_found :=
  {| found_sender := JNull; found_subject := JNull; found_message_id_header := JNull |}.

Section ReadMessage.

(** [str.lower] *)
Variable lower : str -> str.

(** [base64.urlsafe_b64decode(data).decode('utf-8', errors='replace')] *)
Variable urlsafe_b64decode_text : json -> result str.

(** [v.lower()]: only a string has [lower] *)
Definition py_lower (v : json) : result str :=
  match v with
  | JStr s => Ok (lower s)
  | _ => Raise AttributeError
  end.

(** [for header in headers] *)
Fixpoint read_headers (headers : list json) (found : headers_found)
  : result headers_found :=
  match headers with
  | [] => Ok found
  | header :: rest =>
      name_value <~ py_get header (py "name") (JStr []) ;;
      name <~ py_lower name_value ;;
      if str_eqb name (py "from") then
        value <~ py_get header (py "value") JNull ;;
        read_headers rest
          {| found_sender := value; found_subject := found_subject found;
             found_message_id_header := found_message_id_header found |}
      else if str_eqb name (py "subject") then
        value <~ py_get header (py "value") JNull ;;
        read_headers rest
          {| found_sender := found_sender found; found_subject := value;
             found_message_id_header := found_message_id_header found |}
      else if str_eqb name (py "message-id") then
        value <~ py_get header (py "value") JNull ;;
        read_headers rest
          {| found_sender := found_sender found; found_subject := found_subject found;
             found_message_id_header := value |}
      else read_headers rest found
  end.

(** [part.get('body', {}).get('data')] *)
Definition part_data (part : json) : result json :=
  part_body <~ py_get part (py "body") (JObj ∅) ;;
  py_get part_body (py "data") JNull.

(** The first loop over [parts]: it stops at the first plain-text part that
    has data, and keeps the last HTML part it passed.  The result is
    [(body_plain, body_html)]. *)
Fixpoint scan_parts (parts : list json) (body_html : option str)
  : result (option str * option str) :=
  match parts with
  | [] => Ok (None, body_html)
  | part :: rest =>
      mime_type <~ py_get part (py "mimeType") (JStr []) ;;
      part_body <~ part_data part ;;
      if truthy part_body then
        decoded_body <~ urlsafe_b64decode_text part_body ;;
        if is_str (py "text/plain") mime_type then Ok (Some decoded_body, body_html)
        else if is_str (py "text/html") mime_type then scan_parts rest (Some decoded_body)
        else scan_parts rest body_html
      else scan_parts rest body_html
  end.

(** [for sub_part in part.get('parts')]: it stops at the first plain-text
    sub-part that has data, and keeps an HTML sub-part only if no HTML was
    found before. *)
Fixpoint scan_sub_parts (sub_parts : list json) (body_plain body_html : option str)
  : result (option str * option str) :=
  match sub_parts with
  | [] => Ok (body_plain, body_html)
  | sub_part :: rest =>
      mime_type <~ py_get sub_part (py "mimeType") (JStr []) ;;
      sub_part_body <~ part_data sub_part ;;
      if truthy sub_part_body then
        decoded_body <~ urlsafe_b64decode_text sub_part_body ;;
        if is_str (py "text/plain") mime_type then Ok (Some decoded_body, body_html)
        else if is_str (py "text/html") mime_type && negb (opt_truthy body_html)
        then scan_sub_parts rest body_plain (Some decoded_body)
        else scan_sub_parts rest body_plain body_html
      else scan_sub_parts rest body_plain body_html
  end.

(** The second loop over [parts], which looks into the parts that have
    parts of their own; it stops after the first of them in which plain
    text was found. *)
Fixpoint scan_nested (parts : list json) (body_plain body_html : option str)
  : result (option str * option str) :=
  match parts with
  | [] => Ok (body_plain, body_html)
  | part :: rest =>
      nested <~ py_get part (py "parts") JNull ;;
      if truthy nested then
        sub_parts <~ py_iter nested ;;
        found <~ scan_sub_parts sub_parts body_plain body_html ;;
        if opt_truthy found.1 then Ok found
        else scan_nested rest found.1 found.2
      else scan_nested rest body_plain body_html
  end.

(** [body_plain] and [body_html] when the body has been looked for. *)
Definition find_bodies (payload parts : json) : result (option str * option str) :=
  if truthy parts then
    part_list <~ py_iter parts ;;
    found <~ scan_parts part_list None ;;
    if negb (opt_truthy found.1) then scan_nested part_list found.1 found.2
    else Ok found
  else
    top_body <~ py_get payload (py "body") (JObj ∅) ;;
    top_body_data <~ py_get top_body (py "data") JNull ;;
    if truthy top_body_data then
      mime_type <~ py_get payload (py "mimeType") (JStr []) ;;
      is_plain <~ py_in (py "text/plain") mime_type ;;
      if is_plain : bool then
        decoded_body <~ urlsafe_b64decode_text top_body_data ;;
        Ok (Some decoded_body, None)
      else Ok (None, None)
    else Ok (None, None).

(** [body_plain if body_plain else body_html], and the empty string when
    that is falsy. *)
Definition best_body (body_plain body_html : option str) : str :=
  let body := if opt_truthy body_plain then body_plain else body_html in
  if opt_truthy body then default [] body else [].

(** The [try] block of [get_email_details] after the request: from the
    fetched message to the dict. *)
Definition read_email_data (message_id message : json) : result raw_email_data :=
  payload <~ py_get message (py "payload") (JObj ∅) ;;
  headers <~ py_get payload (py "headers") (JArr []) ;;
  parts <~ py_get payload (py "parts") JNull ;;
  thread_id <~ py_get message (py "threadId") JNull ;;
  header_list <~ py_iter headers ;;
  found <~ read_headers header_list no_headers ;;
  bodies <~ find_bodies payload parts ;;
  Ok {| raw_message_id := message_id;
        raw_thread_id := thread_id;
        raw_sender := found_sender found;
        raw_subject := found_subject found;
        raw_body := best_body bodies.1 bodies.2;
        raw_message_id_header := found_message_id_header found |}.

End ReadMessage.

(** A value of the dict as an optional string; [None] for a value that is
    neither a string nor [None]. *)
Definition as_opt_str (v : json) : option (option str) :=
  match v with
  | JNull => Some None
  | JStr s => Some (Some s)
  | _ => None
  end.

(** The dict as the record the other services take, when its headers and
    its thread id are strings or [None]. *)
Definition typed_email_data (d : raw_email_data) : option email_data :=
  thread_id ← as_opt_str (raw_thread_id d);
  sender ← as_opt_str (raw_sender d);
  subject ← as_opt_str (raw_subject d);
  message_id_header ← as_opt_str (raw_message_id_header d);
  Some {| message_id := raw_message_id d; thread_id := thread_id; sender := sender;
          subject := subject; body := raw_body d;
          message_id_header := message_id_header |}.

(** A library whose [extract_email_data] is the walk above. *)
Definition extracts_by_walk (L : PyLib) (lower : str -> str)
    (urlsafe_b64decode_text : json -> result str) : Prop :=
  forall message_id message,
    match read_email_data lower urlsafe_b64decode_text message_id message with
    | Ok raw =>
        forall d, typed_email_data raw = Some d ->
                  extract_email_data L message_id message = Ok d
    | Raise e => extract_email_data L message_id message = Raise e
    end.

(** ASCII [str.lower], and a decoder that takes a string as it is: enough
    for the examples. *)
Definition ascii_lower (s : str) : str :=
  map (fun c => if ((65 <=? c) && (c <=? 90))%N then (c + 32)%N else c) s.

Definition plain_decode (v : json) : result str :=
  match v with
  | JStr s => Ok s
  | _ => Raise TypeError
  end.

Definition header (name value : string) : json :=
  JObj (<[ py "name" := JStr (py name) ]> {[ py "value" := JStr (py value) ]}).

Definition text_part (mime_type text : string) : json :=
  JObj (<[ py "mimeType" := JStr (py mime_type) ]>
          {[ py "body" := JObj {[ py "data" := JStr (py text) ]} ]}).

Definition sample_headers : list json :=
  [header "from" "old@example.com"; header "Subject" "ThinkPad";
   header "FROM" "Ann <ann@example.com>"; header "Message-ID" "<abc@mail.example.com>"].

(** A message with an HTML part, a plain-text part and something after
    them that is no part at all. *)
Definition mixed_payload : gmap str json :=
  <[ py "headers" := JArr sample_headers ]>
    {[ py "parts" := JArr [text_part "text/html" "<p>Do you have a T470?</p>";
                           text_part "text/plain" "Do you have a T470?";
                           JNum 7] ]}.

Definition mixed_message : gmap str json :=
  <[ py "threadId" := JStr (py "t1") ]> {[ py "payload" := JObj mixed_payload ]}.

(** A message whose text is inside a nested alternative. *)
Definition nested_payload : gmap str json :=
  <[ py "headers" := JArr sample_headers ]>
    {[ py "parts" :=
         JArr [text_part "text/html" "<p>banner</p>";
               JObj (<[ py "mimeType" := JStr (py "multipart/alternative") ]>
                       {[ py "parts" :=
                            JArr [text_part "text/html" "<p>Do you have a T470?</p>";
                                  text_part "text/plain" "Do you have a T470?";
                                  JNum 7] ]});
               text_part "application/pdf" "JVBERi0"] ]}.

Definition nested_message : gmap str json :=
  <[ py "threadId" := JStr (py "t1") ]> {[ py "payload" := JObj nested_payload ]}.

(** A message that is one HTML body, without parts. *)
Definition html_payload : gmap str json :=
  <[ py "headers" := JArr sample_headers ]>
    (<[ py "mimeType" := JStr (py "text/html") ]>
       {[ py "body" := JObj {[ py "data" := JStr (py "<p>Do you have a T470?</p>") ]} ]}).

Definition html_message : gmap str json :=
  <[ py "threadId" := JStr (py "t1") ]> {[ py "payload" := JObj html_payload ]}.

(** The walk as the [extract_email_data] of a library. *)
Definition walk_extract (message_id message : json) : result email_data :=
  raw <~ read_email_data ascii_lower plain_decode message_id message ;;
  match typed_email_data raw with
  | Some d => Ok d
  | None => Raise TypeError
  end.

(** An environment whose one unread message is [html_message]. *)
Definition html_env : Env :=
  {| cfg := cfg reply_env;
     lib := {| upper_char := ascii_upper;
               json_loads := sample_json_loads;
               encode_reply := encode_reply (lib reply_env);
               extract_email_data := walk_extract;
               telegram_Bot := fun _ => Ok tt |};
     world := {| generate_content := generate_content (world reply_env);
                 time_time := time_time (world reply_env);
                 requests_post := requests_post (world reply_env);
                 requests_get := requests_get (world reply_env);
                 messages_list := messages_list (world reply_env);
                 messages_get := fun _ _ => Ok (JObj html_message);
                 messages_send := messages_send (world reply_env);
                 messages_modify := messages_modify (world reply_env);
                 bot_send_message := bot_send_message (world reply_env);
                 get_event_loop := get_event_loop (world reply_env);
                 asyncio_run := asyncio_run (world reply_env) |} |}.

(** The scripted services of [scripted], with the parameters and the items
    of the search given: the synthesizer may answer with any JSON value. *)
Definition scripted_search (search_params : json) (items : list item) : handler unit :=
  fun T op s =>
    (match op in svc T return result T with
     | Svc_list_unread_emails => Ok (JArr [JObj {[ py "id" := JStr (py "m1") ]}])
     | Svc_get_email_details _ => Ok (Some sample_details)
     | Svc_mark_as_read _ => Ok true
     | Svc_classify_email _ _ => Ok (Some (py "PROCESS"))
     | Svc_generate_ebay_search_params _ => Ok search_params
     | Svc_search_ebay_items _ => Ok items
     | Svc_evaluate_knowledge_relevance _ _ => Ok true
     | Svc_generate_response _ _ _ => Ok (Some (py "We have one in stock."))
     | Svc_send_reply _ _ => Ok true
     | Svc_run_async_forward _ => Ok true
     end, s).

(** ** Facts about [gemini_service] *)

Section GeminiFacts.

Variable E : Env.

Lemma gemini_loop_fuel (fuel : nat) (model : str) (p : prompt)
    (max_retries retries delay : Z) (s : state) :
  (Z.to_nat (max_retries - retries) <= fuel)%nat ->
  gemini_loop E fuel model p max_retries retries delay s =
  gemini_loop E (Z.to_nat (max_retries - retries)) model p max_retries retries delay s.
Proof.
  revert retries delay s.
  induction fuel as [|fuel IH]; intros retries delay s Hfuel.
  - replace (Z.to_nat (max_retries - retries)) with 0%nat by lia. reflexivity.
  - destruct (Z.to_nat (max_retries - retries)) as [|n] eqn:Hn.
    + simpl. destruct (Z.ltb_spec retries max_retries); [lia | reflexivity].
    + simpl. destruct (Z.ltb_spec retries max_retries); [| reflexivity].
      unfold bind, try_.
      destruct (gemini_attempt E model p s) as [[answer | e] s1]; [reflexivity |].
      destruct (Z.leb_spec max_retries (retries + 1)); [reflexivity |].
      destruct (time_sleep delay s1) as [[[] | e'] s2]; [| reflexivity].
      rewrite IH by lia.
      replace n with (Z.to_nat (max_retries - (retries + 1))) by lia.
      reflexivity.
Qed.

(** One failed attempt of the loop: what is appended to the trace. *)
Lemma model_generate_content_run (model : str) (p : prompt) (s : state) :
  model_generate_content E model p s =
  (generate_content (world E) (trace s) model p,
   {| trace := trace s ++ [EvGenerate model p (generate_content (world E) (trace s) model p)];
      oauth_token := oauth_token s;
      token_expiry_time := token_expiry_time s;
      heap := heap s |}).
Proof.
  unfold model_generate_content, bind, history, emit, lift. simpl.
  destruct (generate_content (world E) (trace s) model p); reflexivity.
Qed.

(** One attempt: the call is recorded, and nothing else changes. *)
Lemma gemini_attempt_run (model : str) (p : prompt) (s : state) :
  let g := generate_content (world E) (trace s) model p in
  gemini_attempt E model p s =
  (attempt_outcome g,
   {| trace := trace s ++ [EvGenerate model p g];
      oauth_token := oauth_token s;
      token_expiry_time := token_expiry_time s;
      heap := heap s |}).
Proof.
  intros g. unfold gemini_attempt, bind. rewrite model_generate_content_run. fold g.
  unfold attempt_outcome, lift, ret.
  destruct g as [resp | e]; cbn [rbind]; [| reflexivity].
  destruct (response_parts resp) as [ps | e]; cbn [rbind]; [| reflexivity].
  destruct (negb (length ps =? 0)%nat); [reflexivity |].
  destruct (prompt_feedback resp) as [reason |]; [| reflexivity].
  destruct (negb (reason =? 0)); reflexivity.
Qed.

Lemma retry_loop_schedule (n : nat) (model : str) (p : prompt)
    (max_retries retries delay : Z) (s : state) :
  (forall h, exists e, generate_content (world E) h model p = Raise e) ->
  max_retries - retries = Z.of_nat n ->
  exists new,
    gemini_loop E n model p max_retries retries delay s =
      (Ok None,
       {| trace := trace s ++ new; oauth_token := oauth_token s;
          token_expiry_time := token_expiry_time s; heap := heap s |})
    /\ map step_of new = backoff_schedule n delay.
Proof.
  intros Hfail. revert retries delay s.
  induction n as [|n IH]; intros retries delay s Hn.
  - exists []. simpl. rewrite app_nil_r. destruct s; auto.
  - simpl. destruct (Z.ltb_spec retries max_retries); [| lia].
    unfold bind, try_. rewrite gemini_attempt_run.
    destruct (Hfail (trace s)) as [e He]. rewrite He. cbn [attempt_outcome rbind].
    destruct (Z.leb_spec max_retries (retries + 1)) as [Hle | Hgt].
    + assert (n = 0%nat) by lia. subst n.
      exists [EvGenerate model p (Raise e)]. split; reflexivity.
    + destruct n as [|n]; [lia |].
      unfold time_sleep, emit. cbn [trace oauth_token token_expiry_time heap].
      match goal with
      | |- context [gemini_loop E (S n) model p max_retries (retries + 1) (delay * 2) ?s1] =>
          destruct (IH (retries + 1) (delay * 2) s1 ltac:(lia)) as (new & Hrun & Hsched)
      end.
      exists (EvGenerate model p (Raise e) :: EvSleep delay :: new).
      rewrite Hrun. cbn [trace oauth_token token_expiry_time heap].
      split.
      * do 2 f_equal. rewrite <- !app_assoc. reflexivity.
      * cbn [map step_of]. rewrite Hsched. reflexivity.
Qed.

End GeminiFacts.

Lemma schedule_attempts (n : nat) :
  forall (new : list event) (delay : Z),
    map step_of new = backoff_schedule n delay ->
    length (filter is_attempt new) = n.
Proof.
  induction n as [|n IH]; intros new delay H.
  - destruct new; [reflexivity | discriminate].
  - destruct new as [|ev new]; [discriminate |].
    simpl in H. injection H as Hev Hrest.
    destruct ev; try discriminate.
    rewrite filter_cons_True by exact I. simpl. f_equal.
    destruct n as [|n].
    + destruct new; [reflexivity | discriminate].
    + destruct new as [|ev' new]; [discriminate |].
      injection Hrest as Hev' Hrest.
      destruct ev'; try discriminate.
      rewrite filter_cons_False by (simpl; auto).
      exact (IH new _ Hrest).
Qed.

Lemma schedule_sleeps (n : nat) :
  forall (new : list event) (delay : Z),
    map step_of new = backoff_schedule n delay ->
    sleeps new = doubling (n - 1) delay.
Proof.
  induction n as [|n IH]; intros new delay H.
  - destruct new; [reflexivity | discriminate].
  - destruct new as [|ev new]; [discriminate |].
    simpl in H. injection H as Hev Hrest.
    destruct ev; try discriminate.
    unfold sleeps. cbn [omap list_omap]. fold (sleeps new).
    destruct n as [|n].
    + destruct new; [reflexivity | discriminate].
    + destruct new as [|ev' new]; [discriminate |].
      injection Hrest as Hev' Hrest.
      destruct ev'; try discriminate.
      simpl in Hev'. injection Hev' as ->.
      unfold sleeps. cbn [omap list_omap]. fold (sleeps new).
      rewrite (IH new _ Hrest).
      replace (S (S n) - 1)%nat with (S (S n - 1)) by lia. reflexivity.
Qed.

Section GeminiClaims.

Variable E : Env.

(** C5.  When every [generate_content] call raises, [_call_gemini_api]
    terminates with [None] after exactly [max_retries] attempts (none when
    [max_retries <= 0]), so never more than [max_retries]; between two
    consecutive attempts it sleeps once, first for [delay] and then for
    twice the previous delay; nothing else is done.  With the defaults the
    schedule is: attempt, sleep 5, attempt, sleep 10, attempt. *)
Theorem call_gemini_api_retry_schedule (model : str) (p : prompt)
    (max_retries delay : Z) (s : state) :
  (forall h, exists e, generate_content (world E) h model p = Raise e) ->
  exists new,
    _call_gemini_api E (Some model) p max_retries delay s = (Ok None, extend s new)
    /\ map step_of new = backoff_schedule (Z.to_nat max_retries) delay
    /\ Z.of_nat (length (filter is_attempt new)) = Z.max 0 max_retries
    /\ Z.of_nat (length (filter is_attempt new)) <= Z.max 0 max_retries
    /\ sleeps new = doubling (Z.to_nat max_retries - 1) delay
    /\ backoff_schedule (Z.to_nat 3) 5 = [Attempt; Backoff 5; Attempt; Backoff 10; Attempt].
Proof.
  intros Hfail. unfold _call_gemini_api.
  destruct (Z.le_gt_cases 0 max_retries) as [Hpos | Hneg].
  - destruct (retry_loop_schedule E (Z.to_nat max_retries) model p max_retries 0 delay s
                Hfail ltac:(lia)) as (new & Hrun & Hsched).
    exists new. rewrite Hrun.
    pose proof (schedule_attempts _ _ _ Hsched) as Hatt.
    pose proof (schedule_sleeps _ _ _ Hsched) as Hsl.
    repeat split; try assumption; try reflexivity; lia.
  - replace (Z.to_nat max_retries) with 0%nat by lia.
    exists []. unfold extend. rewrite app_nil_r. simpl.
    repeat split; try reflexivity; try lia. destruct s; reflexivity.
Qed.

(** The early return of the loop.  When the first response has a candidate
    without parts and a block reason, [_call_gemini_api] returns [None] at
    once: the trace grows by that one [generate_content] call, with no sleep
    and no second attempt.  This is not the response a blocked prompt gets,
    which has no candidate and is retried, as shown below. *)
Lemma call_gemini_api_blocked_no_retry (model : str) (p : prompt)
    (max_retries delay : Z) (s : state) (r : response) :
  0 < max_retries ->
  generate_content (world E) (trace s) model p = Ok r ->
  blocked r ->
  _call_gemini_api E (Some model) p max_retries delay s =
    (Ok None, extend s [EvGenerate model p (Ok r)])
  /\ length (filter is_attempt [EvGenerate model p (Ok r)]) = 1%nat
  /\ filter is_sleep [EvGenerate model p (Ok r)] = [].
Proof.
  intros Hpos Hgen (Hparts & reason & Hfb & Hreason).
  split; [| split; reflexivity].
  unfold _call_gemini_api.
  destruct (Z.to_nat max_retries) as [|n] eqn:Hn; [lia |].
  simpl. destruct (Z.ltb_spec 0 max_retries); [| lia].
  unfold bind, try_. rewrite gemini_attempt_run, Hgen.
  cbn [attempt_outcome rbind]. rewrite Hparts, Hfb. cbn [rbind length Nat.eqb negb].
  destruct (Z.eqb_spec reason 0); [contradiction |]. reflexivity.
Qed.

(** A response whose parts cannot be read sends the loop into its handler,
    like a call that raised: when every answer is of that kind, or no
    answer comes, the loop runs the whole schedule. *)
Lemma failed_attempts_schedule (n : nat) (model : str) (p : prompt)
    (max_retries retries delay : Z) (s : state) :
  (forall h, exists e,
     attempt_outcome (generate_content (world E) h model p) = Raise e) ->
  max_retries - retries = Z.of_nat n ->
  exists new,
    gemini_loop E n model p max_retries retries delay s = (Ok None, extend s new)
    /\ map step_of new = backoff_schedule n delay.
Proof.
  intros Hfail. revert retries delay s.
  induction n as [|n IH]; intros retries delay s Hn.
  - exists []. unfold extend. rewrite app_nil_r. destruct s; auto.
  - cbn [gemini_loop]. destruct (Z.ltb_spec retries max_retries); [| lia].
    unfold bind, try_. rewrite gemini_attempt_run.
    destruct (Hfail (trace s)) as [e He]. rewrite He.
    destruct (Z.leb_spec max_retries (retries + 1)) as [Hle | Hgt].
    + assert (n = 0%nat) by lia. subst n.
      exists [EvGenerate model p (generate_content (world E) (trace s) model p)].
      split; reflexivity.
    + destruct n as [|n]; [lia |].
      unfold time_sleep, emit. cbn [trace oauth_token token_expiry_time heap].
      match goal with
      | |- context [gemini_loop E (S n) model p max_retries (retries + 1) (delay * 2) ?s1] =>
          destruct (IH (retries + 1) (delay * 2) s1 ltac:(lia)) as (new & Hrun & Hsched)
      end.
      exists (EvGenerate model p (generate_content (world E) (trace s) model p)
              :: EvSleep delay :: new).
      rewrite Hrun. unfold extend. cbn [trace oauth_token token_expiry_time heap].
      split.
      * do 2 f_equal. rewrite <- !app_assoc. reflexivity.
      * cbn [map step_of]. rewrite Hsched. reflexivity.
Qed.

(** A withheld prompt is sent again: when every answer carries a block
    reason and no candidate, [_call_gemini_api] makes [max_retries]
    attempts, with the sleeps of the backoff between them, before it
    returns [None]. *)
Lemma withheld_answers_are_retried (model : str) (p : prompt)
    (max_retries delay : Z) (s : state) :
  0 <= max_retries ->
  (forall h, exists r, generate_content (world E) h model p = Ok r /\ withheld r) ->
  exists new,
    _call_gemini_api E (Some model) p max_retries delay s = (Ok None, extend s new)
    /\ map step_of new = backoff_schedule (Z.to_nat max_retries) delay.
Proof.
  intros Hpos Hwithheld. unfold _call_gemini_api.
  apply failed_attempts_schedule; [| lia].
  intros h. destruct (Hwithheld h) as (r & Hr & (e & He) & _).
  exists e. rewrite Hr. cbn [attempt_outcome rbind]. rewrite He. reflexivity.
Qed.

End GeminiClaims.

Lemma call_gemini_api_retry_schedule_witness :
  exists new,
    _call_gemini_api (sample_env (Raise RequestException) (HttpFails RequestException))
      (Some (py "gemini-2.0-flash")) (SearchParamsPrompt (py "thinkpad t470")) 3 5
      initial_state = (Ok None, extend initial_state new)
    /\ map step_of new = backoff_schedule (Z.to_nat 3) 5
    /\ Z.of_nat (length (filter is_attempt new)) = Z.max 0 3
    /\ Z.of_nat (length (filter is_attempt new)) <= Z.max 0 3
    /\ sleeps new = doubling (Z.to_nat 3 - 1) 5
    /\ backoff_schedule (Z.to_nat 3) 5 = [Attempt; Backoff 5; Attempt; Backoff 10; Attempt].
Proof.
  apply (call_gemini_api_retry_schedule
           (sample_env (Raise RequestException) (HttpFails RequestException))).
  intros h. exists RequestException. reflexivity.
Defined.

(** C4, where the code departs from it.  The answer to a blocked prompt
    carries a block reason and no candidate.  The loop reads
    [response.parts] inside its [try]; on such a response the accessor
    raises, the handler takes that for a failed call, and the early return
    for a blocked response is never reached: the prompt is sent three
    times, with sleeps of 5 and 10 between the calls. *)
Theorem call_gemini_api_blocked_retries :
  let E := sample_env (Ok withheld_response) (HttpFails RequestException) in
  let p := SearchParamsPrompt (py "thinkpad t470") in
  let call := EvGenerate gemini p (Ok withheld_response) in
  withheld withheld_response
  /\ _call_gemini_api E (Some gemini) p 3 5 initial_state =
       (Ok None, extend initial_state [call; EvSleep 5; call; EvSleep 10; call])
  /\ length (filter is_attempt [call; EvSleep 5; call; EvSleep 10; call]) = 3%nat
  /\ sleeps [call; EvSleep 5; call; EvSleep 10; call] = [5; 10].
Proof.
  intros E p call. split.
  - split; [exists ValueError; reflexivity |].
    exists 1. split; [reflexivity | lia].
  - split; [reflexivity |]. split; reflexivity.
Qed.

Lemma call_gemini_api_blocked_no_retry_witness :
  _call_gemini_api (sample_env (Ok blocked_response) (HttpFails RequestException))
    (Some (py "gemini-2.0-flash")) (SearchParamsPrompt (py "thinkpad t470")) 3 5
    initial_state =
    (Ok None,
     extend initial_state
       [EvGenerate (py "gemini-2.0-flash") (SearchParamsPrompt (py "thinkpad t470"))
          (Ok blocked_response)])
  /\ length (filter is_attempt
       [EvGenerate (py "gemini-2.0-flash") (SearchParamsPrompt (py "thinkpad t470"))
          (Ok blocked_response)]) = 1%nat
  /\ filter is_sleep
       [EvGenerate (py "gemini-2.0-flash") (SearchParamsPrompt (py "thinkpad t470"))
          (Ok blocked_response)] = [].
Proof.
  apply (call_gemini_api_blocked_no_retry
           (sample_env (Ok blocked_response) (HttpFails RequestException))).
  - lia.
  - reflexivity.
  - split; [reflexivity |]. exists 1. split; [reflexivity | lia].
Defined.

(** ** Facts about the parsers of the model's answers *)

Lemma any_key_in_dict (keys : list str) (d : gmap str json) :
  any_key_in keys (JObj d) =
  Ok (existsb (fun k => bool_decide (is_Some (d !! k))) keys).
Proof.
  induction keys as [|k keys IH]; [reflexivity |].
  simpl. destruct (bool_decide (is_Some (d !! k))); [reflexivity | exact IH].
Qed.

Lemma truthy_dict_with_key (d : gmap str json) (k : str) :
  is_Some (d !! k) -> truthy (JObj d) = true.
Proof.
  intros [v Hv]. simpl.
  destruct (size d) eqn:Hsize; [| reflexivity].
  apply map_size_empty_inv in Hsize. subst d.
  rewrite lookup_empty in Hv. discriminate.
Qed.

Lemma has_parts_some (r : response) :
  parts r <> [] -> has_parts (Some r) = Ok (Some r).
Proof.
  unfold has_parts, parts.
  destruct (response_parts r) as [[| x xs] | e]; [contradiction | reflexivity | contradiction].
Qed.

(** A response whose parts can be read and are none counts as no
    response. *)
Lemma has_parts_none (r : response) :
  response_parts r = Ok [] -> has_parts (Some r) = Ok None.
Proof. intros H. unfold has_parts. rewrite H. reflexivity. Qed.

Section ParserClaims.

Variable E : Env.

(** C6.  On a response that has parts and a readable text, [classify_email]
    returns the trimmed, upper-cased text when it is exactly SPAM or
    PROCESS, and PROCESS for every other text. *)
Theorem classify_email_label (email_subject : option str) (email_body : str)
    (s s' : state) (r : response) (t : str) :
  call_gemini_default E (classification_model (cfg E))
    (ClassifyPrompt email_subject (take 2000 email_body)) s = (Ok (Some r), s') ->
  parts r <> [] ->
  text r = Ok t ->
  let label := upper (lib E) (strip t) in
  (label = py "SPAM" \/ label = py "PROCESS" ->
     classify_email E email_subject email_body s = (Ok (Some label), s'))
  /\ (label <> py "SPAM" -> label <> py "PROCESS" ->
     classify_email E email_subject email_body s = (Ok (Some (py "PROCESS")), s')).
Proof.
  intros Hcall Hparts Htext label.
  unfold classify_email, bind. rewrite Hcall.
  unfold lift. rewrite (has_parts_some r Hparts).
  rewrite Htext. fold label. unfold str_eqb, ret.
  split.
  - intros [H | H].
    + rewrite (bool_decide_eq_true_2 _ H). reflexivity.
    + rewrite (bool_decide_eq_true_2 _ H). rewrite orb_true_r. reflexivity.
  - intros H1 H2.
    rewrite (bool_decide_eq_false_2 _ H1), (bool_decide_eq_false_2 _ H2). reflexivity.
Qed.

(** C2, as the code has it.  When the parsed answer is a dict without [q]
    that holds one of the twelve parameter names of [other_params],
    [generate_ebay_search_params] returns [None]. *)
Theorem generate_ebay_search_params_requires_q (email_body : str)
    (s s' : state) (r : response) (t : str) (d : gmap str json) (key : str) :
  call_gemini_default E (generation_model (cfg E))
    (SearchParamsPrompt (take 2000 email_body)) s = (Ok (Some r), s') ->
  parts r <> [] ->
  text r = Ok t ->
  json_loads (lib E) (remove_fences (strip t)) = Ok (JObj d) ->
  d !! py "q" = None ->
  In key other_params ->
  is_Some (d !! key) ->
  (generate_ebay_search_params E email_body s).1 = Ok JNull.
Proof.
  intros Hcall Hparts Htext Hloads Hq Hkey Hsome.
  unfold generate_ebay_search_params.
  destruct email_body as [|c body']; [reflexivity |].
  unfold bind. rewrite Hcall. unfold lift. rewrite (has_parts_some r Hparts).
  rewrite Htext. cbn [rbind]. rewrite Hloads. cbn [rbind].
  unfold validate_params. rewrite (truthy_dict_with_key d key Hsome).
  cbn [py_in rbind]. rewrite Hq.
  rewrite bool_decide_eq_false_2 by (intros [? ?]; discriminate).
  cbn [negb]. rewrite any_key_in_dict. cbn [rbind].
  assert (existsb (fun k => bool_decide (is_Some (d !! k))) other_params = true) as ->.
  { apply existsb_exists. exists key. split; [exact Hkey |].
    apply bool_decide_eq_true_2. exact Hsome. }
  reflexivity.
Qed.

(** A dict without [q] whose keys are all outside [other_params] passes the
    validation and is returned as parsed. *)
Lemma generate_ebay_search_params_keeps_unlisted (email_body : str)
    (s s' : state) (r : response) (t : str) (d : gmap str json) :
  email_body <> [] ->
  call_gemini_default E (generation_model (cfg E))
    (SearchParamsPrompt (take 2000 email_body)) s = (Ok (Some r), s') ->
  parts r <> [] ->
  text r = Ok t ->
  json_loads (lib E) (remove_fences (strip t)) = Ok (JObj d) ->
  d !! py "q" = None ->
  (forall key, In key other_params -> d !! key = None) ->
  generate_ebay_search_params E email_body s = (Ok (JObj d), s').
Proof.
  intros Hbody Hcall Hparts Htext Hloads Hq Hnone.
  unfold generate_ebay_search_params.
  destruct email_body as [|c body']; [contradiction |].
  unfold bind. rewrite Hcall. unfold lift. rewrite (has_parts_some r Hparts).
  rewrite Htext. cbn [rbind]. rewrite Hloads. cbn [rbind].
  unfold validate_params. destruct (truthy (JObj d)); [| reflexivity].
  cbn [py_in rbind]. rewrite Hq.
  rewrite bool_decide_eq_false_2 by (intros [? ?]; discriminate).
  cbn [negb]. rewrite any_key_in_dict. cbn [rbind].
  assert (existsb (fun k => bool_decide (is_Some (d !! k))) other_params = false) as ->.
  { apply not_true_is_false. intros Hex. apply existsb_exists in Hex.
    destruct Hex as (key & Hin & Hsome). apply bool_decide_eq_true_1 in Hsome.
    rewrite (Hnone key Hin) in Hsome. destruct Hsome; discriminate. }
  reflexivity.
Qed.

(** The first half of C8: with no items, [evaluate_knowledge_relevance]
    returns [False] and calls nothing. *)
Lemma evaluate_knowledge_relevance_empty (original_body : str) (s : state) :
  evaluate_knowledge_relevance E original_body [] s = (Ok false, s).
Proof. reflexivity. Qed.

(** The second half of C8, where it holds: whenever the function returns,
    it returns [True] exactly when the call produced a response with parts
    whose text, trimmed and upper-cased, starts with the affirmative token. *)
Lemma evaluate_knowledge_relevance_true_iff (original_body : str)
    (it : item) (items : list item) (s s' : state) (r : option response) :
  call_gemini_default E (generation_model (cfg E))
    (EvaluatePrompt (take 1500 original_body) (it :: items)) s = (Ok r, s') ->
  (evaluate_knowledge_relevance E original_body (it :: items) s = (Ok true, s') <->
   exists resp t, r = Some resp /\ parts resp <> [] /\ text resp = Ok t
                  /\ startswith affirmative (upper (lib E) (strip t)) = true).
Proof.
  intros Hcall. unfold evaluate_knowledge_relevance, bind. rewrite Hcall.
  unfold lift. destruct r as [resp |]; cbn [has_parts].
  - unfold parts.
    destruct (response_parts resp) as [[| x xs] | e] eqn:Hp;
      cbn [rbind length Nat.eqb negb].
    + split; [discriminate |]. intros (? & ? & [= <-] & Hne & _).
      rewrite Hp in Hne. contradiction.
    + destruct (text resp) as [t | e] eqn:Ht.
      * destruct (startswith affirmative (upper (lib E) (strip t))) eqn:Hs.
        -- split; [| reflexivity]. intros _. exists resp, t.
           rewrite Hp. repeat split; auto; discriminate.
        -- split; [discriminate |].
           intros (? & ? & [= <-] & _ & Ht' & Hs'). congruence.
      * unfold log_response_text, bind, lift. rewrite Ht.
        split; [discriminate |]. intros (? & ? & [= <-] & _ & Ht' & _). congruence.
    + split; [discriminate |]. intros (? & ? & [= <-] & Hne & _).
      rewrite Hp in Hne. contradiction.
  - split; [discriminate |]. intros (? & ? & ? & _). discriminate.
Qed.

(** Call failure and block are insufficient: [None] from the caller gives
    [False]; so does a readable text that does not start with the token. *)
Lemma evaluate_knowledge_relevance_false (original_body : str)
    (it : item) (items : list item) (s s' : state) (r : option response) :
  call_gemini_default E (generation_model (cfg E))
    (EvaluatePrompt (take 1500 original_body) (it :: items)) s = (Ok r, s') ->
  match r with
  | None => True
  | Some resp =>
      response_parts resp = Ok [] \/
      exists ps t, response_parts resp = Ok ps /\ text resp = Ok t
                   /\ startswith affirmative (upper (lib E) (strip t)) = false
  end ->
  evaluate_knowledge_relevance E original_body (it :: items) s = (Ok false, s').
Proof.
  intros Hcall Hr. unfold evaluate_knowledge_relevance, bind. rewrite Hcall.
  unfold lift. destruct r as [resp |]; [| reflexivity]. cbn [has_parts].
  destruct Hr as [Hp | (ps & t & Hp & Ht & Hs)]; rewrite Hp; cbn [rbind].
  - reflexivity.
  - destruct ps; [reflexivity |]. cbn [length Nat.eqb negb].
    rewrite Ht, Hs. reflexivity.
Qed.

End ParserClaims.

(** C8, where the code departs from it.  The response has a part, but its
    [text] accessor raises; the handler that should return [False] reads
    [response.text] again for its log line, so the exception leaves
    [evaluate_knowledge_relevance]. *)
Theorem evaluate_knowledge_relevance_raises :
  evaluate_knowledge_relevance
    (sample_env (Ok unreadable_response) (HttpFails RequestException))
    (py "Do you have a ThinkPad T470?") [sample_item] initial_state =
  (Raise ValueError,
   extend initial_state
     [EvGenerate gemini
        (EvaluatePrompt (py "Do you have a ThinkPad T470?") [sample_item])
        (Ok unreadable_response)]).
Proof. reflexivity. Qed.

Lemma classify_email_label_witness :
  let E := sample_env (Ok (text_response (py "  Spam "))) (HttpFails RequestException) in
  let s' := extend initial_state
              [EvGenerate gemini (ClassifyPrompt (Some (py "Hi")) (py "Buy now"))
                 (Ok (text_response (py "  Spam ")))] in
  let label := upper (lib E) (strip (py "  Spam ")) in
  (label = py "SPAM" \/ label = py "PROCESS" ->
     classify_email E (Some (py "Hi")) (py "Buy now") initial_state
       = (Ok (Some label), s'))
  /\ (label <> py "SPAM" -> label <> py "PROCESS" ->
     classify_email E (Some (py "Hi")) (py "Buy now") initial_state
       = (Ok (Some (py "PROCESS")), s')).
Proof.
  intros E s' label.
  apply (classify_email_label E (Some (py "Hi")) (py "Buy now") initial_state s'
           (text_response (py "  Spam ")) (py "  Spam ")).
  - reflexivity.
  - discriminate.
  - reflexivity.
Defined.

Lemma generate_ebay_search_params_requires_q_witness :
  (generate_ebay_search_params
     (sample_env (Ok (text_response filter_text))
        (HttpFails RequestException))
     (py "something under 50") initial_state).1 = Ok JNull.
Proof.
  apply (generate_ebay_search_params_requires_q
           (sample_env (Ok (text_response filter_text))
              (HttpFails RequestException))
           (py "something under 50") initial_state
           (extend initial_state
              [EvGenerate gemini (SearchParamsPrompt (py "something under 50"))
                 (Ok (text_response filter_text))])
           (text_response filter_text)
           filter_text
           {[ py "filter" := JStr (py "price:[..50]") ]}
           (py "filter")).
  - reflexivity.
  - discriminate.
  - reflexivity.
  - reflexivity.
  - reflexivity.
  - vm_compute. tauto.
  - exists (JStr (py "price:[..50]")). reflexivity.
Defined.

(** C2 as stated fails: the answer [{"keywords": "thinkpad"}] has a key
    other than [q] and no [q], and it is returned as it is. *)
Lemma generate_ebay_search_params_unlisted_key :
  let d : gmap str json := {[ py "keywords" := JStr (py "thinkpad") ]} in
  let E := sample_env (Ok (text_response keywords_text))
             (HttpFails RequestException) in
  json_loads (lib E) (remove_fences (strip keywords_text))
    = Ok (JObj d)
  /\ d !! py "q" = None
  /\ is_Some (d !! py "keywords")
  /\ py "keywords" <> py "q"
  /\ (generate_ebay_search_params E (py "any thinkpad?") initial_state).1 = Ok (JObj d)
  /\ (generate_ebay_search_params E (py "any thinkpad?") initial_state).1 <> Ok JNull.
Proof.
  intros d E.
  assert ((generate_ebay_search_params E (py "any thinkpad?") initial_state).1
          = Ok (JObj d)) as Hrun by (vm_compute; reflexivity).
  split; [vm_compute; reflexivity |].
  split; [vm_compute; reflexivity |].
  split; [exists (JStr (py "thinkpad")); vm_compute; reflexivity |].
  split; [discriminate |].
  split; [exact Hrun |].
  rewrite Hrun. discriminate.
Qed.

(** ** Facts about [ebay_service] *)

Lemma token_url_base_url (environment : str) (url : str) :
  EBAY_OAUTH_TOKEN_URL environment = Some url ->
  is_Some (EBAY_BROWSE_API_BASE_URL environment).
Proof.
  unfold EBAY_OAUTH_TOKEN_URL, EBAY_BROWSE_API_BASE_URL.
  destruct (str_eqb environment (py "sandbox")); [eauto |].
  destruct (str_eqb environment (py "production")); [eauto | discriminate].
Qed.

Lemma truthy_not_null (v : json) : truthy v = true -> v <> JNull.
Proof. intros H ->. discriminate. Qed.

Lemma state_eta (s : state) :
  {| trace := trace s; oauth_token := oauth_token s;
     token_expiry_time := token_expiry_time s; heap := heap s |} = s.
Proof. destruct s; reflexivity. Qed.

Section EbayFacts.

Variable E : Env.

Lemma initial_state_token_cache_inv : token_cache_inv E initial_state.
Proof. intros H. discriminate. Qed.

(** The six conjuncts of [token_step] at the end of one path through
    [get_oauth_token]. *)
Ltac token_leaf :=
  unfold token_step, token_cache_inv;
  cbn [fst snd trace oauth_token token_expiry_time heap];
  split; [reflexivity |];
  split; [first [ exists []; rewrite app_nil_r; split; [reflexivity | left; reflexivity]
                | eexists; split; [reflexivity | right; eauto 10] ] |];
  split; [solve [auto] |];
  split; [intros ? Heq; first [discriminate Heq | injection Heq as <-; solve [auto]] |];
  split; [intros ? Heq; first [discriminate Heq
                              | injection Heq as <-; intros; solve [eauto | congruence]] |];
  intros; first [lia | congruence | split; reflexivity].

Lemma get_oauth_token_step (s : state) :
  token_step E s (get_oauth_token E s).1 (get_oauth_token E s).2.
Proof.
  unfold get_oauth_token, bind, get_state, time_now, ret.
  destruct (truthy (oauth_token s)) eqn:Htok;
    [destruct (Z.ltb_spec (time_time (world E) (trace s)) (token_expiry_time s)) as [Hlt | Hge] |];
    cbn [andb].
  { token_leaf. }
  all: destruct (negb (opt_truthy (EBAY_OAUTH_CLIENT_ID (cfg E)))
                 || negb (opt_truthy (EBAY_OAUTH_CLIENT_SECRET (cfg E))));
       [token_leaf |].
  all: destruct (EBAY_OAUTH_TOKEN_URL (EBAY_ENVIRONMENT (cfg E))) as [token_url |] eqn:Hurl;
       [| token_leaf].
  all: pose proof (token_url_base_url _ _ Hurl) as Hbase.
  all: unfold try_, post_token, bind, history, emit, lift, ret, raise,
         set_oauth_token, set_token_expiry_time, time_now;
       cbn [trace oauth_token token_expiry_time heap].
  all: destruct (requests_post (world E) (trace s) token_url
                   (default [] (EBAY_OAUTH_CLIENT_ID (cfg E)))
                   (default [] (EBAY_OAUTH_CLIENT_SECRET (cfg E))))
         as [e | status payload]; cbn [http_json].
  all: try (destruct (is_RequestException e); token_leaf).
  all: destruct (raise_for_status status) as [[] | e]; cbn [rbind];
       try (destruct (is_RequestException e); token_leaf).
  all: destruct payload as [token_data |];
       try (cbn [is_RequestException]; token_leaf).
  all: destruct (py_get token_data (py "access_token") JNull) as [token | e];
       try (destruct (is_RequestException e); token_leaf).
  all: cbn [trace oauth_token token_expiry_time heap];
       destruct (py_get token_data (py "expires_in") (JNum 3600)) as [expires_in | e];
       try (destruct (is_RequestException e); token_leaf).
  all: match goal with
       | |- context [py_add_num ?t ?x] =>
           destruct (py_add_num t x) as [expiry | e]
       end;
       try (destruct (is_RequestException e); token_leaf).
  all: cbn [trace oauth_token token_expiry_time heap];
       destruct (truthy token) eqn:Htoken; token_leaf.
Qed.

Lemma get_oauth_token_run (s : state) :
  exists r s', get_oauth_token E s = (r, s') /\ token_step E s r s'.
Proof.
  exists (get_oauth_token E s).1, (get_oauth_token E s).2.
  split; [apply surjective_pairing | apply get_oauth_token_step].
Qed.

(** Once the token is there and the parameters are a dict with [q], the
    search runs inside its [try] and always returns a list. *)
Lemma search_after_token (query : nat) (d : gmap str json) (s s1 : state)
    (token : json) (base_url : str) :
  get_oauth_token E s = (Ok token, s1) ->
  truthy token = true ->
  EBAY_BROWSE_API_BASE_URL (EBAY_ENVIRONMENT (cfg E)) = Some base_url ->
  heap s1 !! query = Some (JObj d) ->
  is_Some (d !! py "q") ->
  let d' := match d !! py "limit" with
            | Some _ => d
            | None => <[py "limit" := JNum 50]> d
            end in
  exists items reply,
    search_ebay_items E query s =
      (Ok items,
       {| trace := trace s1 ++
                   [EvSearchGet (base_url ++ py "/item_summary/search") token (JObj d') reply];
          oauth_token := oauth_token s1;
          token_expiry_time := token_expiry_time s1;
          heap := match d !! py "limit" with
                  | Some _ => heap s1
                  | None => <[query := JObj d']> (heap s1)
                  end |}).
Proof.
  intros Htoken Htruthy Hbase Hheap Hq d'.
  unfold search_ebay_items, bind. rewrite Htoken, Htruthy. cbn [negb].
  rewrite Hbase. unfold deref at 1. unfold bind, get_state. rewrite Hheap.
  unfold ret, lift. cbn [py_in].
  rewrite (bool_decide_eq_true_2 _ Hq). cbn [negb].
  subst d'. destruct (d !! py "limit") as [limit |] eqn:Hlimit.
  - rewrite bool_decide_eq_true_2 by eauto. cbn [negb].
    unfold try_, deref, bind, get_state. rewrite Hheap.
    unfold ret, get_search, bind, history, emit, lift.
    cbn [trace oauth_token token_expiry_time heap].
    unfold ret. cbv beta iota.
    match goal with
    | |- context [http_json ?r] => destruct (http_json r) as [v | e]
    end; [destruct (item_summaries v) |]; eauto.
  - rewrite bool_decide_eq_false_2 by (intros [? ?]; discriminate). cbn [negb].
    cbn [py_setitem]. unfold heap_store. cbn [trace oauth_token token_expiry_time heap].
    unfold try_, deref, bind, get_state.
    cbn [trace oauth_token token_expiry_time heap].
    rewrite lookup_insert_eq.
    unfold ret, get_search, bind, history, emit, lift.
    cbn [trace oauth_token token_expiry_time heap].
    unfold ret. cbv beta iota.
    match goal with
    | |- context [http_json ?r] => destruct (http_json r) as [v | e]
    end; [destruct (item_summaries v) |]; eauto.
Qed.

(** Without [q] in the dict, the search stops right after the token. *)
Lemma search_without_q_run (query : nat) (d : gmap str json) (s s' : state)
    (rt : result json) :
  heap s !! query = Some (JObj d) ->
  d !! py "q" = None ->
  get_oauth_token E s = (rt, s') ->
  search_ebay_items E query s =
    (match rt with Ok _ => Ok [] | Raise e => Raise e end, s').
Proof.
  intros Hheap Hq Hrun.
  pose proof (get_oauth_token_step s) as Hstep. rewrite Hrun in Hstep.
  destruct Hstep as (Hh & _). cbn [fst snd] in Hh.
  unfold search_ebay_items, bind. rewrite Hrun.
  destruct rt as [token | e]; [| reflexivity].
  destruct (truthy token); [| reflexivity]. cbn [negb].
  destruct (EBAY_BROWSE_API_BASE_URL (EBAY_ENVIRONMENT (cfg E))); [| reflexivity].
  unfold deref, bind, get_state. rewrite Hh, Hheap.
  unfold ret, lift. cbn [py_in]. rewrite Hq.
  rewrite bool_decide_eq_false_2 by (intros [? ?]; discriminate).
  reflexivity.
Qed.

(** C3, as the code has it.  For a dict without [q], [search_ebay_items]
    does what [get_oauth_token] does and nothing more: it issues no search
    request and leaves the dict as it was; the token is acquired first, by
    at most one POST to the token endpoint, and by none when an unexpired
    token is cached; the result is the empty list unless token acquisition
    raised. *)
Theorem search_ebay_items_without_q (query : nat) (d : gmap str json) (s : state) :
  heap s !! query = Some (JObj d) ->
  d !! py "q" = None ->
  exists rt s',
    get_oauth_token E s = (rt, s')
    /\ search_ebay_items E query s =
         (match rt with Ok _ => Ok [] | Raise e => Raise e end, s')
    /\ heap s' = heap s
    /\ (exists new,
          trace s' = trace s ++ new
          /\ (new = [] \/ exists url id secret reply, new = [EvTokenPost url id secret reply]))
    /\ (truthy (oauth_token s) = true ->
        time_time (world E) (trace s) < token_expiry_time s ->
        s' = s /\ search_ebay_items E query s = (Ok [], s)).
Proof.
  intros Hheap Hq.
  destruct (get_oauth_token_run s) as (rt & s' & Hrun & Hstep).
  destruct Hstep as (Hh & Htrace & _ & _ & _ & Hcached).
  pose proof (search_without_q_run query d s s' rt Hheap Hq Hrun) as Hsearch.
  exists rt, s'.
  split; [exact Hrun |]. split; [exact Hsearch |]. split; [exact Hh |].
  split; [exact Htrace |].
  intros Htok Hfresh. destruct (Hcached Htok Hfresh) as [-> ->].
  split; [reflexivity | exact Hsearch].
Qed.

(** C9.  In a state the program can reach, when the object passed is a dict
    with [q] and without [limit] and the token is obtained, the call
    returns a list and the object at the caller's reference has become the
    dict with [limit] set to 50: the argument has changed. *)
Theorem search_ebay_items_sets_limit_in_place (query : nat) (d : gmap str json)
    (s s1 : state) (token : json) :
  token_cache_inv E s ->
  heap s !! query = Some (JObj d) ->
  is_Some (d !! py "q") ->
  d !! py "limit" = None ->
  get_oauth_token E s = (Ok token, s1) ->
  truthy token = true ->
  exists items s',
    search_ebay_items E query s = (Ok items, s')
    /\ heap s' = <[query := JObj (<[py "limit" := JNum 50]> d)]> (heap s)
    /\ heap s' !! query = Some (JObj (<[py "limit" := JNum 50]> d))
    /\ heap s' !! query <> heap s !! query.
Proof.
  intros Hinv Hheap Hq Hlimit Htoken Htruthy.
  pose proof (get_oauth_token_step s) as Hstep. rewrite Htoken in Hstep.
  destruct Hstep as (Hh & _ & _ & _ & Hbase & _). cbn [fst snd] in Hh, Hbase.
  destruct (Hbase token eq_refl Htruthy Hinv) as [base_url Hurl].
  assert (heap s1 !! query = Some (JObj d)) as Hheap1 by (rewrite Hh; exact Hheap).
  destruct (search_after_token query d s s1 token base_url Htoken Htruthy Hurl Hheap1 Hq)
    as (items & reply & Hrun).
  rewrite Hlimit in Hrun.
  eexists items, _. split; [exact Hrun |].
  cbn [heap]. rewrite Hh.
  split; [reflexivity |]. split; [apply lookup_insert_eq |].
  rewrite lookup_insert_eq, Hheap. intros [= Heq].
  assert ((<[py "limit" := JNum 50]> d) !! py "limit" = d !! py "limit") as Hl
    by (rewrite Heq; reflexivity).
  rewrite lookup_insert_eq, Hlimit in Hl. discriminate.
Qed.

(** The part of C7 the code keeps: once token acquisition has returned,
    [search_ebay_items] returns a list for every dict, whatever the search
    request does. *)
Lemma search_ebay_items_returns_after_token (query : nat) (d : gmap str json)
    (s s1 : state) (token : json) :
  heap s !! query = Some (JObj d) ->
  get_oauth_token E s = (Ok token, s1) ->
  exists items s', search_ebay_items E query s = (Ok items, s').
Proof.
  intros Hheap Htoken.
  pose proof (get_oauth_token_step s) as Hstep. rewrite Htoken in Hstep.
  destruct Hstep as (Hh & _). cbn [fst snd] in Hh.
  assert (heap s1 !! query = Some (JObj d)) as Hheap1 by (rewrite Hh; exact Hheap).
  destruct (truthy token) eqn:Htruthy.
  - destruct (EBAY_BROWSE_API_BASE_URL (EBAY_ENVIRONMENT (cfg E))) as [base_url |] eqn:Hurl.
    + destruct (d !! py "q") as [q |] eqn:Hq.
      * destruct (search_after_token query d s s1 token base_url Htoken Htruthy Hurl
                    Hheap1 ltac:(eauto)) as (items & reply & Hrun).
        eauto.
      * rewrite (search_without_q_run query d s s1 (Ok token) Hheap Hq Htoken). eauto.
    + unfold search_ebay_items, bind. rewrite Htoken, Htruthy, Hurl. eauto.
  - unfold search_ebay_items, bind. rewrite Htoken, Htruthy. eauto.
Qed.

End EbayFacts.

(** C3 as stated fails: the dict is empty, no token is cached, and the
    token endpoint is contacted before [q] is looked for. *)
Lemma search_ebay_items_without_q_posts_token :
  let E := sample_env (Raise RequestException) token_reply in
  exists s',
    search_ebay_items E 0%nat (state_with (JObj ∅)) = (Ok [], s')
    /\ trace s' = [EvTokenPost sandbox_token_url (py "client-id") (py "client-secret")
                     token_reply]
    /\ filter is_network_call (trace s') <> [].
Proof.
  eexists. split; [vm_compute; reflexivity |].
  split; [reflexivity | discriminate].
Qed.

(** C7, where the code departs from it.  The dict has [q]; the token
    endpoint answers 200 with [expires_in] as a string; the addition in
    [get_oauth_token] raises [TypeError], which its [except] clause does
    not catch and which [search_ebay_items] calls outside its [try]. *)
Theorem search_ebay_items_raises :
  let E := sample_env (Raise RequestException) token_reply_text_expiry in
  exists s',
    search_ebay_items E 0%nat (state_with (JObj {[ py "q" := JStr (py "thinkpad t470") ]}))
    = (Raise TypeError, s').
Proof. eexists. vm_compute. reflexivity. Qed.

Lemma search_ebay_items_without_q_witness :
  let E := sample_env (Raise RequestException) token_reply in
  exists rt s',
    get_oauth_token E (state_with (JObj ∅)) = (rt, s')
    /\ search_ebay_items E 0%nat (state_with (JObj ∅)) =
         (match rt with Ok _ => Ok [] | Raise e => Raise e end, s')
    /\ heap s' = heap (state_with (JObj ∅))
    /\ (exists new,
          trace s' = trace (state_with (JObj ∅)) ++ new
          /\ (new = [] \/ exists url id secret reply, new = [EvTokenPost url id secret reply]))
    /\ (truthy (oauth_token (state_with (JObj ∅))) = true ->
        time_time (world E) (trace (state_with (JObj ∅)))
          < token_expiry_time (state_with (JObj ∅)) ->
        s' = state_with (JObj ∅)
        /\ search_ebay_items E 0%nat (state_with (JObj ∅)) = (Ok [], state_with (JObj ∅))).
Proof.
  intros E.
  apply (search_ebay_items_without_q E 0%nat ∅ (state_with (JObj ∅))).
  - reflexivity.
  - reflexivity.
Defined.

Lemma search_ebay_items_sets_limit_in_place_witness :
  let E := sample_env (Raise RequestException) token_reply in
  let d : gmap str json := {[ py "q" := JStr (py "thinkpad t470") ]} in
  exists items s',
    search_ebay_items E 0%nat (state_with (JObj d)) = (Ok items, s')
    /\ heap s' = <[0%nat := JObj (<[py "limit" := JNum 50]> d)]> (heap (state_with (JObj d)))
    /\ heap s' !! 0%nat = Some (JObj (<[py "limit" := JNum 50]> d))
    /\ heap s' !! 0%nat <> heap (state_with (JObj d)) !! 0%nat.
Proof.
  intros E d.
  apply (search_ebay_items_sets_limit_in_place E 0%nat d (state_with (JObj d))
           (get_oauth_token E (state_with (JObj d))).2
           (JStr (py "v^1.1#token"))).
  - intros H. discriminate.
  - reflexivity.
  - exists (JStr (py "thinkpad t470")). reflexivity.
  - reflexivity.
  - vm_compute. reflexivity.
  - reflexivity.
Defined.

(** ** Facts about [processing_service] *)

Section DispatcherFacts.

Context {S : Type} (h : handler S) (L : PyLib).

(** One step of the dispatcher: case on the next value it branches on, be
    it the answer of a service, the outcome of a dynamic operation or a
    test. *)
Ltac run_step :=
  cbn [run catch pbind plift call record_call app fst snd negb];
  match goal with
  | |- context [plift ?x] => destruct x as [?v | ?e]
  | |- context [h ?T ?op ?s] => destruct (h T op s) as [[?r | ?e] ?s]
  | |- context [truthy ?v] => destruct (truthy v)
  | |- context [match body ?d with _ => _ end] => destruct (body d) eqn:?Hbody
  | |- context [bool_decide ?P] => destruct (bool_decide_reflect P)
  | |- context [match ?x with _ => _ end] => is_var x; destruct x
  | |- context [if ?x then _ else _] => is_var x; destruct x
  | |- context [negb ?x] => is_var x; destruct x
  end.

Ltac in_log :=
  cbn [In]; repeat first [left; reflexivity | right].

Ltac not_in_log :=
  let Hin := fresh "Hin" in
  intros [? Hin]; cbn [In] in Hin; intuition discriminate.

Ltac premise_fails :=
  first [ let Hx := fresh "Hx" in intros Hx; discriminate Hx
        | intros _; not_in_log ].

(** At the end of a path the calls are a concrete list: read the message
    and the outcome off it and settle the five conjuncts. *)
Ltac leaf :=
  let Hf := fresh "Hf" in
  let Ho := fresh "Ho" in
  intros ? ? ? Hf Ho;
  cbn [fetched] in Hf; try discriminate Hf;
  injection Hf as <- <-;
  unfold outcome_of in Ho; cbn [fetched] in Ho;
  repeat match goal with
    | H : body ?e = _ |- _ => rewrite H in Ho; clear H
    end;
  repeat match goal with
    | H : ?x = Some _ |- _ => is_var x; subst x
    end;
  cbn [existsb classified_spam reply_sent escalation orb] in Ho;
  repeat match type of Ho with
    | context [match ?x with _ => _ end] => is_var x; destruct x
    end;
  unfold str_eqb in Ho;
  repeat match type of Ho with
    | context [bool_decide ?P] =>
        destruct (bool_decide_reflect P); try congruence
    end;
  cbn [orb] in Ho;
  injection Ho as <-;
  unfold mark_as_read_invoked; cbn [marks_read];
  (split;
    [ first
        [ split; [reflexivity || (intros _; reflexivity) | intros _; eexists; in_log]
        | split; [not_in_log | discriminate] ]
    | split;
        [ let Hin := fresh "Hin" in
          intros ? [? Hin]; cbn [In] in Hin; intuition congruence
        | cbn [existsb reply_generation_failed reply_send_failed escalation_failed orb];
          split; [premise_fails | split; premise_fails] ] ]).

(** C1.  In every dispatch cycle that fetched a message, whatever the
    services answer: [mark_as_read] is called on that message exactly when
    the outcome is REPLIED, MARKED_SPAM, SKIPPED_EMPTY or an escalation that
    was delivered; it is called on no other message; and it is not called
    when reply generation failed, when the reply was not sent, or when the
    escalation was not delivered. *)
Theorem mark_as_read_iff_outcome (pubsub_message_data : str) (s : S) :
  let log := (run h (process_pubsub_message L pubsub_message_data) s []).2 in
  forall message_id details o,
    fetched log = Some (message_id, details) ->
    outcome_of log = Some o ->
    (mark_as_read_invoked message_id log <-> marks_read o = true)
    /\ (forall id, mark_as_read_invoked id log -> id = message_id)
    /\ (existsb reply_generation_failed log = true ->
        ~ mark_as_read_invoked message_id log)
    /\ (existsb reply_send_failed log = true ->
        ~ mark_as_read_invoked message_id log)
    /\ (existsb escalation_failed log = true ->
        ~ mark_as_read_invoked message_id log).
Proof.
  unfold process_pubsub_message, forward_and_mark.
  repeat run_step.
  all: cbn [run catch pbind plift call record_call app fst snd negb].
  all: leaf.
Qed.

(** The [except Exception] around the whole body: the dispatcher returns
    whatever the services do. *)
Lemma process_pubsub_message_returns (pubsub_message_data : str) (s : S) :
  (run h (process_pubsub_message L pubsub_message_data) s []).1.1 = Ok tt.
Proof.
  unfold process_pubsub_message, forward_and_mark.
  repeat run_step.
  all: cbn [run catch pbind plift call record_call app fst snd negb].
  all: reflexivity.
Qed.

(** A cycle that fetched no message marks nothing as read. *)
Lemma no_fetch_no_mark (pubsub_message_data : str) (s : S) :
  let log := (run h (process_pubsub_message L pubsub_message_data) s []).2 in
  fetched log = None -> forall id, ~ mark_as_read_invoked id log.
Proof.
  unfold process_pubsub_message, forward_and_mark.
  repeat run_step.
  all: cbn [run catch pbind plift call record_call app fst snd negb].
  all: cbn [fetched]; intros Hf id; try discriminate Hf.
  all: unfold mark_as_read_invoked; not_in_log.
Qed.

End DispatcherFacts.

Lemma mark_as_read_iff_outcome_witness :
  let log := (run scripted_services
                (process_pubsub_message sample_lib notification_text) tt []).2 in
  (mark_as_read_invoked (JStr (py "m1")) log <-> marks_read REPLIED = true)
  /\ (forall id, mark_as_read_invoked id log -> id = JStr (py "m1"))
  /\ (existsb reply_generation_failed log = true ->
      ~ mark_as_read_invoked (JStr (py "m1")) log)
  /\ (existsb reply_send_failed log = true ->
      ~ mark_as_read_invoked (JStr (py "m1")) log)
  /\ (existsb escalation_failed log = true ->
      ~ mark_as_read_invoked (JStr (py "m1")) log).
Proof.
  apply (mark_as_read_iff_outcome scripted_services sample_lib notification_text tt
           (JStr (py "m1")) sample_details REPLIED).
  - vm_compute. reflexivity.
  - vm_compute. reflexivity.
Defined.

(** ** Facts about [gmail_service] *)

Section GmailClaims.

Variable E : Env.

(** One call of [mark_as_read] is one modify request for that message; the
    call returns whether the request succeeded, and never raises. *)
Lemma mark_as_read_run (message_id : json) (s : state) :
  let r := messages_modify (world E) (trace s) message_id in
  mark_as_read E message_id s =
    (Ok (match r with Ok _ => true | Raise _ => false end),
     extend s [EvGmailModify message_id r]).
Proof.
  intros r. unfold mark_as_read, bind, try_, history, emit, lift, ret.
  cbn [trace oauth_token token_expiry_time heap]. fold r.
  destruct r as [[] | e]; reflexivity.
Qed.

(** C10.  Without a sender, or without the Message-ID header, [send_reply]
    returns [False] and the state, trace included, is as before: nothing
    was sent.  With both present and no thread id, the reply is built and
    sent: once the message is encoded, the send request is issued, with
    [None] as thread id, and the result is [True] exactly when the request
    returns a message that has an [id]. *)
Theorem send_reply_missing_headers (original_email_data : email_data)
    (reply_body : str) (s : state) :
  (opt_truthy (sender original_email_data) = false
   \/ opt_truthy (message_id_header original_email_data) = false ->
   send_reply E original_email_data reply_body s = (Ok false, s))
  /\ (forall raw,
        opt_truthy (sender original_email_data) = true ->
        opt_truthy (message_id_header original_email_data) = true ->
        thread_id original_email_data = None ->
        reply_message E original_email_data reply_body = Ok raw ->
        let r := messages_send (world E) (trace s) raw JNull in
        send_reply E original_email_data reply_body s =
          (Ok (match r with
               | Ok sent_message =>
                   match py_getitem sent_message (py "id") with
                   | Ok _ => true
                   | Raise _ => false
                   end
               | Raise _ => false
               end),
           extend s [EvGmailSend raw JNull r])).
Proof.
  split.
  - intros [H | H]; unfold send_reply; rewrite H; cbn [negb].
    + reflexivity.
    + destruct (negb (opt_truthy (sender original_email_data))); reflexivity.
  - intros raw Hsender Hheader Hthread Hraw r.
    unfold send_reply. rewrite Hsender, Hheader. cbn [negb].
    unfold bind, try_, lift, history, emit, ret. rewrite Hraw, Hthread.
    cbn [opt_json trace oauth_token token_expiry_time heap]. fold r.
    destruct r as [sent_message | e]; [| reflexivity].
    destruct (py_getitem sent_message (py "id")); reflexivity.
Qed.

End GmailClaims.

Lemma send_reply_missing_headers_witness :
  let E := sample_env (Raise RequestException) (HttpFails RequestException) in
  send_reply E details_without_sender (py "We have one in stock.") initial_state
    = (Ok false, initial_state)
  /\ exists raw r,
       send_reply E details_without_thread (py "We have one in stock.") initial_state
         = (Ok true, extend initial_state [EvGmailSend raw JNull r]).
Proof.
  intros E.
  pose proof (send_reply_missing_headers E details_without_sender
                (py "We have one in stock.") initial_state) as [Hmissing _].
  pose proof (send_reply_missing_headers E details_without_thread
                (py "We have one in stock.") initial_state) as [_ Hthread].
  split.
  - apply Hmissing. left. reflexivity.
  - eexists _, _.
    apply (Hthread _ eq_refl eq_refl eq_refl eq_refl).
Defined.

(** The empty-body scenario on the services of the repository: the message
    is listed, fetched and marked as read; nothing else is called. *)
Example empty_body_scenario :
  let out := run (services empty_body_env)
               (process_pubsub_message (lib empty_body_env) notification_text)
               initial_state [] in
  out.1.1 = Ok tt
  /\ out.2 = [Called_list_unread_emails (Ok (JArr [JObj {[ py "id" := JStr (py "m1") ]}]));
              Called_get_email_details (JStr (py "m1")) (Ok (Some details_empty_body));
              Called_mark_as_read (JStr (py "m1")) (Ok true)]
  /\ outcome_of out.2 = Some SKIPPED_EMPTY
  /\ trace out.1.2 = [EvGmailList (py "is:unread in:inbox")
                        (Ok (JObj {[ py "messages" :=
                                       JArr [JObj {[ py "id" := JStr (py "m1") ]}] ]}));
                      EvGmailGet (JStr (py "m1")) (Ok (JObj ∅));
                      EvGmailModify (JStr (py "m1")) (Ok tt)].
Proof. vm_compute. repeat split; reflexivity. Qed.

(** The reply scenario on the services of the repository: the message is
    classified, the parameters are synthesized out of a fenced answer, the
    search runs with the default limit written into the parameters, the
    item is judged sufficient, the reply is sent and the message is marked
    as read. *)
Example reply_scenario :
  let out := run (services reply_env)
               (process_pubsub_message (lib reply_env) notification_text)
               initial_state [] in
  out.1.1 = Ok tt
  /\ outcome_of out.2 = Some REPLIED
  /\ map event_label (trace out.1.2) =
       map py ["messages.list"; "messages.get"; "generate_content"; "generate_content";
               "oauth2/token"; "item_summary/search"; "generate_content";
               "generate_content"; "messages.send"; "messages.modify"]%string
  /\ last (trace out.1.2) = Some (EvGmailModify (JStr (py "m1")) (Ok tt))
  /\ heap out.1.2 !! 0%nat =
       Some (JObj (<[ py "limit" := JNum 50 ]> {[ py "q" := JStr (py "thinkpad t470") ]})).
Proof. vm_compute. repeat split; reflexivity. Qed.

(** ** The retry loop, whatever the model does *)

Lemma last_cons_cons {A} (a b : A) (l : list A) : last (a :: b :: l) = last (b :: l).
Proof. reflexivity. Qed.

Section GeminiLoop.

Variable E : Env.

Lemma extend_extend (s : state) (new1 new2 : list event) :
  extend (extend s new1) new2 = extend s (new1 ++ new2).
Proof. unfold extend. cbn [trace oauth_token token_expiry_time heap]. by rewrite app_assoc. Qed.

Lemma extend_nil (s : state) : extend s [] = s.
Proof. unfold extend. rewrite app_nil_r. apply state_eta. Qed.

Lemma emit_extend (ev : event) (s : state) : emit ev s = (Ok tt, extend s [ev]).
Proof. reflexivity. Qed.

Lemma model_generate_content_extend (model : str) (p : prompt) (s : state) :
  model_generate_content E model p s =
  (generate_content (world E) (trace s) model p,
   extend s [EvGenerate model p (generate_content (world E) (trace s) model p)]).
Proof. apply model_generate_content_run. Qed.

Lemma gemini_attempt_extend (model : str) (p : prompt) (s : state) :
  let g := generate_content (world E) (trace s) model p in
  gemini_attempt E model p s = (attempt_outcome g, extend s [EvGenerate model p g]).
Proof. apply gemini_attempt_run. Qed.

(** An attempt hands back only the response the call gave, and only when
    its parts could be read. *)
Lemma attempt_outcome_some (g : result response) (resp : response) :
  attempt_outcome g = Ok (Some resp) ->
  g = Ok resp /\ exists ps, response_parts resp = Ok ps.
Proof.
  unfold attempt_outcome. destruct g as [resp0 | e]; cbn [rbind]; [| discriminate].
  destruct (response_parts resp0) as [ps | e] eqn:Hps; cbn [rbind]; [| discriminate].
  destruct (negb (length ps =? 0)%nat).
  - intros [= <-]. eauto.
  - destruct (prompt_feedback resp0) as [reason |].
    + destruct (negb (reason =? 0)); [discriminate | intros [= <-]; eauto].
    + intros [= <-]. eauto.
Qed.

Lemma attempt_outcome_parts (resp : response) :
  parts resp <> [] -> attempt_outcome (Ok resp) = Ok (Some resp).
Proof.
  unfold attempt_outcome, parts. cbn [rbind].
  destruct (response_parts resp) as [[| x xs] | e]; [contradiction | reflexivity | contradiction].
Qed.

(** What the loop does with [n] attempts left: it returns, after [k <= n]
    attempts laid out on the backoff schedule; a response it returns is the
    answer to its last attempt. *)
Lemma gemini_loop_spec (n : nat) (model : str) (p : prompt)
    (max_retries retries delay : Z) (s : state) :
  max_retries - retries = Z.of_nat n ->
  exists k new r,
    gemini_loop E n model p max_retries retries delay s = (Ok r, extend s new)
    /\ (k <= n)%nat
    /\ (n <> 0%nat -> k <> 0%nat)
    /\ map step_of new = backoff_schedule k delay
    /\ (forall resp, r = Some resp -> last new = Some (EvGenerate model p (Ok resp))).
Proof.
  revert retries delay s.
  induction n as [|n IH]; intros retries delay s Hn.
  - exists 0%nat, [], None. rewrite extend_nil.
    repeat split; auto; try lia; discriminate.
  - cbn [gemini_loop]. destruct (Z.ltb_spec retries max_retries); [| lia].
    unfold bind, try_. rewrite gemini_attempt_extend.
    set (g := generate_content (world E) (trace s) model p).
    destruct (attempt_outcome g) as [r | e] eqn:Hout.
    + (* an answer: returned, or blocked *)
      exists 1%nat, [EvGenerate model p g], r.
      repeat split; auto; try lia.
      intros resp ->. apply attempt_outcome_some in Hout as [-> _]. reflexivity.
    + destruct (Z.leb_spec max_retries (retries + 1)).
      * exists 1%nat, [EvGenerate model p g], None.
        repeat split; auto; try lia. discriminate.
      * destruct n as [|n]; [lia |].
        unfold time_sleep. rewrite emit_extend, extend_extend.
        destruct (IH (retries + 1) (delay * 2)
                    (extend s ([EvGenerate model p g] ++ [EvSleep delay]))
                    ltac:(lia)) as (k & new & r & Hrun & Hk & Hk0 & Hsched & Hlast).
        exists (S k), ([EvGenerate model p g] ++ [EvSleep delay] ++ new), r.
        rewrite Hrun, extend_extend.
        split; [by rewrite <- app_assoc |].
        split; [lia |]. split; [lia |].
        split.
        -- cbn [app map step_of backoff_schedule]. rewrite Hsched.
           destruct k as [|k]; [exfalso; apply Hk0; [lia | reflexivity] | reflexivity].
        -- intros resp Hresp. specialize (Hlast resp Hresp).
           destruct new as [|ev new]; [discriminate |].
           cbn [app]. rewrite !last_cons_cons. exact Hlast.
Qed.

(** A response the loop returns is one whose parts could be read. *)
Lemma gemini_loop_readable (n : nat) (model : str) (p : prompt)
    (max_retries retries delay : Z) (s s' : state) (resp : response) :
  gemini_loop E n model p max_retries retries delay s = (Ok (Some resp), s') ->
  exists ps, response_parts resp = Ok ps.
Proof.
  revert retries delay s.
  induction n as [|n IH]; intros retries delay s; cbn [gemini_loop].
  - intros H. discriminate H.
  - destruct (retries <? max_retries); [| intros H; discriminate H].
    unfold bind, try_. rewrite gemini_attempt_extend.
    destruct (attempt_outcome (generate_content (world E) (trace s) model p))
      as [r | e] eqn:Hout.
    + intros [= -> _]. apply attempt_outcome_some in Hout as [_ Hps]. exact Hps.
    + destruct (max_retries <=? retries + 1); [intros H; discriminate H |].
      unfold time_sleep. rewrite emit_extend. apply IH.
Qed.

Lemma call_gemini_default_readable (model : option str) (p : prompt)
    (s s' : state) (resp : response) :
  call_gemini_default E model p s = (Ok (Some resp), s') ->
  has_parts (Some resp) = Ok (Some resp) \/ has_parts (Some resp) = Ok None.
Proof.
  unfold call_gemini_default, _call_gemini_api.
  destruct model as [m |]; [| intros H; discriminate H].
  intros H. apply gemini_loop_readable in H as [ps Hps].
  unfold has_parts. rewrite Hps. cbn [rbind].
  destruct (negb (length ps =? 0)%nat); auto.
Qed.

Lemma call_gemini_api_spec (model : option str) (p : prompt)
    (max_retries delay : Z) (s : state) :
  exists k new r,
    _call_gemini_api E model p max_retries delay s = (Ok r, extend s new)
    /\ Z.of_nat k <= Z.max 0 max_retries
    /\ map step_of new = backoff_schedule k delay
    /\ (forall m resp, model = Some m -> r = Some resp ->
        last new = Some (EvGenerate m p (Ok resp)))
    /\ (model = None -> new = [] /\ r = None).
Proof.
  unfold _call_gemini_api. destruct model as [m |].
  - destruct (Z.le_gt_cases 0 max_retries).
    + destruct (gemini_loop_spec (Z.to_nat max_retries) m p max_retries 0 delay s
                  ltac:(lia)) as (k & new & r & Hrun & Hk & _ & Hsched & Hlast).
      exists k, new, r. rewrite Hrun. repeat split; auto; try lia; try discriminate.
      intros m' resp [= <-]. apply Hlast.
    + replace (Z.to_nat max_retries) with 0%nat by lia.
      exists 0%nat, [], None. cbn [gemini_loop]. unfold ret. rewrite extend_nil.
      repeat split; auto; try lia; discriminate.
  - exists 0%nat, [], None. unfold ret. rewrite extend_nil.
    repeat split; auto; try lia; discriminate.
Qed.


(** The loop, when the next [k] calls raise and the one after them
    answers. *)
Lemma gemini_loop_recovers (k : nat) :
  forall (n : nat) (model : str) (p : prompt) (max_retries retries delay : Z)
         (s : state) (resp : response),
    max_retries - retries = Z.of_nat n ->
    (k < n)%nat ->
    (forall h, (attempts h < attempts (trace s) + k)%nat ->
               exists e, generate_content (world E) h model p = Raise e) ->
    (forall h, attempts h = (attempts (trace s) + k)%nat ->
               generate_content (world E) h model p = Ok resp) ->
    parts resp <> [] ->
    exists new,
      gemini_loop E n model p max_retries retries delay s
        = (Ok (Some resp), extend s new)
      /\ map step_of new = backoff_schedule (S k) delay.
Proof.
  induction k as [|k IH]; intros n model p max_retries retries delay s resp
                                 Hn Hk Hfail Hok Hparts.
  - destruct n as [|n]; [lia |].
    cbn [gemini_loop]. destruct (Z.ltb_spec retries max_retries); [| lia].
    unfold bind, try_. rewrite gemini_attempt_extend.
    rewrite (Hok (trace s)) by lia.
    rewrite (attempt_outcome_parts resp Hparts).
    exists [EvGenerate model p (Ok resp)]. split; reflexivity.
  - destruct n as [|n]; [lia |].
    cbn [gemini_loop]. destruct (Z.ltb_spec retries max_retries); [| lia].
    unfold bind, try_. rewrite gemini_attempt_extend.
    destruct (Hfail (trace s)) as [e He]; [lia |]. rewrite He.
    cbn [attempt_outcome rbind].
    destruct (Z.leb_spec max_retries (retries + 1)); [lia |].
    unfold time_sleep. rewrite emit_extend, extend_extend.
    assert (attempts (trace (extend s ([EvGenerate model p (Raise e)] ++ [EvSleep delay])))
            = S (attempts (trace s))) as Hatt.
    { unfold attempts, extend. cbn [trace].
      rewrite filter_app, length_app.
      change (filter is_attempt ([EvGenerate model p (Raise e)] ++ [EvSleep delay]))
        with [EvGenerate model p (Raise e)].
      cbn [length]. lia. }
    destruct (IH n model p max_retries (retries + 1) (delay * 2)
                (extend s ([EvGenerate model p (Raise e)] ++ [EvSleep delay])) resp)
      as (new & Hrun & Hsched); try lia; try assumption.
    + intros h Hh. apply Hfail. rewrite Hatt in Hh. lia.
    + intros h Hh. apply Hok. rewrite Hatt in Hh. lia.
    + exists ([EvGenerate model p (Raise e)] ++ [EvSleep delay] ++ new).
      rewrite Hrun, extend_extend. split; [by rewrite <- app_assoc |].
      cbn [app map step_of]. rewrite Hsched. reflexivity.
Qed.

(** X2.  A transient failure is recovered: when the next [k] calls raise and the
    one after them answers with parts, and [k < max_retries], that answer is
    returned after [k + 1] attempts on the backoff schedule. *)
Theorem call_gemini_api_recovers (k : nat) (model : str) (p : prompt)
    (max_retries delay : Z) (s : state) (resp : response) :
  Z.of_nat k < max_retries ->
  (forall h, (attempts h < attempts (trace s) + k)%nat ->
             exists e, generate_content (world E) h model p = Raise e) ->
  (forall h, attempts h = (attempts (trace s) + k)%nat ->
             generate_content (world E) h model p = Ok resp) ->
  parts resp <> [] ->
  exists new,
    _call_gemini_api E (Some model) p max_retries delay s
      = (Ok (Some resp), extend s new)
    /\ map step_of new = backoff_schedule (S k) delay
    /\ sleeps new = doubling k delay.
Proof.
  intros Hk Hfail Hok Hparts. unfold _call_gemini_api.
  destruct (gemini_loop_recovers k (Z.to_nat max_retries) model p max_retries 0 delay
              s resp ltac:(lia) ltac:(lia) Hfail Hok Hparts) as (new & Hrun & Hsched).
  exists new. rewrite Hrun. repeat split; auto.
  rewrite (schedule_sleeps _ _ _ Hsched). f_equal. lia.
Qed.

End GeminiLoop.


Lemma call_gemini_api_recovers_witness :
  exists new,
    _call_gemini_api (flaky_env (text_response (py "PROCESS"))) (Some gemini)
      (ClassifyPrompt None (py "hello")) 3 5 initial_state
      = (Ok (Some (text_response (py "PROCESS"))), extend initial_state new)
    /\ map step_of new = backoff_schedule 3 5
    /\ sleeps new = doubling 2 5.
Proof.
  apply (call_gemini_api_recovers (flaky_env (text_response (py "PROCESS"))) 2).
  - lia.
  - intros h Hh. exists RequestException.
    change (attempts (trace initial_state)) with 0%nat in Hh.
    unfold flaky_env. cbn [world generate_content].
    destruct (Nat.ltb_spec (attempts h) 2); [reflexivity | lia].
  - intros h Hh.
    change (attempts (trace initial_state)) with 0%nat in Hh.
    unfold flaky_env. cbn [world generate_content].
    destruct (Nat.ltb_spec (attempts h) 2); [lia | reflexivity].
  - discriminate.
Defined.

(** ** The services built on the model *)

Section ModelServices.

Variable E : Env.

(** The default call, with its bound of three attempts. *)
Lemma call_gemini_default_spec (model : option str) (p : prompt) (s : state) :
  exists k new r,
    call_gemini_default E model p s = (Ok r, extend s new)
    /\ (k <= 3)%nat
    /\ map step_of new = backoff_schedule k 5
    /\ (forall m resp, model = Some m -> r = Some resp ->
        last new = Some (EvGenerate m p (Ok resp)))
    /\ (model = None -> new = [] /\ r = None).
Proof.
  unfold call_gemini_default.
  destruct (call_gemini_api_spec E model p 3 5 s)
    as (k & new & r & Hrun & Hk & Hsched & Hlast & Hnone).
  exists k, new, r. repeat split; auto; try lia; apply Hnone; assumption.
Qed.

(** The pieces of a service that follow the call and do not touch the
    state. *)
Ltac after_call :=
  unfold has_parts, log_response_text, bind, lift, ret, rbind;
  repeat match goal with
    | |- context [match ?x with _ => _ end] =>
        lazymatch x with
        | context [match _ with _ => _ end] => fail
        | _ => destruct x eqn:?
        end
    end.

(** X3.  Each service that asks the model costs at most three calls, with a
    sleep of 5 and then of 10 between them, and does nothing else to the
    state, whatever it returns or raises. *)
Theorem model_services_cost (subject : option str) (body : str)
    (items : list item) (s : state) :
  (exists k new out,
     classify_email E subject body s = (out, extend s new)
     /\ (k <= 3)%nat /\ map step_of new = backoff_schedule k 5)
  /\ (exists k new out,
     generate_ebay_search_params E body s = (out, extend s new)
     /\ (k <= 3)%nat /\ map step_of new = backoff_schedule k 5)
  /\ (exists k new out,
     evaluate_knowledge_relevance E body items s = (out, extend s new)
     /\ (k <= 3)%nat /\ map step_of new = backoff_schedule k 5)
  /\ (exists k new out,
     generate_response E subject body items s = (out, extend s new)
     /\ (k <= 3)%nat /\ map step_of new = backoff_schedule k 5).
Proof.
  split; [| split; [| split]].
  - unfold classify_email, bind.
    destruct (call_gemini_default_spec (classification_model (cfg E))
                (ClassifyPrompt subject (take 2000 body)) s)
      as (k & new & r & -> & Hk & Hsched & _).
    exists k, new. after_call; eauto.
  - unfold generate_ebay_search_params.
    destruct body as [|c body'].
    { exists 0%nat, [], (Ok JNull). unfold ret. rewrite extend_nil.
      split; [reflexivity | split; [lia | reflexivity]]. }
    unfold bind.
    destruct (call_gemini_default_spec (generation_model (cfg E))
                (SearchParamsPrompt (take 2000 (c :: body'))) s)
      as (k & new & r & -> & Hk & Hsched & _).
    exists k, new. after_call; eauto.
  - unfold evaluate_knowledge_relevance.
    destruct items as [|it items'].
    { exists 0%nat, [], (Ok false). unfold ret. rewrite extend_nil.
      split; [reflexivity | split; [lia | reflexivity]]. }
    unfold bind.
    destruct (call_gemini_default_spec (generation_model (cfg E))
                (EvaluatePrompt (take 1500 body) (it :: items')) s)
      as (k & new & r & -> & Hk & Hsched & _).
    exists k, new. after_call; eauto.
  - unfold generate_response.
    destruct items as [|it items'].
    { exists 0%nat, [], (Ok (Some no_information_reply)). unfold ret.
      rewrite extend_nil. split; [reflexivity | split; [lia | reflexivity]]. }
    unfold bind.
    destruct (call_gemini_default_spec (generation_model (cfg E))
                (ResponsePrompt subject (take 1500 body) (it :: items')) s)
      as (k & new & r & -> & Hk & Hsched & _).
    exists k, new. after_call; eauto.
Qed.


(** X5.  [generate_ebay_search_params] never raises, and what it returns is fit
    for the dispatcher: on a truthy result the test for [q] cannot raise,
    and a result without [q] holds none of the listed parameters. *)
Theorem generate_ebay_search_params_usable (email_body : str) (s : state) :
  exists v s',
    generate_ebay_search_params E email_body s = (Ok v, s')
    /\ (truthy v = true ->
        exists has_q, py_in (py "q") v = Ok has_q
                      /\ (has_q = false -> any_key_in other_params v = Ok false)).
Proof.
  unfold generate_ebay_search_params.
  destruct email_body as [|c body'].
  { eexists _, _. split; [reflexivity | discriminate]. }
  unfold bind.
  destruct (call_gemini_default_spec (generation_model (cfg E))
              (SearchParamsPrompt (take 2000 (c :: body'))) s)
    as (k & new & r & Hrun & _).
  rewrite Hrun. unfold lift.
  assert (exists with_parts, has_parts r = Ok with_parts) as (with_parts & ->).
  { destruct r as [resp |]; [| exists None; reflexivity].
    destruct (call_gemini_default_readable E _ _ _ _ _ Hrun) as [H | H]; eauto. }
  destruct with_parts as [resp |];
    [| eexists _, _; split; [reflexivity | discriminate]].
  destruct (text resp) as [t | e]; cbn [rbind];
    [| eexists _, _; split; [reflexivity | discriminate]].
  destruct (json_loads (lib E) (remove_fences (strip t))) as [params | e]; cbn [rbind];
    [| eexists _, _; split; [reflexivity | discriminate]].
  unfold validate_params.
  destruct (truthy params) eqn:Htruthy;
    [| eexists _, _; split; [reflexivity | congruence]].
  destruct (py_in (py "q") params) as [has_q | e] eqn:Hq; cbn [rbind];
    [| eexists _, _; split; [reflexivity | discriminate]].
  destruct has_q; cbn [negb].
  { eexists _, _. split; [reflexivity |]. intros _. exists true. split; [exact Hq | discriminate]. }
  destruct (any_key_in other_params params) as [others | e] eqn:Hothers; cbn [rbind];
    [| eexists _, _; split; [reflexivity | discriminate]].
  destruct others.
  { eexists _, _. split; [reflexivity | discriminate]. }
  eexists _, _. split; [reflexivity |]. intros _. exists false. auto.
Qed.

(** X6.  When the models could not be initialised, every service gives its
    failure answer and nothing is called. *)
Theorem model_services_without_models (subject : option str) (body : str)
    (items : list item) (s : state) :
  classification_model (cfg E) = None ->
  generation_model (cfg E) = None ->
  classify_email E subject body s = (Ok None, s)
  /\ generate_ebay_search_params E body s = (Ok JNull, s)
  /\ evaluate_knowledge_relevance E body items s = (Ok false, s)
  /\ (items <> [] -> generate_response E subject body items s = (Ok None, s)).
Proof.
  intros Hc Hg.
  unfold classify_email, generate_ebay_search_params, evaluate_knowledge_relevance,
    generate_response, call_gemini_default, _call_gemini_api, bind.
  rewrite Hc, Hg.
  repeat split.
  - destruct body; reflexivity.
  - destruct items; reflexivity.
  - intros Hitems. destruct items; [contradiction | reflexivity].
Qed.

End ModelServices.


Lemma model_services_without_models_witness :
  let E := {| cfg := {| GMAIL_USER_ID := py "me"; GMAIL_WATCH_LABEL_ID := None;
                        TELEGRAM_BOT_TOKEN := None; TELEGRAM_CHAT_ID := None;
                        EBAY_OAUTH_CLIENT_ID := None; EBAY_OAUTH_CLIENT_SECRET := None;
                        EBAY_ENVIRONMENT := py "sandbox";
                        classification_model := None; generation_model := None |};
              lib := sample_lib;
              world := sample_world (Ok (text_response (py "SPAM")))
                         (HttpFails RequestException) |} in
  classify_email E None (py "hello") initial_state = (Ok None, initial_state)
  /\ generate_ebay_search_params E (py "hello") initial_state = (Ok JNull, initial_state)
  /\ evaluate_knowledge_relevance E (py "hello") [sample_item] initial_state
     = (Ok false, initial_state)
  /\ ([sample_item] <> [] ->
      generate_response E None (py "hello") [sample_item] initial_state
      = (Ok None, initial_state)).
Proof.
  intros E.
  apply (model_services_without_models E None (py "hello") [sample_item] initial_state);
    reflexivity.
Defined.

(** ** The code fences around the model's JSON *)

Lemma startswith_app (p rest : str) : startswith p (p ++ rest) = true.
Proof.
  induction p as [|a p IH]; [reflexivity |].
  cbn [app startswith]. rewrite N.eqb_refl. exact IH.
Qed.

Lemma endswith_app (p l : str) : endswith p (l ++ p) = true.
Proof. unfold endswith. rewrite rev_app_distr. apply startswith_app. Qed.

Lemma lstrip_with_spaces (f : N -> bool) (ws s : str) :
  Forall (fun c => f c = true) ws -> lstrip_with f (ws ++ s) = lstrip_with f s.
Proof.
  induction 1 as [|c ws Hc _ IH]; [reflexivity |].
  cbn [app lstrip_with]. rewrite Hc. exact IH.
Qed.

Lemma lstrip_with_head (f : N -> bool) (c : N) (s : str) :
  f c = false -> lstrip_with f (c :: s) = c :: s.
Proof. intros H. cbn [lstrip_with]. rewrite H. reflexivity. Qed.

Lemma rstrip_with_spaces (f : N -> bool) (ws s : str) :
  Forall (fun c => f c = true) ws -> rstrip_with f (s ++ ws) = rstrip_with f s.
Proof.
  intros H. unfold rstrip_with. rewrite rev_app_distr.
  rewrite lstrip_with_spaces; [reflexivity |].
  apply Forall_forall. intros c Hc. rewrite Forall_forall in H.
  apply H. apply list_elem_of_In. apply list_elem_of_In in Hc.
  apply in_rev. exact Hc.
Qed.

Lemma rstrip_with_last (f : N -> bool) (s : str) (c : N) :
  f c = false -> rstrip_with f (s ++ [c]) = s ++ [c].
Proof.
  intros H. unfold rstrip_with. rewrite rev_app_distr. cbn [rev app].
  rewrite lstrip_with_head by exact H.
  change (c :: rev s) with (rev [c] ++ rev s).
  rewrite <- rev_app_distr. apply rev_involutive.
Qed.

(** Trimming a text that begins and ends with a character that is not white
    space, wrapped in white space. *)
Lemma strip_wrapped (ws1 ws2 mid : str) (c1 c2 : N) :
  Forall (fun c => is_space c = true) ws1 ->
  Forall (fun c => is_space c = true) ws2 ->
  is_space c1 = false ->
  is_space c2 = false ->
  strip (ws1 ++ (c1 :: mid ++ [c2]) ++ ws2) = c1 :: mid ++ [c2].
Proof.
  intros H1 H2 Hc1 Hc2. unfold strip.
  rewrite lstrip_with_spaces by exact H1.
  cbn [app]. rewrite lstrip_with_head by exact Hc1.
  change (c1 :: (mid ++ [c2]) ++ ws2) with ((c1 :: mid ++ [c2]) ++ ws2).
  rewrite rstrip_with_spaces by exact H2.
  change (c1 :: mid ++ [c2]) with ((c1 :: mid) ++ [c2]).
  apply rstrip_with_last. exact Hc2.
Qed.

Lemma strip_single (ws1 ws2 : str) (c : N) :
  Forall (fun c => is_space c = true) ws1 ->
  Forall (fun c => is_space c = true) ws2 ->
  is_space c = false ->
  strip (ws1 ++ [c] ++ ws2) = [c].
Proof.
  intros H1 H2 Hc. unfold strip.
  rewrite lstrip_with_spaces by exact H1.
  cbn [app]. rewrite lstrip_with_head by exact Hc.
  change (c :: ws2) with ([c] ++ ws2).
  rewrite rstrip_with_spaces by exact H2.
  apply (rstrip_with_last is_space [] c Hc).
Qed.

(** A text is bare when it is not empty and neither begins nor ends with
    white space: what [strip] leaves of a text that is not all blank. *)
Lemma strip_bare (ws1 ws2 inner : str) :
  Forall (fun c => is_space c = true) ws1 ->
  Forall (fun c => is_space c = true) ws2 ->
  inner <> [] ->
  (forall c, head inner = Some c -> is_space c = false) ->
  (forall c, last inner = Some c -> is_space c = false) ->
  strip (ws1 ++ inner ++ ws2) = inner.
Proof.
  intros H1 H2 Hne Hhead Hlast.
  destruct inner as [|c1 rest]; [contradiction |].
  destruct (rev rest) as [|c2 tser] eqn:Hrev.
  - apply (f_equal (@rev N)) in Hrev. rewrite rev_involutive in Hrev. subst rest.
    apply strip_single; auto.
  - apply (f_equal (@rev N)) in Hrev. rewrite rev_involutive in Hrev.
    cbn [rev] in Hrev. subst rest.
    apply strip_wrapped; auto.
    apply Hlast. change (c1 :: rev tser ++ [c2]) with ((c1 :: rev tser) ++ [c2]).
    apply last_snoc.
Qed.

(** X7.  A fenced answer is unwrapped to the text inside the fence, and an
    answer without fences is left as it is. *)
Theorem remove_fences_unwraps (ws1 ws2 inner : str) :
  Forall (fun c => is_space c = true) ws1 ->
  Forall (fun c => is_space c = true) ws2 ->
  inner <> [] ->
  (forall c, head inner = Some c -> is_space c = false) ->
  (forall c, last inner = Some c -> is_space c = false) ->
  remove_fences (py "```json" ++ ws1 ++ inner ++ ws2 ++ py "```") = inner
  /\ (startswith (py "```json") inner = false ->
      endswith (py "```") inner = false ->
      remove_fences inner = inner).
Proof.
  intros H1 H2 Hne Hhead Hlast. split.
  - unfold remove_fences. rewrite startswith_app, drop_app_length.
    assert (strip (ws1 ++ inner ++ ws2 ++ py "```") = inner ++ ws2 ++ py "```") as ->.
    { transitivity (strip (ws1 ++ (inner ++ ws2 ++ py "```") ++ []));
        [by rewrite app_nil_r |].
      apply (strip_bare ws1 [] (inner ++ ws2 ++ py "```")); auto.
      - destruct inner; [contradiction | discriminate].
      - intros c Hc. apply Hhead. destruct inner; [contradiction | exact Hc].
      - intros c Hc. rewrite !app_assoc in Hc.
        change (py "```") with ([96; 96]%N ++ [96%N]) in Hc.
        rewrite app_assoc, last_snoc in Hc. injection Hc as <-. reflexivity. }
    rewrite app_assoc, endswith_app.
    rewrite length_app, Nat.add_sub, take_app_length.
    apply (strip_bare [] ws2 inner); auto.
  - intros Hs He. unfold remove_fences. rewrite Hs, He. reflexivity.
Qed.

Lemma remove_fences_unwraps_witness :
  remove_fences (py "```json" ++ [10%N] ++ query_text ++ [10%N] ++ py "```") = query_text
  /\ (startswith (py "```json") query_text = false ->
      endswith (py "```") query_text = false ->
      remove_fences query_text = query_text).
Proof.
  apply (remove_fences_unwraps [10%N] [10%N] query_text).
  - repeat constructor.
  - repeat constructor.
  - discriminate.
  - intros c [= <-]. reflexivity.
  - intros c [= <-]. reflexivity.
Defined.

(** ** The token cache and the search request *)

Section TokenAndSearch.

Variable E : Env.

Lemma get_oauth_token_cached (s : state) :
  truthy (oauth_token s) = true ->
  time_time (world E) (trace s) < token_expiry_time s ->
  get_oauth_token E s = (Ok (oauth_token s), s).
Proof.
  intros Htok Hlt. unfold get_oauth_token, bind, get_state, time_now, ret.
  rewrite Htok. destruct (Z.ltb_spec (time_time (world E) (trace s)) (token_expiry_time s));
    [reflexivity | lia].
Qed.

(** With a stale cache and a configuration, the token endpoint is asked;
    what follows depends on its answer. *)
Lemma get_oauth_token_asks (s : state) (token_url : str) :
  cache_stale E s ->
  ebay_configured E token_url ->
  get_oauth_token E s =
    (r <- try_ (
       token_data <- lift (http_json (token_answer E token_url s)) ;;
       token <- lift (py_get token_data (py "access_token") JNull) ;;
       set_oauth_token token ;;
       expires_in <- lift (py_get token_data (py "expires_in") (JNum 3600)) ;;
       now <- time_now E ;;
       expiry <- lift (py_add_num now expires_in) ;;
       set_token_expiry_time (expiry - 60) ;;
       if truthy token then ret token else ret JNull) ;;
     match r with
     | Ok token => ret token
     | Raise e => if is_RequestException e then ret JNull else raise e
     end) (extend s [token_post E token_url s]).
Proof.
  intros Hstale (Hid & Hsecret & Hurl).
  unfold get_oauth_token, bind at 1 2, get_state, time_now at 1, ret at 1 2.
  unfold cache_stale in Hstale. rewrite Hstale, Hid, Hsecret, Hurl. cbn [negb orb].
  unfold bind at 1, try_ at 1, bind at 1, post_token, bind at 1 2, history, emit, ret at 1.
  cbn [trace oauth_token token_expiry_time heap].
  reflexivity.
Qed.

Lemma get_oauth_token_fetched (s : state) (token_url : str) (d : gmap str json)
    (expiry : Z) :
  cache_stale E s ->
  ebay_configured E token_url ->
  http_json (token_answer E token_url s) = Ok (JObj d) ->
  py_add_num (time_time (world E) (trace s ++ [token_post E token_url s]))
    (default (JNum 3600) (d !! py "expires_in")) = Ok expiry ->
  get_oauth_token E s =
    (Ok (if truthy (default JNull (d !! py "access_token"))
         then default JNull (d !! py "access_token") else JNull),
     {| trace := trace s ++ [token_post E token_url s];
        oauth_token := default JNull (d !! py "access_token");
        token_expiry_time := expiry - 60;
        heap := heap s |}).
Proof.
  intros Hstale Hcfg Hjson Hadd.
  rewrite (get_oauth_token_asks s token_url Hstale Hcfg).
  unfold bind, try_, lift, set_oauth_token, set_token_expiry_time, time_now, ret, extend.
  rewrite Hjson. cbn [py_get trace oauth_token token_expiry_time heap].
  rewrite Hadd.
  destruct (truthy (default JNull (d !! py "access_token"))); reflexivity.
Qed.

Lemma get_oauth_token_request_failed (s : state) (token_url : str) :
  cache_stale E s ->
  ebay_configured E token_url ->
  request_failed (token_answer E token_url s) ->
  get_oauth_token E s = (Ok JNull, extend s [token_post E token_url s]).
Proof.
  intros Hstale Hcfg Hfail.
  rewrite (get_oauth_token_asks s token_url Hstale Hcfg).
  unfold bind, try_, lift, ret.
  destruct (token_answer E token_url s) as [e | status payload]; cbn [http_json].
  - cbn in Hfail. rewrite Hfail. reflexivity.
  - destruct Hfail as [Hstatus | ->].
    + unfold raise_for_status.
      destruct (Z.leb_spec 400 status); [| lia].
      destruct (Z.ltb_spec status 600); [| lia]. reflexivity.
    + unfold raise_for_status.
      destruct ((400 <=? status) && (status <? 600)); reflexivity.
Qed.

Lemma get_oauth_token_unconfigured (s : state) :
  cache_stale E s ->
  opt_truthy (EBAY_OAUTH_CLIENT_ID (cfg E)) = false
  \/ opt_truthy (EBAY_OAUTH_CLIENT_SECRET (cfg E)) = false
  \/ EBAY_OAUTH_TOKEN_URL (EBAY_ENVIRONMENT (cfg E)) = None ->
  get_oauth_token E s = (Ok JNull, s).
Proof.
  intros Hstale Hcfg.
  unfold get_oauth_token, bind, get_state, time_now, ret.
  unfold cache_stale in Hstale. rewrite Hstale.
  destruct Hcfg as [H | [H | H]]; rewrite H.
  - reflexivity.
  - rewrite orb_true_r. reflexivity.
  - destruct (negb _ || negb _); reflexivity.
Qed.

(** An exception of [get_oauth_token] is never a [RequestException]. *)
Lemma get_oauth_token_raises (s s' : state) (e : exn) :
  get_oauth_token E s = (Raise e, s') -> is_RequestException e = false.
Proof.
  unfold get_oauth_token, bind, get_state, time_now, ret.
  destruct (truthy (oauth_token s) && _); [discriminate |].
  destruct (negb _ || negb _); [discriminate |].
  destruct (EBAY_OAUTH_TOKEN_URL _); [| discriminate].
  unfold try_, post_token, bind, history, emit, lift, ret, raise,
    set_oauth_token, set_token_expiry_time, time_now.
  cbn [trace oauth_token token_expiry_time heap].
  repeat match goal with
    | |- context [match ?x with _ => _ end] =>
        lazymatch x with
        | context [match _ with _ => _ end] => fail
        | _ => destruct x eqn:?
        end
    | |- context [if ?x then _ else _] =>
        lazymatch x with
        | context [match _ with _ => _ end] => fail
        | _ => destruct x eqn:?
        end
    end;
    cbn [trace oauth_token token_expiry_time heap];
    intros [= <- _]; try discriminate; assumption.
Qed.

(** X8.  The token is served from the cache until 60 seconds before it expires,
    and not after.  After an exchange that returned the token [token] and
    the lifetime [lifetime] (3600 when the answer names none), the token and
    the time of the exchange plus [lifetime - 60] are cached; while the
    clock is before that time every call returns the token without a
    request; from that time on a call asks the token endpoint again. *)
Theorem token_served_until_margin (s : state) (token_url : str)
    (d : gmap str json) (token : json) (lifetime : Z) :
  cache_stale E s ->
  ebay_configured E token_url ->
  http_json (token_answer E token_url s) = Ok (JObj d) ->
  d !! py "access_token" = Some token ->
  truthy token = true ->
  default (JNum 3600) (d !! py "expires_in") = JNum lifetime ->
  let expiry :=
    time_time (world E) (trace s ++ [token_post E token_url s]) + lifetime - 60 in
  get_oauth_token E s =
    (Ok token,
     {| trace := trace s ++ [token_post E token_url s]; oauth_token := token;
        token_expiry_time := expiry; heap := heap s |})
  /\ (forall s2,
        oauth_token s2 = token -> token_expiry_time s2 = expiry ->
        time_time (world E) (trace s2) < expiry ->
        get_oauth_token E s2 = (Ok token, s2))
  /\ (forall s2,
        oauth_token s2 = token -> token_expiry_time s2 = expiry ->
        expiry <= time_time (world E) (trace s2) ->
        exists r s3,
          get_oauth_token E s2 = (r, s3)
          /\ trace s3 = trace s2 ++ [token_post E token_url s2]).
Proof.
  intros Hstale Hcfg Hjson Htoken Htruthy Hlife expiry.
  split; [| split].
  - rewrite (get_oauth_token_fetched s token_url d (expiry + 60) Hstale Hcfg Hjson).
    + rewrite Htoken. change (default JNull (Some token)) with token.
      rewrite Htruthy. do 3 f_equal. lia.
    + rewrite Hlife. cbn [py_add_num]. f_equal. unfold expiry. lia.
  - intros s2 Htok Hexp Hlt.
    rewrite <- Htok. apply get_oauth_token_cached.
    + rewrite Htok. exact Htruthy.
    + rewrite Hexp. exact Hlt.
  - intros s2 Htok Hexp Hge.
    assert (cache_stale E s2) as Hstale2.
    { unfold cache_stale. rewrite Hexp.
      destruct (Z.ltb_spec (time_time (world E) (trace s2)) expiry); [lia |].
      apply andb_false_r. }
    rewrite (get_oauth_token_asks s2 token_url Hstale2 Hcfg).
    unfold bind, try_, lift, set_oauth_token, set_token_expiry_time, time_now, ret,
      raise, extend.
    repeat match goal with
      | |- context [match ?x with _ => _ end] =>
          lazymatch x with
          | context [match _ with _ => _ end] => fail
          | _ => destruct x eqn:?
          end
      | |- context [if ?x then _ else _] =>
          lazymatch x with
          | context [match _ with _ => _ end] => fail
          | _ => destruct x eqn:?
          end
      end;
      cbn [trace oauth_token token_expiry_time heap];
      eexists _, _; (split; reflexivity).
Qed.

(** X9.  Request errors do not leave [get_oauth_token]: an exception it raises
    is not a [RequestException]; and when the token request fails in
    transport, by its status or by its body, the answer is [None], with the
    cache as it was. *)
Theorem get_oauth_token_absorbs_request_errors (s : state) :
  (forall e s', get_oauth_token E s = (Raise e, s') -> is_RequestException e = false)
  /\ (forall token_url,
        cache_stale E s ->
        ebay_configured E token_url ->
        request_failed (token_answer E token_url s) ->
        get_oauth_token E s = (Ok JNull, extend s [token_post E token_url s])).
Proof.
  split.
  - intros e s' H. exact (get_oauth_token_raises s s' e H).
  - intros token_url. apply get_oauth_token_request_failed.
Qed.

(** X10.  Without a token there is no search: when the credentials or the
    environment are not configured, [search_ebay_items] returns the empty
    list and calls nothing; when the token request fails, it returns the
    empty list after that one request.  The parameters are not read. *)
Theorem search_ebay_items_without_token (query : nat) (s : state) :
  cache_stale E s ->
  (opt_truthy (EBAY_OAUTH_CLIENT_ID (cfg E)) = false
   \/ opt_truthy (EBAY_OAUTH_CLIENT_SECRET (cfg E)) = false
   \/ EBAY_OAUTH_TOKEN_URL (EBAY_ENVIRONMENT (cfg E)) = None ->
   search_ebay_items E query s = (Ok [], s))
  /\ (forall token_url,
        ebay_configured E token_url ->
        request_failed (token_answer E token_url s) ->
        search_ebay_items E query s = (Ok [], extend s [token_post E token_url s])).
Proof.
  intros Hstale. split.
  - intros Hcfg. unfold search_ebay_items, bind.
    rewrite (get_oauth_token_unconfigured s Hstale Hcfg). reflexivity.
  - intros token_url Hcfg Hfail. unfold search_ebay_items, bind.
    rewrite (get_oauth_token_request_failed s token_url Hstale Hcfg Hfail). reflexivity.
Qed.

(** With the token and a dict that has [q], the search request is made and
    its answer decides the result. *)
Lemma search_with_token (query : nat) (d : gmap str json) (s s1 : state)
    (token : json) (base_url : str) :
  get_oauth_token E s = (Ok token, s1) ->
  truthy token = true ->
  EBAY_BROWSE_API_BASE_URL (EBAY_ENVIRONMENT (cfg E)) = Some base_url ->
  heap s1 !! query = Some (JObj d) ->
  is_Some (d !! py "q") ->
  let d' := match d !! py "limit" with
            | Some _ => d
            | None => <[py "limit" := JNum 50]> d
            end in
  let search_url := base_url ++ py "/item_summary/search" in
  let reply := requests_get (world E) (trace s1) search_url token (JObj d') in
  search_ebay_items E query s =
    (Ok (match (search_results <~ http_json reply ;; item_summaries search_results) with
         | Ok items => items
         | Raise _ => []
         end),
     {| trace := trace s1 ++ [EvSearchGet search_url token (JObj d') reply];
        oauth_token := oauth_token s1;
        token_expiry_time := token_expiry_time s1;
        heap := <[query := JObj d']> (heap s1) |}).
Proof.
  intros Htoken Htruthy Hbase Hheap Hq d' search_url reply.
  unfold search_ebay_items, bind. rewrite Htoken, Htruthy. cbn [negb].
  rewrite Hbase. unfold deref at 1. unfold bind, get_state. rewrite Hheap.
  unfold ret, lift. cbn [py_in].
  rewrite (bool_decide_eq_true_2 _ Hq). cbn [negb].
  subst reply search_url d'. destruct (d !! py "limit") as [limit |] eqn:Hlimit.
  - rewrite bool_decide_eq_true_2 by eauto. cbn [negb].
    unfold try_, deref, bind, get_state. rewrite Hheap.
    unfold ret, get_search, bind, history, emit, lift.
    cbn [trace oauth_token token_expiry_time heap].
    unfold ret. cbv beta iota. rewrite (insert_id _ _ _ Hheap).
    match goal with
    | |- context [http_json ?r] => destruct (http_json r) as [v | e]
    end; cbn [rbind]; [destruct (item_summaries v) |]; reflexivity.
  - rewrite bool_decide_eq_false_2 by (intros [? ?]; discriminate). cbn [negb].
    cbn [py_setitem]. unfold heap_store. cbn [trace oauth_token token_expiry_time heap].
    unfold try_, deref, bind, get_state.
    cbn [trace oauth_token token_expiry_time heap].
    rewrite lookup_insert_eq.
    unfold ret, get_search, bind, history, emit, lift.
    cbn [trace oauth_token token_expiry_time heap].
    unfold ret. cbv beta iota.
    match goal with
    | |- context [http_json ?r] => destruct (http_json r) as [v | e]
    end; cbn [rbind]; [destruct (item_summaries v) |]; reflexivity.
Qed.

Lemma map_result_Forall2 {A B} (f : A -> result B) (l : list A) (bs : list B) :
  map_result f l = Ok bs <-> Forall2 (fun a b => f a = Ok b) l bs.
Proof.
  revert bs. induction l as [|a l IH]; intros bs; cbn [map_result].
  - split.
    + intros [= <-]. constructor.
    + intros H. inversion H. reflexivity.
  - destruct (f a) as [b |] eqn:Hfa; cbn [rbind].
    + destruct (map_result f l) as [bs' |] eqn:Hrest; cbn [rbind].
      * split.
        -- intros [= <-]. constructor; [exact Hfa | by apply IH].
        -- intros H. inversion H as [| ? b0 ? bs0 Hb Hbs]; subst.
           rewrite Hfa in Hb. injection Hb as <-.
           apply IH in Hbs. injection Hbs as <-. reflexivity.
      * split; [discriminate |].
        intros H. inversion H as [| ? b0 ? bs0 Hb Hbs]; subst.
        apply IH in Hbs. discriminate.
    + split; [discriminate |].
      intros H. inversion H as [| ? b0 ? bs0 Hb Hbs]; subst. congruence.
Qed.

Lemma map_result_fails {A B} (f : A -> result B) (l : list A) (a : A) (e : exn) :
  In a l -> f a = Raise e -> exists e', map_result f l = Raise e'.
Proof.
  induction l as [|x l IH]; intros Hin Hfa; [contradiction |].
  cbn [map_result]. destruct Hin as [-> | Hin].
  - rewrite Hfa. eauto.
  - destruct (f x); cbn [rbind]; [| eauto].
    destruct (IH Hin Hfa) as [e' ->]. eauto.
Qed.

(** The record built from a summary that is a dict whose price, if there is
    one, is a dict: what the provider gave, and N/A for what it left out. *)
Lemma item_details_dict (d p : gmap str json) :
  default (JObj ∅) (d !! py "price") = JObj p ->
  item_details (JObj d) =
    Ok {| title := default NA (d !! py "title");
          itemId := default NA (d !! py "itemId");
          itemWebUrl := default NA (d !! py "itemWebUrl");
          price := default NA (p !! py "value");
          currency := default NA (p !! py "currency");
          condition := default NA (d !! py "condition") |}.
Proof.
  intros Hp. unfold item_details. cbn [py_get rbind]. rewrite Hp. reflexivity.
Qed.

Lemma map_result_readable (l : list json) :
  Forall (fun v => exists dv p, v = JObj dv
                   /\ default (JObj ∅) (dv !! py "price") = JObj p) l ->
  exists items, map_result item_details l = Ok items /\ length items = length l.
Proof.
  induction 1 as [|v l (dv & p & -> & Hp) _ IH].
  - exists []. split; reflexivity.
  - destruct IH as (items & Hitems & Hlen).
    cbn [map_result]. rewrite (item_details_dict dv p Hp). cbn [rbind].
    rewrite Hitems. cbn [rbind]. eexists. split; [reflexivity |].
    cbn [length]. rewrite Hlen. reflexivity.
Qed.

(** X11.  A failed search request gives the empty list, whatever the failure;
    the default limit it wrote into the caller's dict stays there. *)
Theorem search_ebay_items_request_failure (query : nat) (d : gmap str json)
    (s s1 : state) (token : json) (base_url : str) :
  get_oauth_token E s = (Ok token, s1) ->
  truthy token = true ->
  EBAY_BROWSE_API_BASE_URL (EBAY_ENVIRONMENT (cfg E)) = Some base_url ->
  heap s1 !! query = Some (JObj d) ->
  is_Some (d !! py "q") ->
  d !! py "limit" = None ->
  match requests_get (world E) (trace s1) (base_url ++ py "/item_summary/search")
          token (JObj (<[py "limit" := JNum 50]> d)) with
  | HttpFails _ => True
  | HttpReply status payload => 400 <= status < 600 \/ payload = None
  end ->
  exists s',
    search_ebay_items E query s = (Ok [], s')
    /\ heap s' !! query = Some (JObj (<[py "limit" := JNum 50]> d))
    /\ exists reply,
         trace s' = trace s1 ++ [EvSearchGet (base_url ++ py "/item_summary/search")
                                   token (JObj (<[py "limit" := JNum 50]> d)) reply].
Proof.
  intros Htoken Htruthy Hbase Hheap Hq Hlimit Hfail.
  pose proof (search_with_token query d s s1 token base_url Htoken Htruthy Hbase Hheap Hq)
    as Hrun.
  cbv zeta in Hrun. rewrite Hlimit in Hrun.
  eexists. split; [rewrite Hrun |].
  - f_equal. f_equal.
    destruct (requests_get _ _ _ _ _) as [e | status payload]; cbn [http_json rbind].
    + reflexivity.
    + unfold raise_for_status. destruct Hfail as [Hstatus | ->].
      * destruct (Z.leb_spec 400 status); [| lia].
        destruct (Z.ltb_spec status 600); [| lia]. reflexivity.
      * destruct ((400 <=? status) && (status <? 600)); reflexivity.
  - cbn [heap trace]. split; [apply lookup_insert_eq | eauto].
Qed.

(** X12.  The item summaries are taken all or none.  When the search answers with
    a list of summaries, the result has one record per summary, in order,
    if every summary can be read; if one cannot, the result is empty.  A
    summary that is a dict whose price is a dict or absent can be read. *)
Theorem search_ebay_items_all_or_nothing (query : nat) (d : gmap str json)
    (s s1 : state) (token : json) (base_url : str) (status : Z)
    (search_results : gmap str json) (summaries : list json) :
  get_oauth_token E s = (Ok token, s1) ->
  truthy token = true ->
  EBAY_BROWSE_API_BASE_URL (EBAY_ENVIRONMENT (cfg E)) = Some base_url ->
  heap s1 !! query = Some (JObj d) ->
  is_Some (d !! py "q") ->
  d !! py "limit" = None ->
  requests_get (world E) (trace s1) (base_url ++ py "/item_summary/search")
    token (JObj (<[py "limit" := JNum 50]> d))
    = HttpReply status (Some (JObj search_results)) ->
  ~ (400 <= status < 600) ->
  search_results !! py "itemSummaries" = Some (JArr summaries) ->
  (forall items,
     Forall2 (fun v it => item_details v = Ok it) summaries items ->
     (search_ebay_items E query s).1 = Ok items)
  /\ (forall v e, In v summaries -> item_details v = Raise e ->
      (search_ebay_items E query s).1 = Ok [])
  /\ (Forall (fun v => exists dv p, v = JObj dv
                        /\ default (JObj ∅) (dv !! py "price") = JObj p) summaries ->
      exists items,
        (search_ebay_items E query s).1 = Ok items /\ length items = length summaries).
Proof.
  intros Htoken Htruthy Hbase Hheap Hq Hlimit Hreply Hstatus Hsummaries.
  pose proof (search_with_token query d s s1 token base_url Htoken Htruthy Hbase Hheap Hq)
    as Hrun.
  cbv zeta in Hrun. rewrite Hlimit, Hreply in Hrun. rewrite Hrun. cbn [fst].
  cbn [http_json]. unfold raise_for_status.
  assert ((400 <=? status) && (status <? 600) = false) as ->.
  { destruct (Z.leb_spec 400 status); [| reflexivity].
    destruct (Z.ltb_spec status 600); [lia | reflexivity]. }
  cbn [rbind]. unfold item_summaries. cbn [py_get rbind]. rewrite Hsummaries.
  change (default JNull (Some (JArr summaries))) with (JArr summaries).
  destruct summaries as [|v0 rest].
  { cbn [truthy length Nat.eqb negb]. split; [| split].
    - intros items H. inversion H. reflexivity.
    - intros v e [].
    - intros _. exists []. split; reflexivity. }
  cbn [truthy length Nat.eqb negb py_iter rbind].
  split; [| split].
  - intros items H. apply map_result_Forall2 in H. rewrite H. reflexivity.
  - intros v e Hin Hv. destruct (map_result_fails item_details _ v e Hin Hv) as [e' ->].
    reflexivity.
  - intros Hwf.
    destruct (map_result_readable (v0 :: rest) Hwf) as (items & -> & Hlen).
    exists items. split; [reflexivity | exact Hlen].
Qed.

End TokenAndSearch.

Lemma token_served_until_margin_witness :
  let E := ebay_env 1000 token_reply (HttpFails RequestException) in
  let expiry := 1000 + 7200 - 60 in
  get_oauth_token E initial_state =
    (Ok sample_token,
     {| trace := [token_post E sandbox_token_url initial_state];
        oauth_token := sample_token; token_expiry_time := expiry; heap := ∅ |})
  /\ (forall s2,
        oauth_token s2 = sample_token -> token_expiry_time s2 = expiry ->
        time_time (world E) (trace s2) < expiry ->
        get_oauth_token E s2 = (Ok sample_token, s2))
  /\ (forall s2,
        oauth_token s2 = sample_token -> token_expiry_time s2 = expiry ->
        expiry <= time_time (world E) (trace s2) ->
        exists r s3,
          get_oauth_token E s2 = (r, s3)
          /\ trace s3 = trace s2 ++ [token_post E sandbox_token_url s2]).
Proof.
  intros E expiry.
  apply (token_served_until_margin E initial_state sandbox_token_url
           sample_token_data sample_token 7200).
  - reflexivity.
  - repeat split; reflexivity.
  - reflexivity.
  - reflexivity.
  - reflexivity.
  - reflexivity.
Defined.

Lemma get_oauth_token_absorbs_request_errors_witness :
  let E := ebay_env 1000 (HttpReply 503 None) (HttpFails RequestException) in
  get_oauth_token E initial_state
  = (Ok JNull, extend initial_state [token_post E sandbox_token_url initial_state]).
Proof.
  intros E.
  apply (proj2 (get_oauth_token_absorbs_request_errors E initial_state) sandbox_token_url).
  - reflexivity.
  - repeat split; reflexivity.
  - left. cbn. lia.
Defined.

Lemma search_ebay_items_without_token_witness :
  let E := ebay_env 1000 (HttpFails RequestException) (HttpFails RequestException) in
  search_ebay_items E 0%nat (state_with (JObj query_dict))
  = (Ok [], extend (state_with (JObj query_dict))
              [token_post E sandbox_token_url (state_with (JObj query_dict))]).
Proof.
  intros E.
  apply (proj2 (search_ebay_items_without_token E 0%nat (state_with (JObj query_dict))
                  ltac:(reflexivity)) sandbox_token_url).
  - repeat split; reflexivity.
  - reflexivity.
Defined.

Lemma search_ebay_items_request_failure_witness :
  let E := ebay_env 1000 token_reply (HttpReply 500 None) in
  exists s',
    search_ebay_items E 0%nat (state_with (JObj query_dict)) = (Ok [], s')
    /\ heap s' !! 0%nat = Some (JObj (<[py "limit" := JNum 50]> query_dict))
    /\ exists reply,
         trace s' = trace (get_oauth_token E (state_with (JObj query_dict))).2
                    ++ [EvSearchGet (py "https://api.sandbox.ebay.com/buy/browse/v1"
                                     ++ py "/item_summary/search")
                          sample_token (JObj (<[py "limit" := JNum 50]> query_dict)) reply].
Proof.
  intros E.
  apply (search_ebay_items_request_failure E 0%nat query_dict
           (state_with (JObj query_dict))
           (get_oauth_token E (state_with (JObj query_dict))).2
           sample_token (py "https://api.sandbox.ebay.com/buy/browse/v1")).
  - vm_compute. reflexivity.
  - reflexivity.
  - reflexivity.
  - reflexivity.
  - exists (JStr (py "thinkpad t470")). reflexivity.
  - reflexivity.
  - left. cbn. lia.
Defined.

Lemma search_ebay_items_all_or_nothing_witness :
  let E := ebay_env 1000 token_reply search_reply in
  exists items,
    (search_ebay_items E 0%nat (state_with (JObj query_dict))).1 = Ok items
    /\ length items = 1%nat.
Proof.
  intros E.
  refine (proj2 (proj2 (search_ebay_items_all_or_nothing E 0%nat query_dict
           (state_with (JObj query_dict))
           (get_oauth_token E (state_with (JObj query_dict))).2
           sample_token (py "https://api.sandbox.ebay.com/buy/browse/v1") 200
           {[ py "itemSummaries" :=
                JArr [JObj (<[ py "title" := JStr (py "ThinkPad T470") ]>
                              {[ py "price" :=
                                   JObj (<[ py "value" := JStr (py "199.00") ]>
                                           {[ py "currency" := JStr (py "USD") ]}) ]})] ]}
           [JObj (<[ py "title" := JStr (py "ThinkPad T470") ]>
                    {[ py "price" :=
                         JObj (<[ py "value" := JStr (py "199.00") ]>
                                 {[ py "currency" := JStr (py "USD") ]}) ]})]
           _ _ _ _ _ _ _ _ _)) _).
  - vm_compute. reflexivity.
  - reflexivity.
  - reflexivity.
  - reflexivity.
  - exists (JStr (py "thinkpad t470")). reflexivity.
  - reflexivity.
  - reflexivity.
  - lia.
  - reflexivity.
  - constructor; [| constructor].
    eexists _, _. split; [reflexivity |]. vm_compute. reflexivity.
Defined.

(** ** The mailbox and the chat *)

Lemma find_char_first (c : N) (pre rest : str) :
  ~ In c pre -> find_char c (pre ++ c :: rest) = length pre.
Proof.
  induction pre as [|a pre IH]; intros Hnot.
  - cbn [app find_char]. rewrite N.eqb_refl. reflexivity.
  - cbn [app find_char length].
    destruct (N.eqb_spec a c) as [-> | Hne].
    + exfalso. apply Hnot. left. reflexivity.
    + f_equal. apply IH. intros Hin. apply Hnot. right. exact Hin.
Qed.

Lemma existsb_eqb_In (c : N) (s : str) : existsb (N.eqb c) s = true <-> In c s.
Proof.
  rewrite existsb_exists. split.
  - intros (x & Hin & Heq). apply N.eqb_eq in Heq. subst. exact Hin.
  - intros Hin. exists c. split; [exact Hin | apply N.eqb_refl].
Qed.

Lemma existsb_eqb_not_In (c : N) (s : str) : ~ In c s -> existsb (N.eqb c) s = false.
Proof.
  intros H. apply not_true_is_false. intros Hex. apply H, existsb_eqb_In, Hex.
Qed.

Lemma after_last_unique (c : N) (pre rest : str) :
  ~ In c rest -> after_last c (pre ++ c :: rest) = rest.
Proof.
  intros Hrest. induction pre as [|a pre IH].
  - cbn [app after_last]. rewrite (existsb_eqb_not_In c rest Hrest), N.eqb_refl.
    reflexivity.
  - cbn [app after_last].
    assert (existsb (N.eqb c) (pre ++ c :: rest) = true) as ->.
    { apply existsb_eqb_In, in_or_app. right. left. reflexivity. }
    exact IH.
Qed.

Lemma strip_char_trailing (c : N) (s : str) :
  ~ In c s -> strip_char c (s ++ [c]) = s.
Proof.
  intros Hnot. unfold strip_char.
  destruct s as [|a s].
  - cbn [app lstrip_with]. rewrite N.eqb_refl. reflexivity.
  - assert (N.eqb c a = false) as Ha.
    { apply N.eqb_neq. intros ->. apply Hnot. left. reflexivity. }
    cbn [app]. rewrite lstrip_with_head by exact Ha.
    change (a :: s ++ [c]) with ((a :: s) ++ [c]).
    rewrite (rstrip_with_spaces (N.eqb c) [c] (a :: s))
      by (constructor; [apply N.eqb_refl | constructor]).
    destruct (rev s) as [|z tser] eqn:Hrev.
    + apply (f_equal (@rev N)) in Hrev. rewrite rev_involutive in Hrev. subst s.
      apply (rstrip_with_last (N.eqb c) [] a Ha).
    + apply (f_equal (@rev N)) in Hrev. rewrite rev_involutive in Hrev.
      cbn [rev] in Hrev. subst s.
      change (a :: rev tser ++ [z]) with ((a :: rev tser) ++ [z]).
      apply rstrip_with_last. apply N.eqb_neq. intros ->.
      apply Hnot. right. apply in_or_app. right. left. reflexivity.
Qed.

Lemma reply_recipient_angle (name address rest : str) :
  no_angle name -> no_angle address ->
  reply_recipient (name ++ lt_sign :: address ++ gt_sign :: rest) = address.
Proof.
  intros [Hn1 Hn2] [Ha1 Ha2]. unfold reply_recipient.
  assert (existsb (N.eqb lt_sign) (name ++ lt_sign :: address ++ gt_sign :: rest)
          = true) as ->.
  { apply existsb_eqb_In, in_or_app. right. left. reflexivity. }
  assert (existsb (N.eqb gt_sign) (name ++ lt_sign :: address ++ gt_sign :: rest)
          = true) as ->.
  { apply existsb_eqb_In, in_or_app. right. right.
    apply in_or_app. right. left. reflexivity. }
  cbn [andb].
  rewrite (find_char_first lt_sign name _ Hn1).
  assert (find_char gt_sign (name ++ lt_sign :: address ++ gt_sign :: rest)
          = (length name + 1 + length address)%nat) as ->.
  { transitivity (find_char gt_sign ((name ++ lt_sign :: address) ++ gt_sign :: rest)).
    - f_equal. rewrite <- app_assoc. reflexivity.
    - rewrite find_char_first.
      + rewrite length_app. cbn [length]. lia.
      + intros Hin. apply in_app_or in Hin. destruct Hin as [Hin | Hin]; [tauto |].
        destruct Hin as [Heq | Hin]; [discriminate | tauto]. }
  unfold slice.
  replace (name ++ lt_sign :: address ++ gt_sign :: rest)
    with ((name ++ [lt_sign]) ++ address ++ gt_sign :: rest)
    by (rewrite <- app_assoc; reflexivity).
  replace (length name + 1)%nat with (length (name ++ [lt_sign]))
    by (rewrite length_app; reflexivity).
  rewrite drop_app_length.
  replace (length (name ++ [lt_sign]) + length address - length (name ++ [lt_sign]))%nat
    with (length address) by lia.
  apply take_app_length.
Qed.

Section MailAndChat.

Variable E : Env.

(** X13.  [list_unread_emails] never raises and makes exactly one list request.
    What it returns has a length; it is the empty list when the request
    fails, when the answer is not a dict and when [messages] is [None] or
    a number. *)
Theorem list_unread_emails_total (s : state) :
  exists v q r,
    list_unread_emails E s = (Ok v, extend s [EvGmailList q r])
    /\ r = messages_list (world E) (trace s) q
    /\ py_has_len v = true
    /\ (forall e, r = Raise e -> v = JArr [])
    /\ (forall d, r = Ok (JObj d) ->
        v = if py_has_len (default (JArr []) (d !! py "messages"))
            then default (JArr []) (d !! py "messages") else JArr []).
Proof.
  unfold list_unread_emails, bind, try_, history, emit, lift, ret, raise.
  cbn [trace oauth_token token_expiry_time heap].
  match goal with
  | |- context [messages_list (world E) (trace s) ?q] =>
      set (query := q); destruct (messages_list (world E) (trace s) query) as [resp | e] eqn:Hr
  end.
  - destruct (py_get resp (py "messages") (JArr [])) as [messages | e] eqn:Hget.
    + destruct (py_has_len messages) eqn:Hlen.
      * exists messages, query, (Ok resp). rewrite Hr.
        repeat split; auto; try discriminate.
        intros d [= ->]. cbn [py_get] in Hget. injection Hget as <-.
        rewrite Hlen. reflexivity.
      * exists (JArr []), query, (Ok resp). rewrite Hr.
        repeat split; auto; try discriminate.
        intros d [= ->]. cbn [py_get] in Hget. injection Hget as <-.
        rewrite Hlen. reflexivity.
    + exists (JArr []), query, (Ok resp). rewrite Hr.
      repeat split; auto; try discriminate.
      intros d [= ->]. discriminate.
  - exists (JArr []), query, (Raise e). rewrite Hr.
    repeat split; auto; discriminate.
Qed.

(** X14.  [send_reply] never raises and sends at most one message; it returns
    [True] exactly when the send request answered with a dict that has an
    [id] -- so a message that was sent but answered otherwise is reported
    as not sent. *)
Theorem send_reply_total (original_email_data : email_data) (reply_body : str)
    (s : state) :
  exists b new,
    send_reply E original_email_data reply_body s = (Ok b, extend s new)
    /\ (new = []
        \/ exists raw r,
             new = [EvGmailSend raw (opt_json (thread_id original_email_data)) r])
    /\ (b = true <->
        exists raw d,
          new = [EvGmailSend raw (opt_json (thread_id original_email_data)) (Ok (JObj d))]
          /\ is_Some (d !! py "id")).
Proof.
  unfold send_reply.
  destruct (negb (opt_truthy (sender original_email_data))).
  { exists false, []. unfold ret. rewrite extend_nil.
    split; [reflexivity |]. split; [auto |].
    split; [discriminate | intros (? & ? & ? & _); discriminate]. }
  destruct (negb (opt_truthy (message_id_header original_email_data))).
  { exists false, []. unfold ret. rewrite extend_nil.
    split; [reflexivity |]. split; [auto |].
    split; [discriminate | intros (? & ? & ? & _); discriminate]. }
  unfold bind, try_, lift, history, emit, ret.
  destruct (reply_message E original_email_data reply_body) as [raw | e].
  2:{ exists false, []. rewrite extend_nil.
      split; [reflexivity |]. split; [auto |].
      split; [discriminate | intros (? & ? & ? & _); discriminate]. }
  cbn [trace oauth_token token_expiry_time heap].
  destruct (messages_send (world E) (trace s) raw
              (opt_json (thread_id original_email_data))) as [sent | e] eqn:Hsend.
  2:{ exists false, [EvGmailSend raw (opt_json (thread_id original_email_data)) (Raise e)].
      split; [reflexivity |]. split; [eauto |].
      split; [discriminate | intros (? & ? & [= _ ?] & _); discriminate]. }
  destruct (py_getitem sent (py "id")) as [x | e] eqn:Hid.
  - exists true, [EvGmailSend raw (opt_json (thread_id original_email_data)) (Ok sent)].
    split; [reflexivity |]. split; [eauto |].
    split; [| reflexivity]. intros _.
    destruct sent as [| | | | | d]; try discriminate.
    exists raw, d. split; [reflexivity |].
    cbn [py_getitem] in Hid. destruct (d !! py "id"); [eauto | discriminate].
  - exists false, [EvGmailSend raw (opt_json (thread_id original_email_data)) (Ok sent)].
    split; [reflexivity |]. split; [eauto |].
    split; [discriminate |]. intros (? & d' & [= _ ->] & [x Hsome]).
    cbn [py_getitem] in Hid. rewrite Hsome in Hid. discriminate.
Qed.

(** What one run of [forward_to_support] does: it sends at most one
    message, answers [True] exactly when that message was delivered, and
    sends nothing when it raises. *)
Lemma forward_to_support_spec (email : email_data) (s : state) :
  exists out new,
    forward_to_support E email s = (out, extend s new)
    /\ (new = [] \/ exists chat t r, new = [EvTelegramSend chat t r])
    /\ (out = Ok true <-> exists chat t, new = [EvTelegramSend chat t (Ok tt)])
    /\ (forall e, out = Raise e -> new = [])
    /\ (sender email = None -> new = [] /\ out <> Ok true).
Proof.
  assert (forall out : result bool,
            out <> Ok true ->
            (([] : list event) = [] \/ exists chat t r, [] = [EvTelegramSend chat t r])
            /\ (out = Ok true <-> exists chat t, [] = [EvTelegramSend chat t (Ok tt)])
            /\ (forall e, out = Raise e -> ([] : list event) = [])
            /\ (sender email = None -> ([] : list event) = [] /\ out <> Ok true)) as Hquiet.
  { intros out Hout. split; [auto |]. split; [| auto].
    split; [contradiction | intros (? & ? & ?); discriminate]. }
  unfold forward_to_support.
  destruct (negb (opt_truthy (TELEGRAM_BOT_TOKEN (cfg E)))
            || negb (opt_truthy (TELEGRAM_CHAT_ID (cfg E)))).
  { exists (Ok false), []. unfold ret. rewrite extend_nil.
    split; [reflexivity | apply Hquiet; discriminate]. }
  unfold bind, lift.
  destruct (telegram_Bot (lib E) (default [] (TELEGRAM_BOT_TOKEN (cfg E)))) as [[] | e].
  2:{ exists (Raise e), []. rewrite extend_nil.
      split; [reflexivity | apply Hquiet; discriminate]. }
  destruct (sender email) as [sender |] eqn:Hsender.
  2:{ exists (Raise TypeError), []. unfold raise. rewrite extend_nil.
      split; [reflexivity | apply Hquiet; discriminate]. }
  unfold try_, bind, history, emit, lift, ret.
  cbn [trace oauth_token token_expiry_time heap].
  match goal with
  | |- context [bot_send_message (world E) (trace s) ?c ?t] =>
      destruct (bot_send_message (world E) (trace s) c t) as [[] | e] eqn:Hsend;
      [ exists (Ok true), [EvTelegramSend c t (Ok tt)]
      | exists (Ok false), [EvTelegramSend c t (Raise e)] ]
  end.
  - split; [reflexivity |]. split; [eauto |]. split; [split; eauto |].
    split; [discriminate | discriminate].
  - split; [reflexivity |]. split; [eauto |].
    split; [split; [discriminate | intros (? & ? & [= _ _ ?]); discriminate] |].
    split; [discriminate | discriminate].
Qed.

(** X15.  [run_async_forward] never raises and sends at most one chat message,
    also when the coroutine is run a second time; it returns [True] exactly
    when that message was delivered. *)
Theorem run_async_forward_total (email : email_data) (s : state) :
  exists b new,
    run_async_forward E email s = (Ok b, extend s new)
    /\ (new = [] \/ exists chat t r, new = [EvTelegramSend chat t r])
    /\ (b = true <-> exists chat t, new = [EvTelegramSend chat t (Ok tt)]).
Proof.
  assert (forall out new,
            (out = Ok true <-> exists chat t, new = [EvTelegramSend chat t (Ok tt)]) ->
            forall b, out = Ok b ->
            (b = true <-> exists chat t, new = [EvTelegramSend chat t (Ok tt)])) as Hiff.
  { intros out new H b ->. rewrite <- H. split; congruence. }
  assert (forall new : list event,
            new = [] ->
            (false = true <-> exists chat t, new = [EvTelegramSend chat t (Ok tt)])) as Hno.
  { intros new ->. split; [discriminate | intros (? & ? & ?); discriminate]. }
  unfold run_async_forward, bind, try_, history, lift, ret.
  destruct (get_event_loop (world E) (trace s)) as [[] | e1].
  - destruct (forward_to_support_spec email s)
      as (out & new & -> & Hnew & Htrue & Hraise & _).
    destruct out as [b | e].
    + exists b, new. split; [reflexivity |]. split; [exact Hnew | exact (Hiff _ _ Htrue b eq_refl)].
    + rewrite (Hraise e eq_refl). rewrite extend_nil.
      destruct (is_RuntimeError e).
      * destruct (asyncio_run (world E) (trace s)) as [[] | e2].
        -- destruct (forward_to_support_spec email s)
             as (out' & new' & -> & Hnew' & Htrue' & Hraise' & _).
           destruct out' as [b | e'].
           ++ exists b, new'. split; [reflexivity |].
              split; [exact Hnew' | exact (Hiff _ _ Htrue' b eq_refl)].
           ++ exists false, new'. split; [reflexivity |].
              split; [exact Hnew' |]. apply Hno. exact (Hraise' e' eq_refl).
        -- exists false, []. rewrite extend_nil. split; [reflexivity |]. auto.
      * exists false, []. rewrite extend_nil. split; [reflexivity |]. auto.
  - destruct (is_RuntimeError e1).
    + destruct (asyncio_run (world E) (trace s)) as [[] | e2].
      * destruct (forward_to_support_spec email s)
          as (out' & new' & -> & Hnew' & Htrue' & Hraise' & _).
        destruct out' as [b | e'].
        -- exists b, new'. split; [reflexivity |].
           split; [exact Hnew' | exact (Hiff _ _ Htrue' b eq_refl)].
        -- exists false, new'. split; [reflexivity |].
           split; [exact Hnew' |]. apply Hno. exact (Hraise' e' eq_refl).
      * exists false, []. rewrite extend_nil. split; [reflexivity |]. auto.
    + exists false, []. rewrite extend_nil. split; [reflexivity |]. auto.
Qed.

(** X16.  A message without a sender cannot be escalated: [run_async_forward]
    returns [False] and sends nothing. *)
Theorem run_async_forward_without_sender (email : email_data) (s : state) :
  sender email = None ->
  run_async_forward E email s = (Ok false, s).
Proof.
  intros Hsender.
  assert (exists out, forward_to_support E email s = (out, s) /\ out <> Ok true)
    as (out & Hrun & Hout).
  { destruct (forward_to_support_spec email s)
      as (out & new & Hrun & _ & _ & _ & Hnone).
    destruct (Hnone Hsender) as [-> Hout]. rewrite extend_nil in Hrun. eauto. }
  unfold run_async_forward, bind, try_, history, lift, ret.
  destruct (get_event_loop (world E) (trace s)) as [[] | e1].
  - rewrite Hrun. destruct out as [[|] | e]; [congruence | reflexivity |].
    destruct (is_RuntimeError e); [| reflexivity].
    destruct (asyncio_run (world E) (trace s)) as [[] | e2]; [| reflexivity].
    rewrite Hrun. reflexivity.
  - destruct (is_RuntimeError e1); [| reflexivity].
    destruct (asyncio_run (world E) (trace s)) as [[] | e2]; [| reflexivity].
    rewrite Hrun. destruct out as [[|] | e]; [congruence | reflexivity | reflexivity].
Qed.

(** X17.  For a sender of the form [name <address>], the reply goes to the
    address, and the escalation names the same address to write to. *)
Theorem sender_address_extracted (email : email_data) (name address : str)
    (reply_body : str) (s : state) :
  no_angle name -> no_angle address ->
  sender email = Some (angle_sender name address) ->
  reply_message E email reply_body =
    encode_reply (lib E) address (py "Re: " ++ format_opt (subject email))
      (default [] (message_id_header email)) reply_body
  /\ (opt_truthy (TELEGRAM_BOT_TOKEN (cfg E)) = true ->
      opt_truthy (TELEGRAM_CHAT_ID (cfg E)) = true ->
      telegram_Bot (lib E) (default [] (TELEGRAM_BOT_TOKEN (cfg E))) = Ok tt ->
      exists b t r,
        forward_to_support E email s
          = (Ok b, extend s [EvTelegramSend (default [] (TELEGRAM_CHAT_ID (cfg E))) t r])
        /\ tg_sender_email t = address
        /\ tg_sender t = angle_sender name address).
Proof.
  intros Hname Haddress Hsender. split.
  - unfold reply_message. rewrite Hsender. cbn [default from_option id].
    unfold angle_sender. cbn [app].
    rewrite (reply_recipient_angle name address [] Hname Haddress). reflexivity.
  - intros Htoken Hchat Hbot. unfold forward_to_support.
    rewrite Htoken, Hchat. cbn [negb orb]. unfold bind at 1, lift. rewrite Hbot.
    rewrite Hsender.
    unfold try_, bind, history, emit, lift, ret.
    cbn [trace oauth_token token_expiry_time heap].
    assert (existsb (N.eqb lt_sign) (angle_sender name address) = true) as ->.
    { apply existsb_eqb_In. unfold angle_sender. apply in_or_app. right. left.
      reflexivity. }
    assert (strip_char gt_sign (after_last lt_sign (angle_sender name address)) = address)
      as ->.
    { unfold angle_sender. cbn [app].
      rewrite after_last_unique.
      - apply strip_char_trailing. apply Haddress.
      - intros Hin. apply in_app_or in Hin. destruct Hin as [Hin | [Heq | []]].
        + apply Haddress in Hin. exact Hin.
        + discriminate. }
    match goal with
    | |- context [bot_send_message (world E) (trace s) ?c ?t] =>
        destruct (bot_send_message (world E) (trace s) c t) as [[] | e]
    end; eexists _, _, _; split; try reflexivity; split; reflexivity.
Qed.

(** [get_email_details] makes one get request.  It returns [None] only for
    an [HttpError]; every other failure, of the request or of the reading
    of the message, leaves it as an [AttributeError], because the handler
    that follows names an attribute the [base64] module does not have. *)
Lemma get_email_details_run (message_id : json) (s : state) :
  let r := messages_get (world E) (trace s) message_id in
  let read := message <~ r ;; extract_email_data (lib E) message_id message in
  get_email_details E message_id s =
    (match read with
     | Ok email => Ok (Some email)
     | Raise e => if is_HttpError e then Ok None else Raise AttributeError
     end,
     extend s [EvGmailGet message_id r]).
Proof.
  intros r read. subst read.
  unfold get_email_details, bind, try_, history, emit, lift, ret, raise.
  cbn [trace oauth_token token_expiry_time heap]. fold r.
  destruct r as [message | e]; cbn [rbind].
  - destruct (extract_email_data (lib E) message_id message) as [email | e];
      [reflexivity |]. destruct (is_HttpError e); reflexivity.
  - destruct (is_HttpError e); reflexivity.
Qed.

End MailAndChat.

Lemma run_async_forward_without_sender_witness :
  run_async_forward (mail_env (Raise HttpError) (Raise HttpError) (Ok tt) (Ok tt))
    details_without_sender initial_state = (Ok false, initial_state).
Proof.
  apply (run_async_forward_without_sender
           (mail_env (Raise HttpError) (Raise HttpError) (Ok tt) (Ok tt))
           details_without_sender initial_state).
  reflexivity.
Defined.

Lemma sender_address_extracted_witness :
  let E := mail_env (Raise HttpError) (Raise HttpError) (Ok tt) (Ok tt) in
  reply_message E sample_details (py "We have one in stock.") =
    encode_reply (lib E) (py "ann@example.com")
      (py "Re: " ++ format_opt (subject sample_details))
      (default [] (message_id_header sample_details)) (py "We have one in stock.")
  /\ (opt_truthy (TELEGRAM_BOT_TOKEN (cfg E)) = true ->
      opt_truthy (TELEGRAM_CHAT_ID (cfg E)) = true ->
      telegram_Bot (lib E) (default [] (TELEGRAM_BOT_TOKEN (cfg E))) = Ok tt ->
      exists b t r,
        forward_to_support E sample_details initial_state
          = (Ok b, extend initial_state
                     [EvTelegramSend (default [] (TELEGRAM_CHAT_ID (cfg E))) t r])
        /\ tg_sender_email t = py "ann@example.com"
        /\ tg_sender t = angle_sender (py "Ann ") (py "ann@example.com")).
Proof.
  intros E.
  apply (sender_address_extracted E sample_details (py "Ann ") (py "ann@example.com")
           (py "We have one in stock.") initial_state).
  - split; intros H; vm_compute in H; intuition discriminate.
  - split; intros H; vm_compute in H; intuition discriminate.
  - reflexivity.
Defined.

(** ** The shape of a dispatch cycle *)

Section DispatcherShape.

Context {S : Type} (h : handler S) (L : PyLib).

(** One step of the dispatcher, keeping what each test found. *)
Ltac cycle_step :=
  cbn [run catch pbind plift call record_call app fst snd negb];
  match goal with
  | |- context [plift ?x] => destruct x as [?v | ?e] eqn:?
  | |- context [h ?T ?op ?s] => destruct (h T op s) as [[?r | ?e] ?s]
  | |- context [truthy ?v] => destruct (truthy v) eqn:?
  | |- context [match body ?d with _ => _ end] => destruct (body d) eqn:?Hbody
  | |- context [bool_decide ?P] => destruct (bool_decide_reflect P)
  | |- context [match ?x with _ => _ end] => is_var x; destruct x
  | |- context [if ?x then _ else _] => is_var x; destruct x
  | |- context [negb ?x] => is_var x; destruct x
  end.

Ltac run_cycle :=
  unfold process_pubsub_message, forward_and_mark;
  repeat cycle_step;
  cbn [run catch pbind plift call record_call app fst snd negb].

(** The hypothesis that a call is in the log, case by case. *)
Ltac pick_call H :=
  cbn [In] in H;
  repeat (destruct H as [H | H]; [try discriminate H |]);
  try contradiction.

(** X18.  No service function is called twice in a cycle; a cycle that sends a
    reply, or only asks for one, does not escalate; and [mark_as_read],
    when it is called, is the last call. *)
Theorem dispatch_calls_once (pubsub_message_data : str) (s : S) :
  let log := (run h (process_pubsub_message L pubsub_message_data) s []).2 in
  NoDup (map call_name log)
  /\ ~ (In Name_send_reply (map call_name log)
        /\ In Name_run_async_forward (map call_name log))
  /\ ~ (In Name_generate_response (map call_name log)
        /\ In Name_run_async_forward (map call_name log))
  /\ (forall c, In c log -> call_name c = Name_mark_as_read -> last log = Some c).
Proof.
  run_cycle.
  all: cbn [map call_name].
  all: split;
       [repeat (apply NoDup_cons_2;
                [intros Hx;
                 repeat (apply elem_of_cons in Hx; destruct Hx as [Hx | Hx];
                         [discriminate Hx |]);
                 apply elem_of_nil in Hx; exact Hx |]);
        apply NoDup_nil_2 |].
  all: split; [cbn [In]; intuition discriminate |].
  all: split; [cbn [In]; intuition discriminate |].
  all: intros c Hin Hname; cbn [In] in Hin;
       repeat (destruct Hin as [Hin | Hin]; [subst c; try discriminate Hname |]);
       try contradiction; reflexivity.
Qed.

(** X19.  A reply is sent only when everything before it went well: the message
    was fetched, it was classified as PROCESS, the parameters are truthy and
    pass the test for [q] (which is [in]: a dict with the key, but also a
    list or a string that contains it), the search found items, the items
    were judged sufficient and the reply text was generated and is not
    empty; what is sent is that text, to that message. *)
Theorem reply_only_when_supported (pubsub_message_data : str) (s : S)
    (d : email_data) (t : str) (r : result bool) :
  let log := (run h (process_pubsub_message L pubsub_message_data) s []).2 in
  In (Called_send_reply d t r) log ->
  exists id params items,
    fetched log = Some (id, d)
    /\ In (Called_classify_email (subject d) (body d) (Ok (Some (py "PROCESS")))) log
    /\ In (Called_generate_ebay_search_params (body d) (Ok params)) log
    /\ truthy params = true
    /\ py_in (py "q") params = Ok true
    /\ In (Called_search_ebay_items params (Ok items)) log
    /\ items <> []
    /\ In (Called_evaluate_knowledge_relevance (body d) items (Ok true)) log
    /\ In (Called_generate_response (subject d) (body d) items (Ok (Some t))) log
    /\ t <> [].
Proof.
  run_cycle.
  all: intros Hin; pick_call Hin.
  all: injection Hin as <- <- <-.
  all: subst; rewrite ?Hbody.
  all: eexists _, _, _.
  all: repeat (split; [first [ reflexivity | eassumption | discriminate
                             | cbn [In]; repeat first [left; reflexivity | right] ] |]).
  all: discriminate.
Qed.

(** X20.  The two short cuts.  A message with an empty body is marked as read
    and nothing else is called for it; a message classified as SPAM is
    marked as read right after its classification. *)
Theorem dispatch_short_cuts (pubsub_message_data : str) (s : S)
    (id : json) (d : email_data) :
  let log := (run h (process_pubsub_message L pubsub_message_data) s []).2 in
  fetched log = Some (id, d) ->
  (body d = [] ->
   exists listing marked,
     log = [Called_list_unread_emails (Ok listing);
            Called_get_email_details id (Ok (Some d));
            Called_mark_as_read id marked])
  /\ (existsb classified_spam log = true ->
      exists listing marked,
        log = [Called_list_unread_emails (Ok listing);
               Called_get_email_details id (Ok (Some d));
               Called_classify_email (subject d) (body d) (Ok (Some (py "SPAM")));
               Called_mark_as_read id marked]).
Proof.
  run_cycle.
  all: intros Hf; cbn [fetched] in Hf; try discriminate Hf; injection Hf as <- <-.
  all: split.
  all: try (intros Hempty; rewrite Hempty in *; try discriminate; eauto; fail).
  all: cbn [existsb classified_spam orb]; subst; rewrite ?Hbody.
  all: try (intros Hspam; discriminate Hspam).
  all: try (intros _; eauto; fail).
  all: unfold str_eqb;
       repeat match goal with
         | |- context [match ?x with _ => _ end] => is_var x; destruct x
         end;
       try (intros Hspam; discriminate Hspam).
  all: rewrite ?orb_false_r; intros Hspam; apply bool_decide_eq_true_1 in Hspam;
       congruence.
Qed.

(** X21.  A cycle handles the first listed message and no other: the message it
    fetches is the one named by the first entry of the listing, and what it
    escalates is the message it fetched, which has a body and was not
    classified as SPAM. *)
Theorem dispatch_first_unread_only (pubsub_message_data : str) (s : S) :
  let log := (run h (process_pubsub_message L pubsub_message_data) s []).2 in
  (forall id r,
     In (Called_get_email_details id r) log ->
     exists listing summary,
       In (Called_list_unread_emails (Ok listing)) log
       /\ truthy listing = true
       /\ py_first listing = Ok summary
       /\ py_get summary (py "id") JNull = Ok id
       /\ truthy id = true)
  /\ (forall d r,
        In (Called_run_async_forward d r) log ->
        exists id,
          fetched log = Some (id, d)
          /\ body d <> []
          /\ existsb classified_spam log = false).
Proof.
  run_cycle.
  all: split.
  all: try (intros ? ? Hin; pick_call Hin; fail).
  all: try (intros ? ? Hin; pick_call Hin; injection Hin as <- <-;
            eexists _, _;
            repeat (split; [first [ eassumption
                                  | cbn [In]; repeat first [left; reflexivity | right] ] |]);
            eassumption).
  all: intros ? ? Hin; pick_call Hin; injection Hin as <- <-.
  all: eexists; split; [reflexivity |].
  all: rewrite ?Hbody; split; [discriminate |].
  all: cbn [existsb classified_spam orb]; unfold str_eqb.
  all: repeat match goal with
         | |- context [match ?x with _ => _ end] => is_var x; destruct x
         end; try reflexivity.
  all: rewrite ?orb_false_r; apply bool_decide_eq_false_2; congruence.
Qed.

(** X22.  The notification is acknowledged whenever its data can be decoded,
    whatever the services do: nothing in the cycle makes the callback nack.
    A nack follows only from undecodable data or from a failing ack. *)
Theorem callback_acks (data : result str) (ack : result unit) (s : S) :
  let actions := (process_message_callback h L data ack s).1.1 in
  (forall data_str, data = Ok data_str -> head actions = Some (Ack ack))
  /\ (In Nack actions <-> (exists e, data = Raise e) \/ (exists e, ack = Raise e))
  /\ (forall data_str, data = Ok data_str -> ack = Ok tt -> actions = [Ack (Ok tt)]).
Proof.
  unfold process_message_callback.
  destruct data as [data_str | e].
  - pose proof (process_pubsub_message_returns h L data_str s) as Hret.
    destruct (run h (process_pubsub_message L data_str) s []) as [[r s'] log].
    cbn [fst] in Hret. subst r.
    destruct ack as [[] | e]; cbn [fst head].
    + split; [reflexivity |]. split; [| reflexivity].
      split.
      * intros [H | []]. discriminate H.
      * intros [[e H] | [e H]]; discriminate H.
    + split; [reflexivity |]. split; [| discriminate].
      split; [eauto | intros _; right; left; reflexivity].
  - cbn [fst head]. split; [discriminate |]. split; [| discriminate].
    split; [eauto | intros _; left; reflexivity].
Qed.

End DispatcherShape.

Lemma reply_only_when_supported_witness :
  let log := (run scripted_services
                (process_pubsub_message sample_lib notification_text) tt []).2 in
  exists id params items,
    fetched log = Some (id, sample_details)
    /\ In (Called_classify_email (subject sample_details) (body sample_details)
             (Ok (Some (py "PROCESS")))) log
    /\ In (Called_generate_ebay_search_params (body sample_details) (Ok params)) log
    /\ truthy params = true
    /\ py_in (py "q") params = Ok true
    /\ In (Called_search_ebay_items params (Ok items)) log
    /\ items <> []
    /\ In (Called_evaluate_knowledge_relevance (body sample_details) items (Ok true)) log
    /\ In (Called_generate_response (subject sample_details) (body sample_details) items
             (Ok (Some (py "We have one in stock.")))) log
    /\ py "We have one in stock." <> [].
Proof.
  apply (reply_only_when_supported scripted_services sample_lib notification_text tt
           sample_details (py "We have one in stock.") (Ok true)).
  vm_compute. tauto.
Defined.

Lemma dispatch_short_cuts_witness :
  let log := (run (scripted sample_details (Some (py "SPAM")))
                (process_pubsub_message sample_lib notification_text) tt []).2 in
  (body sample_details = [] ->
   exists listing marked,
     log = [Called_list_unread_emails (Ok listing);
            Called_get_email_details (JStr (py "m1")) (Ok (Some sample_details));
            Called_mark_as_read (JStr (py "m1")) marked])
  /\ (existsb classified_spam log = true ->
      exists listing marked,
        log = [Called_list_unread_emails (Ok listing);
               Called_get_email_details (JStr (py "m1")) (Ok (Some sample_details));
               Called_classify_email (subject sample_details) (body sample_details)
                 (Ok (Some (py "SPAM")));
               Called_mark_as_read (JStr (py "m1")) marked]).
Proof.
  apply (dispatch_short_cuts (scripted sample_details (Some (py "SPAM"))) sample_lib
           notification_text tt (JStr (py "m1")) sample_details).
  vm_compute. reflexivity.
Defined.

(** ** What a cycle asks of the outside *)

Lemma weigh_app (m : event -> Z) (l1 l2 : list event) :
  weigh m (l1 ++ l2) = weigh m l1 + weigh m l2.
Proof.
  induction l1 as [| ev l1 IH]; cbn [app weigh foldr]; [reflexivity |].
  fold (weigh m (l1 ++ l2)). fold (weigh m l1). lia.
Qed.

Lemma step_of_attempt (l : list event) (rest : list step_kind) :
  map step_of l = Attempt :: rest ->
  exists m p r l', l = EvGenerate m p r :: l' /\ map step_of l' = rest.
Proof.
  destruct l as [| [] l']; cbn [map step_of]; intros H; try discriminate H.
  injection H as H. eauto 6.
Qed.

Lemma step_of_backoff (l : list event) (d : Z) (rest : list step_kind) :
  map step_of l = Backoff d :: rest ->
  exists l', l = EvSleep d :: l' /\ map step_of l' = rest.
Proof.
  destruct l as [| [] l']; cbn [map step_of]; intros H; try discriminate H.
  injection H as -> H. eauto.
Qed.

(** The traces that follow the schedule of at most three attempts. *)
Lemma model_footprint_shape (k : nat) (new : list event) :
  (k <= 3)%nat ->
  map step_of new = backoff_schedule k 5 ->
  new = []
  \/ (exists m1 p1 r1, new = [EvGenerate m1 p1 r1])
  \/ (exists m1 p1 r1 m2 p2 r2,
        new = [EvGenerate m1 p1 r1; EvSleep 5; EvGenerate m2 p2 r2])
  \/ (exists m1 p1 r1 m2 p2 r2 m3 p3 r3,
        new = [EvGenerate m1 p1 r1; EvSleep 5; EvGenerate m2 p2 r2; EvSleep 10;
               EvGenerate m3 p3 r3]).
Proof.
  intros Hk Hmap.
  destruct k as [| [| [| [| k]]]]; [| | | | lia]; cbn in Hmap.
  - left. apply map_eq_nil in Hmap. exact Hmap.
  - right; left.
    apply step_of_attempt in Hmap as (m1 & p1 & r1 & l1 & -> & Hmap).
    apply map_eq_nil in Hmap as ->. eauto.
  - right; right; left.
    apply step_of_attempt in Hmap as (m1 & p1 & r1 & l1 & -> & Hmap).
    apply step_of_backoff in Hmap as (l2 & -> & Hmap).
    apply step_of_attempt in Hmap as (m2 & p2 & r2 & l3 & -> & Hmap).
    apply map_eq_nil in Hmap as ->. eauto 10.
  - right; right; right.
    apply step_of_attempt in Hmap as (m1 & p1 & r1 & l1 & -> & Hmap).
    apply step_of_backoff in Hmap as (l2 & -> & Hmap).
    apply step_of_attempt in Hmap as (m2 & p2 & r2 & l3 & -> & Hmap).
    apply step_of_backoff in Hmap as (l4 & -> & Hmap).
    apply step_of_attempt in Hmap as (m3 & p3 & r3 & l5 & -> & Hmap).
    apply map_eq_nil in Hmap as ->. eauto 12.
Qed.

(** What a call of a service that adds [footprint n] can weigh. *)
Ltac weigh_footprint :=
  let n := fresh "n" in
  let new := fresh "new" in
  let Hfoot := fresh "Hfoot" in
  let k := fresh "k" in
  let Hk := fresh "Hk" in
  let Hsched := fresh "Hsched" in
  let asked := fresh "asked" in
  let searched := fresh "searched" in
  let Hgt := fresh "Hgt" in
  intros n new Hfoot;
  destruct n; cbn [footprint] in Hfoot;
  try (destruct Hfoot as (k & Hk & Hsched);
       destruct (model_footprint_shape k new Hk Hsched)
         as [-> | [(? & ? & ? & ->) | [(? & ? & ? & ? & ? & ? & ->)
             | (? & ? & ? & ? & ? & ? & ? & ? & ? & ->)]]]);
  try (destruct Hfoot as (asked & searched & -> & [-> | (? & ? & ? & ? & ->)]
                          & [-> | (? & ? & ? & ? & ->)]));
  try (destruct Hfoot as [-> | (? & ? & ? & ->)]);
  try (destruct Hfoot as (? & ? & ->));
  vm_compute; intros Hgt; discriminate Hgt.

Lemma footprint_attempts (n : service_name) (new : list event) :
  footprint n new ->
  weigh (requests is_attempt) new <= (if asks_model n then 3 else 0).
Proof. revert n new. weigh_footprint. Qed.

Lemma footprint_sleep (n : service_name) (new : list event) :
  footprint n new ->
  weigh sleep_seconds new <= (if asks_model n then 15 else 0).
Proof. revert n new. weigh_footprint. Qed.

Section ServiceFootprints.

Variable E : Env.

Ltac split_matches :=
  repeat match goal with
    | |- context [match ?x with _ => _ end] =>
        lazymatch x with
        | context [match _ with _ => _ end] => fail
        | _ => destruct x eqn:?
        end
    end.

(** A state that differs from [s] by the events [new] at most in its other
    fields. *)
Ltac same_trace :=
  cbn [snd trace extend]; first [reflexivity | symmetry; apply app_nil_r].

Lemma model_service_footprint {A} (model : option str) (p : prompt)
    (k : option response -> M A) (s : state) :
  (forall r s1, (k r s1).2 = s1) ->
  exists new,
    trace ((r <- call_gemini_default E model p ;; k r) s).2 = trace s ++ new
    /\ exists n, (n <= 3)%nat /\ map step_of new = backoff_schedule n 5.
Proof.
  intros Hk. unfold bind.
  destruct (call_gemini_default_spec E model p s)
    as (n & new & r & Hrun & Hn & Hsched & _).
  rewrite Hrun, Hk. exists new. split; [reflexivity | eauto].
Qed.

Lemma quiet_footprint (s : state) :
  exists new,
    trace s = trace s ++ new
    /\ exists n, (n <= 3)%nat /\ map step_of new = backoff_schedule n 5.
Proof.
  exists []. split; [symmetry; apply app_nil_r |]. exists 0%nat. split; [lia | reflexivity].
Qed.

Lemma classify_email_footprint (subject : option str) (body : str) (s : state) :
  exists new,
    trace (classify_email E subject body s).2 = trace s ++ new
    /\ footprint Name_classify_email new.
Proof.
  unfold classify_email. apply model_service_footprint.
  intros r s1. unfold has_parts, log_response_text, bind, lift, ret, rbind.
  split_matches; reflexivity.
Qed.

Lemma generate_ebay_search_params_footprint (body : str) (s : state) :
  exists new,
    trace (generate_ebay_search_params E body s).2 = trace s ++ new
    /\ footprint Name_generate_ebay_search_params new.
Proof.
  unfold generate_ebay_search_params. destruct body as [| c body].
  - apply quiet_footprint.
  - apply model_service_footprint.
    intros r s1. unfold has_parts, bind, lift, ret, rbind.
    split_matches; reflexivity.
Qed.

Lemma evaluate_knowledge_relevance_footprint (body : str) (items : list item)
    (s : state) :
  exists new,
    trace (evaluate_knowledge_relevance E body items s).2 = trace s ++ new
    /\ footprint Name_evaluate_knowledge_relevance new.
Proof.
  unfold evaluate_knowledge_relevance. destruct items as [| it items].
  - apply quiet_footprint.
  - apply model_service_footprint.
    intros r s1. unfold has_parts, log_response_text, bind, lift, ret, rbind.
    split_matches; reflexivity.
Qed.

Lemma generate_response_footprint (subject : option str) (body : str)
    (items : list item) (s : state) :
  exists new,
    trace (generate_response E subject body items s).2 = trace s ++ new
    /\ footprint Name_generate_response new.
Proof.
  unfold generate_response. destruct items as [| it items].
  - apply quiet_footprint.
  - apply model_service_footprint.
    intros r s1. unfold has_parts, log_response_text, bind, lift, ret, rbind.
    split_matches; reflexivity.
Qed.

Lemma list_unread_emails_footprint (s : state) :
  exists new,
    trace (list_unread_emails E s).2 = trace s ++ new
    /\ footprint Name_list_unread_emails new.
Proof.
  unfold list_unread_emails, bind, try_, history, emit, lift, ret, raise.
  cbn [trace oauth_token token_expiry_time heap].
  split_matches.
  all: eexists; (split; [same_trace | cbn [footprint]; eauto]).
Qed.

Lemma get_email_details_footprint (message_id : json) (s : state) :
  exists new,
    trace (get_email_details E message_id s).2 = trace s ++ new
    /\ footprint Name_get_email_details new.
Proof.
  unfold get_email_details, bind, try_, history, emit, lift, ret, raise.
  cbn [trace oauth_token token_expiry_time heap].
  split_matches.
  all: eexists; (split; [same_trace | cbn [footprint]; eauto]).
Qed.

Lemma mark_as_read_footprint (message_id : json) (s : state) :
  exists new,
    trace (mark_as_read E message_id s).2 = trace s ++ new
    /\ footprint Name_mark_as_read new.
Proof.
  rewrite mark_as_read_run.
  eexists; (split; [same_trace | cbn [footprint]; eauto]).
Qed.

Lemma send_reply_footprint (d : email_data) (t : str) (s : state) :
  exists new,
    trace (send_reply E d t s).2 = trace s ++ new
    /\ footprint Name_send_reply new.
Proof.
  unfold send_reply, bind, try_, history, emit, lift, ret, raise.
  cbn [trace oauth_token token_expiry_time heap].
  split_matches.
  all: first
    [ exists []; split; [same_trace | left; reflexivity]
    | eexists; split; [same_trace | right; eauto] ].
Qed.

Lemma forward_to_support_footprint (d : email_data) (s : state) :
  exists out new,
    forward_to_support E d s = (out, extend s new)
    /\ footprint Name_run_async_forward new
    /\ (forall e, out = Raise e -> new = []).
Proof.
  destruct (forward_to_support_spec E d s) as (out & new & Hrun & Hnew & _ & Hraise & _).
  exists out, new. split; [exact Hrun |]. split; [exact Hnew | exact Hraise].
Qed.

(** The second attempt, under [asyncio.run]. *)
Lemma forward_again_footprint (d : email_data) (s : state) :
  exists new,
    trace ((r' <- try_ (h <- history ;;
                        lift (asyncio_run (world E) h) ;;
                        forward_to_support E d) ;;
            match r' with
            | Ok result => ret result
            | Raise _ => ret false
            end) s).2 = trace s ++ new
    /\ footprint Name_run_async_forward new.
Proof.
  unfold bind, try_, history, lift, ret.
  destruct (forward_to_support_footprint d s) as (out & new & Hrun & Hnew & _).
  destruct (asyncio_run (world E) (trace s)) as [[] | e1].
  - rewrite Hrun. exists new. split; [| exact Hnew].
    destruct out; reflexivity.
  - exists []. split; [same_trace | left; reflexivity].
Qed.

Lemma run_async_forward_footprint (d : email_data) (s : state) :
  exists new,
    trace (run_async_forward E d s).2 = trace s ++ new
    /\ footprint Name_run_async_forward new.
Proof.
  unfold run_async_forward.
  unfold bind at 1. unfold try_ at 1. unfold bind at 1. unfold history at 1.
  unfold bind at 1. unfold lift at 1.
  destruct (get_event_loop (world E) (trace s)) as [[] | e0].
  - destruct (forward_to_support_footprint d s) as (out & new & Hrun & Hnew & Hraise).
    rewrite Hrun. destruct out as [b | e].
    + exists new. split; [reflexivity | exact Hnew].
    + rewrite (Hraise e eq_refl), extend_nil.
      destruct (is_RuntimeError e).
      * apply forward_again_footprint.
      * exists []. split; [same_trace | left; reflexivity].
  - destruct (is_RuntimeError e0).
    + apply forward_again_footprint.
    + exists []. split; [same_trace | left; reflexivity].
Qed.

Lemma search_ebay_items_footprint (query : nat) (s : state) :
  exists new,
    trace (search_ebay_items E query s).2 = trace s ++ new
    /\ footprint Name_search_ebay_items new.
Proof.
  unfold search_ebay_items. unfold bind at 1.
  destruct (get_oauth_token_step E s) as (_ & (asked & Htr & Hasked) & _).
  destruct (get_oauth_token E s) as [[token | e] s1]; cbn [fst snd] in Htr.
  2: { exists asked. split; [exact Htr |].
       exists asked, []. rewrite app_nil_r. auto. }
  unfold deref, get_search, heap_store.
  unfold bind, try_, get_state, history, emit, lift, ret, raise.
  cbv beta.
  repeat (match goal with
          | |- context [match ?x with _ => _ end] =>
              lazymatch x with
              | context [match _ with _ => _ end] => fail
              | _ => destruct x eqn:?
              end
          end; cbv beta iota).
  all: cbn [snd trace]; rewrite Htr.
  all: first
    [ exists asked; split; [reflexivity |];
      exists asked, []; rewrite app_nil_r; auto
    | eexists; split; [symmetry; apply app_assoc |];
      eexists asked, _; split; [reflexivity |]; split; [exact Hasked | right; eauto 6] ].
Qed.

(** Every service function appends its footprint to the trace, whatever it
    returns or raises. *)
Lemma services_footprint {T} (op : svc T) (s : state) :
  exists new,
    trace (services E T op s).2 = trace s ++ new
    /\ footprint (svc_name op) new.
Proof.
  destruct op; cbn [services svc_name].
  - apply list_unread_emails_footprint.
  - apply get_email_details_footprint.
  - apply mark_as_read_footprint.
  - apply classify_email_footprint.
  - apply generate_ebay_search_params_footprint.
  - unfold bind at 1, heap_alloc.
    apply (search_ebay_items_footprint _
             {| trace := trace s; oauth_token := oauth_token s;
                token_expiry_time := token_expiry_time s;
                heap := <[fresh (dom (heap s)) := search_params]> (heap s) |}).
  - apply evaluate_knowledge_relevance_footprint.
  - apply generate_response_footprint.
  - apply send_reply_footprint.
  - apply run_async_forward_footprint.
Qed.

End ServiceFootprints.

(** ** The cost of a cycle, for any services *)

Section CycleWeight.

Context {S : Type} (h : handler S) (L : PyLib).

(** A program leaves what the services leave: if every call extends the
    history, so does a run. *)
Lemma run_extends {A X} (tr : S -> list X) (p : prog A) :
  (forall T (op : svc T) s, exists new, tr (h T op s).2 = tr s ++ new) ->
  forall s log, exists new, tr (run h p s log).1.2 = tr s ++ new.
Proof.
  intros Hext. induction p as [a | e | T op k IH]; intros s log; cbn [run].
  - exists []. cbn. symmetry. apply app_nil_r.
  - exists []. cbn. symmetry. apply app_nil_r.
  - destruct (Hext T op s) as (new1 & H1).
    destruct (h T op s) as [r s1]. cbn [snd] in H1.
    destruct (IH r s1 (log ++ [record_call op r])) as (new2 & H2).
    exists (new1 ++ new2). rewrite H2, H1. symmetry. apply app_assoc.
Qed.

Variables (w : S -> Z) (b : service_name -> Z).

Hypothesis b_nonneg : forall n, 0 <= b n.
Hypothesis w_step : forall T (op : svc T) s, w (h T op s).2 <= w s + b (svc_name op).

Ltac weigh_step :=
  cbn [run catch pbind plift call record_call app fst snd negb];
  match goal with
  | |- context [plift ?x] => destruct x as [?v | ?e]
  | |- context [h ?T ?op ?s] =>
      let H := fresh "Hw" in
      pose proof (w_step T op s) as H;
      destruct (h T op s) as [[?r | ?e] ?s];
      cbn [snd svc_name] in H
  | |- context [truthy ?v] => destruct (truthy v)
  | |- context [match body ?d with _ => _ end] => destruct (body d)
  | |- context [bool_decide ?P] => destruct (bool_decide P)
  | |- context [match ?x with _ => _ end] => is_var x; destruct x
  | |- context [if ?x then _ else _] => is_var x; destruct x
  | |- context [negb ?x] => is_var x; destruct x
  end.

(** Whatever is counted, a cycle adds at most the budget of the calls on
    its longest path. *)
Lemma cycle_weight (pubsub_message_data : str) (s : S) :
  w (run h (process_pubsub_message L pubsub_message_data) s []).1.2
  <= w s + cycle_budget b.
Proof.
  pose proof (b_nonneg Name_list_unread_emails).
  pose proof (b_nonneg Name_get_email_details).
  pose proof (b_nonneg Name_mark_as_read).
  pose proof (b_nonneg Name_classify_email).
  pose proof (b_nonneg Name_generate_ebay_search_params).
  pose proof (b_nonneg Name_search_ebay_items).
  pose proof (b_nonneg Name_evaluate_knowledge_relevance).
  pose proof (b_nonneg Name_generate_response).
  pose proof (b_nonneg Name_send_reply).
  pose proof (b_nonneg Name_run_async_forward).
  unfold cycle_budget.
  unfold process_pubsub_message, forward_and_mark.
  repeat weigh_step.
  all: cbn [run catch pbind plift call record_call app fst snd negb].
  all: lia.
Qed.

End CycleWeight.

Section CycleRequests.

Variable E : Env.

Lemma cycle_measure (m : event -> Z) (b : service_name -> Z)
    (pubsub_message_data : str) (s : state) (new : list event) :
  (forall n, 0 <= b n) ->
  (forall n new, footprint n new -> weigh m new <= b n) ->
  trace (run (services E) (process_pubsub_message (lib E) pubsub_message_data) s []).1.2
    = trace s ++ new ->
  weigh m new <= cycle_budget b.
Proof.
  intros Hb Hfoot Htr.
  pose proof (cycle_weight (services E) (lib E) (fun st => weigh m (trace st)) b Hb)
    as Hcycle.
  cbv beta in Hcycle.
  specialize (Hcycle ltac:(
    intros T op s0;
    destruct (services_footprint E op s0) as (new0 & Htr0 & Hnew0);
    rewrite Htr0, weigh_app;
    pose proof (Hfoot _ _ Hnew0); lia) pubsub_message_data s).
  rewrite Htr, weigh_app in Hcycle. lia.
Qed.

(** X23.  One notification costs at most twelve requests to the model and sixty
    seconds of sleep, one request each for the token, the search, the
    listing, the message and the read mark, and one outgoing message, a
    reply or an escalation but not both: eighteen requests in all. *)
Theorem cycle_requests_bounded (pubsub_message_data : str) (s : state) :
  let s' :=
    (run (services E) (process_pubsub_message (lib E) pubsub_message_data) s []).1.2 in
  exists new,
    trace s' = trace s ++ new
    /\ weigh (requests is_attempt) new <= 12
    /\ weigh sleep_seconds new <= 60
    /\ weigh (requests is_token_post) new <= 1
    /\ weigh (requests is_search_get) new <= 1
    /\ weigh (requests is_gmail_list) new <= 1
    /\ weigh (requests is_gmail_get) new <= 1
    /\ weigh (requests is_gmail_modify) new <= 1
    /\ weigh (requests is_outgoing) new <= 1
    /\ weigh (requests is_network_call) new <= 18.
Proof.
  intros s'.
  destruct (run_extends (services E) trace
              (process_pubsub_message (lib E) pubsub_message_data)
              (fun T op s0 =>
                 match services_footprint E op s0 with
                 | ex_intro _ new0 (conj H _) => ex_intro _ new0 H
                 end) s []) as (new & Htr).
  exists new. split; [exact Htr |].
  pose proof (fun m b Hb Hfoot => cycle_measure m b pubsub_message_data s new Hb Hfoot Htr)
    as Hm.
  split; [| split; [| split; [| split; [| split; [| split; [| split; [| split]]]]]]].
  - apply (Hm _ (fun n => if asks_model n then 3 else 0)).
    + intros []; cbn; lia.
    + apply footprint_attempts.
  - apply (Hm _ (fun n => if asks_model n then 15 else 0)).
    + intros []; cbn; lia.
    + apply footprint_sleep.
  - apply (Hm _ (fun n => match n with Name_search_ebay_items => 1 | _ => 0 end)).
    + intros []; lia.
    + weigh_footprint.
  - apply (Hm _ (fun n => match n with Name_search_ebay_items => 1 | _ => 0 end)).
    + intros []; lia.
    + weigh_footprint.
  - apply (Hm _ (fun n => match n with Name_list_unread_emails => 1 | _ => 0 end)).
    + intros []; lia.
    + weigh_footprint.
  - apply (Hm _ (fun n => match n with Name_get_email_details => 1 | _ => 0 end)).
    + intros []; lia.
    + weigh_footprint.
  - apply (Hm _ (fun n => match n with Name_mark_as_read => 1 | _ => 0 end)).
    + intros []; lia.
    + weigh_footprint.
  - apply (Hm _ (fun n => match n with
                          | Name_send_reply | Name_run_async_forward => 1
                          | _ => 0
                          end)).
    + intros []; lia.
    + weigh_footprint.
  - apply (Hm _ (fun n => if asks_model n then 3
                          else match n with Name_search_ebay_items => 2 | _ => 1 end)).
    + intros []; cbn; lia.
    + weigh_footprint.
Qed.

End CycleRequests.

(** The bounds are reached: with a model that answers every third request,
    the reply scenario takes twelve requests to the model, sixty seconds of
    sleep and eighteen requests in all. *)
Example cycle_requests_reached :
  let out := run (services slow_env)
               (process_pubsub_message (lib slow_env) notification_text)
               initial_state [] in
  outcome_of out.2 = Some REPLIED
  /\ weigh (requests is_attempt) (trace out.1.2) = 12
  /\ weigh sleep_seconds (trace out.1.2) = 60
  /\ weigh (requests is_outgoing) (trace out.1.2) = 1
  /\ weigh (requests is_network_call) (trace out.1.2) = 18.
Proof. vm_compute. repeat split; reflexivity. Qed.

(** ** A message that cannot be fetched *)

Section FailedFetch.

Context {S : Type} (h : handler S) (L : PyLib).

Ltac fetch_step :=
  cbn [run catch pbind plift call record_call app fst snd negb];
  match goal with
  | |- context [plift ?x] => destruct x as [?v | ?e] eqn:?
  | |- context [h ?T ?op ?s] => destruct (h T op s) as [[?r | ?e] ?s] eqn:?Hcall
  | |- context [truthy ?v] => destruct (truthy v) eqn:?
  | |- context [match body ?d with _ => _ end] => destruct (body d) eqn:?Hbody
  | |- context [bool_decide ?P] => destruct (bool_decide_reflect P)
  | |- context [match ?x with _ => _ end] => is_var x; destruct x
  | |- context [if ?x then _ else _] => is_var x; destruct x
  | |- context [negb ?x] => is_var x; destruct x
  end.

(** When [get_email_details] gives no details, the cycle is the listing
    and that call. *)
Lemma failed_fetch_run (pubsub_message_data : str) (s : S) (id : json)
    (r : result (option email_data)) :
  In (Called_get_email_details id r)
     (run h (process_pubsub_message L pubsub_message_data) s []).2 ->
  (forall d, r <> Ok (Some d)) ->
  exists listing s1 s2,
    h _ Svc_list_unread_emails s = (Ok listing, s1)
    /\ h _ (Svc_get_email_details id) s1 = (r, s2)
    /\ run h (process_pubsub_message L pubsub_message_data) s []
       = (Ok tt, s2, [Called_list_unread_emails (Ok listing);
                      Called_get_email_details id r]).
Proof.
  unfold process_pubsub_message, forward_and_mark.
  repeat fetch_step.
  all: cbn [run catch pbind plift call record_call app fst snd negb].
  all: intros Hin Hnone; cbn [In] in Hin;
       repeat (destruct Hin as [Hin | Hin]; [try discriminate Hin |]);
       try contradiction.
  all: injection Hin as <- <-.
  all: try (exfalso; eapply Hnone; reflexivity).
  all: eauto 6.
Qed.

End FailedFetch.

Section FailedFetchServices.

Variable E : Env.

(** X24.  When the message cannot be fetched, the cycle ends there.  The call
    gave [None] or raised [AttributeError]; the dispatcher returns normally
    after the listing and that one request, so the message is neither
    marked as read nor escalated, and nobody is told. *)
Theorem failed_fetch_ends_cycle (pubsub_message_data : str) (s : state) (id : json)
    (r : result (option email_data)) :
  let out := run (services E) (process_pubsub_message (lib E) pubsub_message_data) s [] in
  In (Called_get_email_details id r) out.2 ->
  (forall d, r <> Ok (Some d)) ->
  (r = Ok None \/ r = Raise AttributeError)
  /\ out.1.1 = Ok tt
  /\ (exists listing,
        out.2 = [Called_list_unread_emails (Ok listing); Called_get_email_details id r])
  /\ (exists q listed got,
        trace out.1.2 = trace s ++ [EvGmailList q listed; EvGmailGet id got]
        /\ (r = Ok None <->
            got = Raise HttpError
            \/ exists message,
                 got = Ok message
                 /\ extract_email_data (lib E) id message = Raise HttpError)).
Proof.
  intros out Hin Hnone. subst out.
  destruct (failed_fetch_run (services E) (lib E) pubsub_message_data s id r Hin Hnone)
    as (listing & s1 & s2 & Hlist & Hget & Hrun).
  rewrite Hrun. cbn [fst snd].
  cbn [services] in Hlist, Hget.
  destruct (list_unread_emails_footprint E s) as (new & Htr & (q & listed & ->)).
  rewrite Hlist in Htr. cbn [snd] in Htr.
  rewrite get_email_details_run in Hget.
  injection Hget as Hr Hs2.
  assert (trace s2 = trace s ++ [EvGmailList q listed;
                                 EvGmailGet id (messages_get (world E) (trace s1) id)])
    as Htr2.
  { rewrite <- Hs2. cbn [extend trace]. rewrite Htr, <- app_assoc. reflexivity. }
  destruct (messages_get (world E) (trace s1) id) as [message | e] eqn:Hgot;
    cbn [rbind] in Hr.
  - destruct (extract_email_data (lib E) id message) as [d | e] eqn:Hread.
    + exfalso. apply (Hnone d). symmetry. exact Hr.
    + destruct e; cbn [is_HttpError] in Hr; subst r.
      all: split; [auto |]; split; [reflexivity |]; split; [eauto |].
      all: exists q, listed, (Ok message); split; [exact Htr2 |].
      all: split;
        [ intros Hx;
          first [ discriminate Hx
                | right; exists message; (split; [reflexivity | exact Hread]) ]
        | intros [Hx | (m & Hm & Hx)];
          [ discriminate Hx
          | injection Hm as <-; rewrite Hread in Hx;
            first [discriminate Hx | reflexivity] ] ].
  - destruct e; cbn [is_HttpError] in Hr; subst r.
    all: split; [auto |]; split; [reflexivity |]; split; [eauto |].
    all: eexists q, listed, _; split; [exact Htr2 |].
    all: split;
      [ intros Hx; first [discriminate Hx | left; reflexivity]
      | intros [Hx | (m & Hm & Hx)];
        [ first [discriminate Hx | reflexivity] | discriminate Hm ] ].
Qed.

End FailedFetchServices.

Lemma failed_fetch_ends_cycle_witness :
  let out := run (services unreadable_env)
               (process_pubsub_message (lib unreadable_env) notification_text)
               initial_state [] in
  ((Raise AttributeError : result (option email_data)) = Ok None
   \/ (Raise AttributeError : result (option email_data)) = Raise AttributeError)
  /\ out.1.1 = Ok tt
  /\ (exists listing,
        out.2 = [Called_list_unread_emails (Ok listing);
                 Called_get_email_details (JStr (py "m1")) (Raise AttributeError)])
  /\ (exists q listed got,
        trace out.1.2 = trace initial_state ++ [EvGmailList q listed;
                                                EvGmailGet (JStr (py "m1")) got]
        /\ ((Raise AttributeError : result (option email_data)) = Ok None <->
            got = Raise HttpError
            \/ exists message,
                 got = Ok message
                 /\ extract_email_data (lib unreadable_env) (JStr (py "m1")) message
                    = Raise HttpError)).
Proof.
  apply (failed_fetch_ends_cycle unreadable_env notification_text initial_state
           (JStr (py "m1")) (Raise AttributeError)).
  - vm_compute. tauto.
  - intros d Hd. discriminate Hd.
Defined.

(** ** Reading the fetched message *)

Section ReadMessageFacts.

Variable lower : str -> str.
Variable decode : json -> result str.

Lemma read_headers_app (l1 l2 : list json) (found : headers_found) :
  read_headers lower (l1 ++ l2) found
  = (found' <~ read_headers lower l1 found ;; read_headers lower l2 found').
Proof.
  revert found. induction l1 as [| header l1 IH]; intros found; [reflexivity |].
  cbn [app read_headers].
  destruct (py_get header (py "name") (JStr [])) as [name_value | e]; [| reflexivity].
  cbn [rbind]. destruct (py_lower lower name_value) as [name | e]; [| reflexivity].
  cbn [rbind].
  destruct (py_get header (py "value") JNull) as [value | e]; cbn [rbind].
  - repeat destruct (str_eqb name _); apply IH.
  - repeat destruct (str_eqb name _); try reflexivity; apply IH.
Qed.

(** Headers that are not [From] leave the sender as it was. *)
Lemma read_headers_keeps_sender (l : list json) (found found' : headers_found) :
  (forall h n, In (JObj h) l -> default (JStr []) (h !! py "name") = JStr n ->
               lower n <> py "from") ->
  read_headers lower l found = Ok found' ->
  found_sender found' = found_sender found.
Proof.
  revert found. induction l as [| header l IH]; intros found Hother Hread.
  - injection Hread as <-. reflexivity.
  - cbn [read_headers] in Hread.
    destruct header as [| | | | | h]; try discriminate Hread.
    cbn [py_get rbind] in Hread.
    destruct (default (JStr []) (h !! py "name")) as [| | | n | |] eqn:Hname;
      try discriminate Hread.
    cbn [py_lower rbind] in Hread.
    assert (lower n <> py "from") as Hn.
    { apply (Hother h n); [left; reflexivity | exact Hname]. }
    unfold str_eqb in Hread at 1.
    destruct (bool_decide_reflect (lower n = py "from")) as [Heq | _]; [contradiction |].
    assert (forall h0 n0, In (JObj h0) l ->
                          default (JStr []) (h0 !! py "name") = JStr n0 ->
                          lower n0 <> py "from") as Hrest.
    { intros h0 n0 Hin. apply Hother. right. exact Hin. }
    repeat destruct (str_eqb (lower n) _);
      apply (IH _ Hrest) in Hread; exact Hread.
Qed.

Lemma scan_parts_app (l1 l2 : list json) (body_html body_html' : option str) :
  scan_parts decode l1 body_html = Ok (None, body_html') ->
  scan_parts decode (l1 ++ l2) body_html = scan_parts decode l2 body_html'.
Proof.
  revert body_html. induction l1 as [| part l1 IH]; intros body_html Hscan.
  - injection Hscan as ->. reflexivity.
  - cbn [app scan_parts] in *.
    destruct (py_get part (py "mimeType") (JStr [])) as [mime_type | e];
      [| discriminate Hscan].
    cbn [rbind] in *.
    destruct (part_data part) as [part_body | e]; [| discriminate Hscan].
    cbn [rbind] in *.
    destruct (truthy part_body); [| apply IH; exact Hscan].
    destruct (decode part_body) as [decoded_body | e]; [| discriminate Hscan].
    cbn [rbind] in *.
    destruct (is_str (py "text/plain") mime_type); [discriminate Hscan |].
    destruct (is_str (py "text/html") mime_type); apply IH; exact Hscan.
Qed.

Lemma scan_sub_parts_app (l1 l2 : list json) (body_plain body_html body_html' : option str) :
  scan_sub_parts decode l1 body_plain body_html = Ok (None, body_html') ->
  scan_sub_parts decode (l1 ++ l2) body_plain body_html
  = scan_sub_parts decode l2 None body_html'.
Proof.
  revert body_html. induction l1 as [| part l1 IH]; intros body_html Hscan.
  - injection Hscan as -> ->. reflexivity.
  - cbn [app scan_sub_parts] in *.
    destruct (py_get part (py "mimeType") (JStr [])) as [mime_type | e];
      [| discriminate Hscan].
    cbn [rbind] in *.
    destruct (part_data part) as [part_body | e]; [| discriminate Hscan].
    cbn [rbind] in *.
    destruct (truthy part_body); [| apply IH; exact Hscan].
    destruct (decode part_body) as [decoded_body | e]; [| discriminate Hscan].
    cbn [rbind] in *.
    destruct (is_str (py "text/plain") mime_type); [discriminate Hscan |].
    destruct (is_str (py "text/html") mime_type && negb (opt_truthy body_html));
      apply IH; exact Hscan.
Qed.

Lemma scan_nested_app (l1 l2 : list json) (body_plain body_html body_html' : option str) :
  scan_nested decode l1 body_plain body_html = Ok (None, body_html') ->
  scan_nested decode (l1 ++ l2) body_plain body_html
  = scan_nested decode l2 None body_html'.
Proof.
  revert body_plain body_html. induction l1 as [| part l1 IH];
    intros body_plain body_html Hscan.
  - injection Hscan as -> ->. reflexivity.
  - cbn [app scan_nested] in *.
    destruct (py_get part (py "parts") JNull) as [nested | e]; [| discriminate Hscan].
    cbn [rbind] in *.
    destruct (truthy nested); [| apply IH; exact Hscan].
    destruct (py_iter nested) as [sub_parts | e]; [| discriminate Hscan].
    cbn [rbind] in *.
    destruct (scan_sub_parts decode sub_parts body_plain body_html) as [[f1 f2] | e];
      [| discriminate Hscan].
    cbn [rbind fst snd] in *.
    destruct (opt_truthy f1) eqn:Hf1.
    + injection Hscan as -> ->. discriminate Hf1.
    + apply IH. exact Hscan.
Qed.

(** The message up to the body: the payload, the thread id and the
    headers. *)
Lemma read_email_data_body (message_id : json) (m p : gmap str json)
    (hs : list json) (found : headers_found) :
  m !! py "payload" = Some (JObj p) ->
  py_iter (default (JArr []) (p !! py "headers")) = Ok hs ->
  read_headers lower hs no_headers = Ok found ->
  read_email_data lower decode message_id (JObj m)
  = (bodies <~ find_bodies decode (JObj p) (default JNull (p !! py "parts")) ;;
     Ok {| raw_message_id := message_id;
           raw_thread_id := default JNull (m !! py "threadId");
           raw_sender := found_sender found;
           raw_subject := found_subject found;
           raw_body := best_body bodies.1 bodies.2;
           raw_message_id_header := found_message_id_header found |}).
Proof.
  intros Hp Hhs Hfound. unfold read_email_data.
  cbn [py_get rbind]. rewrite Hp.
  change (default (JObj ∅) (Some (JObj p))) with (JObj p).
  cbn [py_get rbind].
  rewrite Hhs. cbn [rbind]. rewrite Hfound. reflexivity.
Qed.

(** X25.  The first plain-text part that has text is the body, whatever HTML was
    seen before it and whatever follows it: the parts after it are not
    looked at. *)
Theorem plain_text_part_preferred (message_id : json) (m p pd : gmap str json)
    (hs before after : list json) (found : headers_found) (data : json) (t : str)
    (body_html : option str) :
  m !! py "payload" = Some (JObj p) ->
  py_iter (default (JArr []) (p !! py "headers")) = Ok hs ->
  read_headers lower hs no_headers = Ok found ->
  p !! py "parts" = Some (JArr (before ++ JObj pd :: after)) ->
  scan_parts decode before None = Ok (None, body_html) ->
  pd !! py "mimeType" = Some (JStr (py "text/plain")) ->
  part_data (JObj pd) = Ok data ->
  truthy data = true ->
  decode data = Ok t ->
  t <> [] ->
  read_email_data lower decode message_id (JObj m)
  = Ok {| raw_message_id := message_id;
          raw_thread_id := default JNull (m !! py "threadId");
          raw_sender := found_sender found;
          raw_subject := found_subject found;
          raw_body := t;
          raw_message_id_header := found_message_id_header found |}.
Proof.
  intros Hp Hhs Hfound Hparts Hbefore Hmime Hdata Htruthy Hdecode Ht.
  rewrite (read_email_data_body message_id m p hs found Hp Hhs Hfound).
  rewrite Hparts.
  change (default JNull (Some (JArr (before ++ JObj pd :: after))))
    with (JArr (before ++ JObj pd :: after)).
  unfold find_bodies.
  assert (truthy (JArr (before ++ JObj pd :: after)) = true) as ->.
  { cbn [truthy]. rewrite length_app. cbn [length].
    destruct (length before + S (length after))%nat eqn:Hlen; [lia | reflexivity]. }
  cbn [py_iter rbind].
  rewrite (scan_parts_app before (JObj pd :: after) None body_html Hbefore).
  cbn [scan_parts py_get]. rewrite Hmime.
  change (default (JStr []) (Some (JStr (py "text/plain")))) with (JStr (py "text/plain")).
  cbn [rbind].
  rewrite Hdata. cbn [rbind]. rewrite Htruthy, Hdecode. cbn [rbind].
  change (is_str (py "text/plain") (JStr (py "text/plain"))) with true.
  cbn [rbind fst snd opt_truthy].
  destruct t as [| c t]; [contradiction |].
  reflexivity.
Qed.


(** X26.  Plain text inside a nested part is the body when no part at the top
    level has plain text, even if HTML was found at the top level; the
    sub-parts and the parts after it are not looked at by the second
    loop. *)
Theorem nested_plain_text_preferred (message_id : json) (m p pd sd : gmap str json)
    (hs before after sub_before sub_after : list json) (found : headers_found)
    (data : json) (t : str) (html0 html1 html2 : option str) :
  m !! py "payload" = Some (JObj p) ->
  py_iter (default (JArr []) (p !! py "headers")) = Ok hs ->
  read_headers lower hs no_headers = Ok found ->
  p !! py "parts" = Some (JArr (before ++ JObj pd :: after)) ->
  scan_parts decode (before ++ JObj pd :: after) None = Ok (None, html0) ->
  scan_nested decode before None html0 = Ok (None, html1) ->
  pd !! py "parts" = Some (JArr (sub_before ++ JObj sd :: sub_after)) ->
  scan_sub_parts decode sub_before None html1 = Ok (None, html2) ->
  sd !! py "mimeType" = Some (JStr (py "text/plain")) ->
  part_data (JObj sd) = Ok data ->
  truthy data = true ->
  decode data = Ok t ->
  t <> [] ->
  read_email_data lower decode message_id (JObj m)
  = Ok {| raw_message_id := message_id;
          raw_thread_id := default JNull (m !! py "threadId");
          raw_sender := found_sender found;
          raw_subject := found_subject found;
          raw_body := t;
          raw_message_id_header := found_message_id_header found |}.
Proof.
  intros Hp Hhs Hfound Hparts Htop Hbefore Hsub Hsubbefore Hmime Hdata Htruthy
    Hdecode Ht.
  rewrite (read_email_data_body message_id m p hs found Hp Hhs Hfound).
  rewrite Hparts.
  change (default JNull (Some (JArr (before ++ JObj pd :: after))))
    with (JArr (before ++ JObj pd :: after)).
  unfold find_bodies.
  assert (forall (l1 l2 : list json) (x : json),
            truthy (JArr (l1 ++ x :: l2)) = true) as Hnonempty.
  { intros l1 l2 x. cbn [truthy]. rewrite length_app. cbn [length].
    destruct (length l1 + S (length l2))%nat eqn:Hlen; [lia | reflexivity]. }
  rewrite Hnonempty. cbn [py_iter rbind]. rewrite Htop. cbn [rbind fst snd opt_truthy negb].
  rewrite (scan_nested_app before (JObj pd :: after) None html0 html1 Hbefore).
  cbn [scan_nested py_get]. rewrite Hsub.
  change (default JNull (Some (JArr (sub_before ++ JObj sd :: sub_after))))
    with (JArr (sub_before ++ JObj sd :: sub_after)).
  cbn [rbind]. rewrite Hnonempty. cbn [py_iter rbind].
  rewrite (scan_sub_parts_app sub_before (JObj sd :: sub_after) None html1 html2
             Hsubbefore).
  cbn [scan_sub_parts py_get]. rewrite Hmime.
  change (default (JStr []) (Some (JStr (py "text/plain")))) with (JStr (py "text/plain")).
  cbn [rbind]. rewrite Hdata. cbn [rbind]. rewrite Htruthy, Hdecode. cbn [rbind].
  change (is_str (py "text/plain") (JStr (py "text/plain"))) with true.
  cbn [rbind fst snd].
  destruct t as [| c t]; [contradiction |].
  reflexivity.
Qed.

(** X27.  The sender is the value of the last header whose name is [From] in
    any case, and [None] when there is none. *)
Theorem sender_is_last_from_header (message_id : json) (m p : gmap str json)
    (hs : list json) (d : raw_email_data) :
  read_email_data lower decode message_id (JObj m) = Ok d ->
  m !! py "payload" = Some (JObj p) ->
  default (JArr []) (p !! py "headers") = JArr hs ->
  (forall before h after n,
     hs = before ++ JObj h :: after ->
     h !! py "name" = Some (JStr n) ->
     lower n = py "from" ->
     (forall h' n', In (JObj h') after ->
                    default (JStr []) (h' !! py "name") = JStr n' ->
                    lower n' <> py "from") ->
     raw_sender d = default JNull (h !! py "value"))
  /\ ((forall h n, In (JObj h) hs ->
                   default (JStr []) (h !! py "name") = JStr n ->
                   lower n <> py "from") ->
      raw_sender d = JNull).
Proof.
  intros Hread Hp Hhs.
  unfold read_email_data in Hread. cbn [py_get rbind] in Hread.
  rewrite Hp in Hread.
  change (default (JObj ∅) (Some (JObj p))) with (JObj p) in Hread.
  cbn [py_get rbind] in Hread. rewrite Hhs in Hread. cbn [py_iter rbind] in Hread.
  destruct (read_headers lower hs no_headers) as [found | e] eqn:Hfound;
    [| discriminate Hread].
  cbn [rbind] in Hread.
  destruct (find_bodies decode (JObj p) (default JNull (p !! py "parts")))
    as [bodies | e]; [| discriminate Hread].
  cbn [rbind] in Hread. injection Hread as <-. cbn [raw_sender].
  split.
  - intros before h after n -> Hname Hn Hafter.
    rewrite read_headers_app in Hfound.
    destruct (read_headers lower before no_headers) as [found0 | e];
      [| discriminate Hfound].
    cbn [rbind read_headers py_get] in Hfound. rewrite Hname in Hfound.
    change (default (JStr []) (Some (JStr n))) with (JStr n) in Hfound.
    cbn [rbind py_lower] in Hfound. rewrite Hn in Hfound.
    change (str_eqb (py "from") (py "from")) with true in Hfound.
    cbn [rbind] in Hfound.
    apply (read_headers_keeps_sender after _ _ Hafter) in Hfound.
    exact Hfound.
  - intros Hnone.
    apply (read_headers_keeps_sender hs _ _ Hnone) in Hfound. exact Hfound.
Qed.

(** A message without parts has a body only when its type says plain
    text. *)
Lemma read_email_data_single_part (message_id : json) (m p b : gmap str json)
    (hs : list json) (found : headers_found) (mime_type : str) :
  m !! py "payload" = Some (JObj p) ->
  py_iter (default (JArr []) (p !! py "headers")) = Ok hs ->
  read_headers lower hs no_headers = Ok found ->
  truthy (default JNull (p !! py "parts")) = false ->
  default (JObj ∅) (p !! py "body") = JObj b ->
  default (JStr []) (p !! py "mimeType") = JStr mime_type ->
  is_substring (py "text/plain") mime_type = false ->
  read_email_data lower decode message_id (JObj m)
  = Ok {| raw_message_id := message_id;
          raw_thread_id := default JNull (m !! py "threadId");
          raw_sender := found_sender found;
          raw_subject := found_subject found;
          raw_body := [];
          raw_message_id_header := found_message_id_header found |}.
Proof.
  intros Hp Hhs Hfound Hparts Hbody Hmime Hplain.
  rewrite (read_email_data_body message_id m p hs found Hp Hhs Hfound).
  unfold find_bodies. rewrite Hparts. cbn [py_get rbind].
  rewrite Hbody. cbn [py_get rbind]. rewrite Hmime. cbn [py_in rbind]. rewrite Hplain.
  destruct (truthy (default JNull (b !! py "data"))); reflexivity.
Qed.

End ReadMessageFacts.

Section UnreadBody.

Variable E : Env.
Variable lower : str -> str.
Variable decode : json -> result str.

Hypothesis lib_walks : extracts_by_walk (lib E) lower decode.

(** X28.  A message that has no parts and whose type is not plain text -- a
    message that is one HTML body, for one -- is read with an empty body,
    and the cycle marks it as read: it is not classified, answered or
    escalated. *)
Theorem single_part_message_skipped (pubsub_message_data : str) (s s1 : state)
    (notification first m p b : gmap str json) (rest hs : list json)
    (id : json) (found : headers_found) (mime_type : str)
    (thread sender subject header_id : option str) :
  json_loads (lib E) pubsub_message_data = Ok (JObj notification) ->
  list_unread_emails E s = (Ok (JArr (JObj first :: rest)), s1) ->
  first !! py "id" = Some id ->
  truthy id = true ->
  messages_get (world E) (trace s1) id = Ok (JObj m) ->
  m !! py "payload" = Some (JObj p) ->
  py_iter (default (JArr []) (p !! py "headers")) = Ok hs ->
  read_headers lower hs no_headers = Ok found ->
  as_opt_str (default JNull (m !! py "threadId")) = Some thread ->
  as_opt_str (found_sender found) = Some sender ->
  as_opt_str (found_subject found) = Some subject ->
  as_opt_str (found_message_id_header found) = Some header_id ->
  truthy (default JNull (p !! py "parts")) = false ->
  default (JObj ∅) (p !! py "body") = JObj b ->
  default (JStr []) (p !! py "mimeType") = JStr mime_type ->
  is_substring (py "text/plain") mime_type = false ->
  let d := {| message_id := id; thread_id := thread; sender := sender;
              subject := subject; body := []; message_id_header := header_id |} in
  let marked := messages_modify (world E)
                  (trace s1 ++ [EvGmailGet id (Ok (JObj m))]) id in
  run (services E) (process_pubsub_message (lib E) pubsub_message_data) s []
  = (Ok tt,
     extend s1 [EvGmailGet id (Ok (JObj m)); EvGmailModify id marked],
     [Called_list_unread_emails (Ok (JArr (JObj first :: rest)));
      Called_get_email_details id (Ok (Some d));
      Called_mark_as_read id (Ok (match marked with Ok _ => true | Raise _ => false end))]).
Proof.
  intros Hloads Hlist Hid Htruthy Hget Hp Hhs Hfound Hthread Hsender Hsubject Hheader
    Hparts Hbody Hmime Hplain d marked.
  assert (extract_email_data (lib E) id (JObj m) = Ok d) as Hextract.
  { pose proof (lib_walks id (JObj m)) as Hwalk.
    rewrite (read_email_data_single_part lower decode id m p b hs found mime_type
               Hp Hhs Hfound Hparts Hbody Hmime Hplain) in Hwalk.
    apply Hwalk. unfold typed_email_data.
    cbn [raw_thread_id raw_sender raw_subject raw_message_id_header raw_message_id
         raw_body].
    rewrite Hthread, Hsender, Hsubject, Hheader. reflexivity. }
  unfold process_pubsub_message. rewrite Hloads.
  cbn [plift pbind catch py_get call run services].
  rewrite Hlist.
  cbn [plift pbind catch run record_call app truthy length Nat.eqb negb py_first py_get].
  rewrite Hid. change (default JNull (Some id)) with id.
  cbn [plift pbind catch run]. rewrite Htruthy.
  cbn [plift pbind catch run negb call services].
  rewrite get_email_details_run, Hget. cbn [rbind]. rewrite Hextract.
  cbn [plift pbind catch run record_call app].
  change (body d) with (@nil N).
  cbn [plift pbind catch run call services].
  rewrite mark_as_read_run. cbn [extend trace].
  fold marked.
  cbn [plift pbind catch run record_call app].
  unfold extend. cbn [trace oauth_token token_expiry_time heap].
  rewrite <- app_assoc.
  destruct marked as [[] | e]; reflexivity.
Qed.

End UnreadBody.

Lemma walk_extract_walks (L : PyLib) :
  extract_email_data L = walk_extract ->
  extracts_by_walk L ascii_lower plain_decode.
Proof.
  intros HL message_id message. rewrite HL. unfold walk_extract.
  destruct (read_email_data ascii_lower plain_decode message_id message) as [raw | e];
    cbn [rbind]; [| reflexivity].
  intros d Hd. rewrite Hd. reflexivity.
Qed.

Lemma plain_text_part_preferred_witness :
  read_email_data ascii_lower plain_decode (JStr (py "m1")) (JObj mixed_message)
  = Ok {| raw_message_id := JStr (py "m1");
          raw_thread_id := default JNull (mixed_message !! py "threadId");
          raw_sender := JStr (py "Ann <ann@example.com>");
          raw_subject := JStr (py "ThinkPad");
          raw_body := py "Do you have a T470?";
          raw_message_id_header := JStr (py "<abc@mail.example.com>") |}.
Proof.
  apply (plain_text_part_preferred ascii_lower plain_decode (JStr (py "m1"))
           mixed_message mixed_payload
           (<[ py "mimeType" := JStr (py "text/plain") ]>
              {[ py "body" := JObj {[ py "data" := JStr (py "Do you have a T470?") ]} ]})
           sample_headers
           [text_part "text/html" "<p>Do you have a T470?</p>"] [JNum 7]
           {| found_sender := JStr (py "Ann <ann@example.com>");
              found_subject := JStr (py "ThinkPad");
              found_message_id_header := JStr (py "<abc@mail.example.com>") |}
           (JStr (py "Do you have a T470?")) (py "Do you have a T470?")
           (Some (py "<p>Do you have a T470?</p>"))).
  all: try (vm_compute; reflexivity).
  intros H; discriminate H.
Defined.

Lemma nested_plain_text_preferred_witness :
  read_email_data ascii_lower plain_decode (JStr (py "m1")) (JObj nested_message)
  = Ok {| raw_message_id := JStr (py "m1");
          raw_thread_id := default JNull (nested_message !! py "threadId");
          raw_sender := JStr (py "Ann <ann@example.com>");
          raw_subject := JStr (py "ThinkPad");
          raw_body := py "Do you have a T470?";
          raw_message_id_header := JStr (py "<abc@mail.example.com>") |}.
Proof.
  apply (nested_plain_text_preferred ascii_lower plain_decode (JStr (py "m1"))
           nested_message nested_payload
           (<[ py "mimeType" := JStr (py "multipart/alternative") ]>
              {[ py "parts" :=
                   JArr [text_part "text/html" "<p>Do you have a T470?</p>";
                         text_part "text/plain" "Do you have a T470?";
                         JNum 7] ]})
           (<[ py "mimeType" := JStr (py "text/plain") ]>
              {[ py "body" := JObj {[ py "data" := JStr (py "Do you have a T470?") ]} ]})
           sample_headers
           [text_part "text/html" "<p>banner</p>"]
           [text_part "application/pdf" "JVBERi0"]
           [text_part "text/html" "<p>Do you have a T470?</p>"] [JNum 7]
           {| found_sender := JStr (py "Ann <ann@example.com>");
              found_subject := JStr (py "ThinkPad");
              found_message_id_header := JStr (py "<abc@mail.example.com>") |}
           (JStr (py "Do you have a T470?")) (py "Do you have a T470?")
           (Some (py "<p>banner</p>")) (Some (py "<p>banner</p>"))
           (Some (py "<p>banner</p>"))).
  all: try (vm_compute; reflexivity).
  intros H; discriminate H.
Defined.

Lemma sender_is_last_from_header_witness :
  exists d,
    read_email_data ascii_lower plain_decode (JStr (py "m1")) (JObj mixed_message) = Ok d
    /\ raw_sender d = JStr (py "Ann <ann@example.com>").
Proof.
  eexists. split; [vm_compute; reflexivity |].
  refine (proj1 (sender_is_last_from_header ascii_lower plain_decode (JStr (py "m1"))
                   mixed_message mixed_payload sample_headers _ _ _ _)
            [header "from" "old@example.com"; header "Subject" "ThinkPad"]
            (<[ py "name" := JStr (py "FROM") ]>
               {[ py "value" := JStr (py "Ann <ann@example.com>") ]})
            [header "Message-ID" "<abc@mail.example.com>"] (py "FROM") _ _ _ _).
  - vm_compute. reflexivity.
  - vm_compute. reflexivity.
  - vm_compute. reflexivity.
  - reflexivity.
  - vm_compute. reflexivity.
  - vm_compute. reflexivity.
  - intros h' n' [Hh | []] Hn. injection Hh as <-.
    vm_compute in Hn. injection Hn as <-. vm_compute. intros H; discriminate H.
Defined.

Lemma single_part_message_skipped_witness :
  exists s' listing d marked,
    run (services html_env) (process_pubsub_message (lib html_env) notification_text)
      initial_state []
    = (Ok tt, s',
       [Called_list_unread_emails (Ok listing);
        Called_get_email_details (JStr (py "m1")) (Ok (Some d));
        Called_mark_as_read (JStr (py "m1")) (Ok marked)])
    /\ body d = [].
Proof.
  eexists _, _, _, _. split.
  - refine (single_part_message_skipped html_env ascii_lower plain_decode
              (walk_extract_walks (lib html_env) eq_refl)
              notification_text initial_state _
              _ {[ py "id" := JStr (py "m1") ]} html_message html_payload
              {[ py "data" := JStr (py "<p>Do you have a T470?</p>") ]}
              [] sample_headers (JStr (py "m1"))
              {| found_sender := JStr (py "Ann <ann@example.com>");
                 found_subject := JStr (py "ThinkPad");
                 found_message_id_header := JStr (py "<abc@mail.example.com>") |}
              (py "text/html")
              (Some (py "t1")) (Some (py "Ann <ann@example.com>"))
              (Some (py "ThinkPad")) (Some (py "<abc@mail.example.com>"))
              _ _ _ _ _ _ _ _ _ _ _ _ _ _ _ _).
    all: try (vm_compute; reflexivity).
  - reflexivity.
Defined.

(** The test for [q] is [in], which a list or a string can pass as well as
    a dict.  With the parameters [["q"]] and an item found, the reply is
    sent; with the same parameters and nothing found, the log line of that
    branch calls [search_params.get], which a list does not have: the
    cycle ends after the search, and the message is neither escalated nor
    marked as read. *)
Example parameters_that_are_no_dict :
  let params := JArr [JStr (py "q")] in
  let calls items :=
    map call_name
      (run (scripted_search params items)
         (process_pubsub_message sample_lib notification_text) tt []).2 in
  calls [sample_item]
    = [Name_list_unread_emails; Name_get_email_details; Name_classify_email;
       Name_generate_ebay_search_params; Name_search_ebay_items;
       Name_evaluate_knowledge_relevance; Name_generate_response; Name_send_reply;
       Name_mark_as_read]
  /\ calls []
     = [Name_list_unread_emails; Name_get_email_details; Name_classify_email;
        Name_generate_ebay_search_params; Name_search_ebay_items].
Proof. vm_compute. split; reflexivity. Qed.
